(** * A shell-command emulator: the [CommandExecutor] of executor.py

    The executor interprets one raw command line against a working
    directory and answers with a 4-tuple (stdout, stderr, cwd, exit code).
    This development embeds the dispatcher [run], every handler and the
    path resolver as Rocq functions and proves properties of them.

    Modelling choices.
    - A Python [str] is a [string]; a character is a code point below 256.
    - The file system is a tree of regular files (holding text) and
      directories (finite maps from entry names to nodes): no symbolic
      links, permissions, devices or quotas.  Handlers run in a state and
      exception monad over that tree; an exception keeps the changes made
      before it was raised.
    - What the interpreter and the host decide (home directory, user name,
      clock, psutil probes, recursion limit, directory sizes) is a
      [Host] record.
    - Library functions (shlex, os.path, os, shutil) are modelled after
      their CPython implementations on POSIX.  What they print inside an
      error message is kept simple: an [OSError] names the path the call
      was given, and the errors [copytree] collects are joined by "; ".
    - The size of a file is the length of its UTF-8 encoding; times of
      modification are not kept, so [touch] only creates what is missing.
    - [recursion_limit] counts the nested [copytree] calls the interpreter
      allows before it raises [RecursionError]. *)

From Stdlib Require Import String Ascii ZArith List Lia Bool DecimalString.
From stdpp Require Import base option gmap strings list sorting.

Local Set Warnings "-register-all".
Local Open Scope string_scope.
Local Open Scope list_scope.
Local Open Scope Z_scope.
Local Open Scope nat_scope.

(** ** Characters and strings *)

(** The newline and the double quote, which have no escape in a literal. *)
Definition nl : string := String (ascii_of_nat 10) EmptyString.
Definition dq : string := String (ascii_of_nat 34) EmptyString.

(** [str.isspace] on code points below 256. *)
Definition is_space (c : ascii) : bool :=
  let n := nat_of_ascii c in
  ((9 <=? n) && (n <=? 13)) || ((28 <=? n) && (n <=? 32))
  || (n =? 133) || (n =? 160).

Fixpoint lstrip (s : string) : string :=
  match s with
  | EmptyString => EmptyString
  | String c s' => if is_space c then lstrip s' else s
  end.

Fixpoint rstrip (s : string) : string :=
  match s with
  | EmptyString => EmptyString
  | String c s' =>
      match rstrip s' with
      | EmptyString => if is_space c then EmptyString else String c EmptyString
      | r => String c r
      end
  end.

(** [str.strip()] *)
Definition strip (s : string) : string := rstrip (lstrip s).

Definition is_empty (s : string) : bool :=
  match s with EmptyString => true | _ => false end.

(** [c in s] for a character *)
Fixpoint mem_char (c : ascii) (s : string) : bool :=
  match s with
  | EmptyString => false
  | String d s' => Ascii.eqb c d || mem_char c s'
  end.

(** [sub in s] for strings *)
Fixpoint contains (sub s : string) : bool :=
  String.prefix sub s
  || match s with
     | EmptyString => false
     | String _ s' => contains sub s'
     end.

(** [x in xs] for a list of strings *)
Definition mem_str (x : string) (xs : list string) : bool :=
  existsb (String.eqb x) xs.

(** [xs.index(x)], [None] standing for the ValueError *)
Fixpoint index_of (x : string) (xs : list string) : option nat :=
  match xs with
  | [] => None
  | y :: ys => if String.eqb y x then Some 0 else option_map S (index_of x ys)
  end.

Definition str_of_Z (z : Z) : string := NilZero.string_of_int (Z.to_int z).

Fixpoint spaces (n : nat) : string :=
  match n with 0 => EmptyString | S k => String " " (spaces k) end.

(** the format [{n:8d}]: decimal, right-aligned in at least 8 columns *)
Definition fmt_8d (n : Z) : string :=
  let d := str_of_Z n in spaces (8 - String.length d) +:+ d.

(** ** shlex.split (POSIX mode, whitespace_split, no commenters) *)

Definition is_lex_space (c : ascii) : bool := mem_char c (" " +:+ String (ascii_of_nat 9) (String (ascii_of_nat 13) nl)).
Definition is_quote (c : ascii) : bool := mem_char c ("'" +:+ dq).
Definition is_escape (c : ascii) : bool := Ascii.eqb c (ascii_of_nat 92).
Definition is_escapedquote (c : ascii) : bool := mem_char c dq.

(** The lexer's [state]: [' '], ['a'], an open quote, or the escape
    character together with the state to come back to ([escapedstate]:
    ['a'] is [None], a quote is [Some q]). *)
Inductive lex_state :=
| LWhite
| LWord
| LQuote (q : ascii)
| LEscape (back : option ascii).

Definition snoc_char (tok : string) (c : ascii) : string :=
  tok +:+ String c EmptyString.

(** One pass over the input; [tok] and [quoted] are the lexer's [token] and
    [quoted] of the token being read, [out] the tokens emitted so far, last
    first.  A token ends ("break") at white space or at the end of the
    input; it is dropped when it is empty and was never quoted. *)
Fixpoint lex (st : lex_state) (tok : string) (quoted : bool) (s : string)
    (out : list string) : string + list string :=
  match s with
  | EmptyString =>
      match st with
      | LWhite | LWord =>
          inr (rev (if negb (is_empty tok) || quoted then tok :: out else out))
      | LQuote _ => inl "No closing quotation"
      | LEscape _ => inl "No escaped character"
      end
  | String c s' =>
      match st with
      | LWhite =>
          if is_lex_space c then
            if negb (is_empty tok) || quoted
            then lex LWhite EmptyString false s' (tok :: out)
            else lex LWhite tok quoted s' out
          else if is_escape c then lex (LEscape None) tok quoted s' out
          else if is_quote c then lex (LQuote c) tok quoted s' out
          else lex LWord (String c EmptyString) quoted s' out
      | LQuote q =>
          if Ascii.eqb c q then lex LWord tok true s' out
          else if is_escape c && is_escapedquote q
          then lex (LEscape (Some q)) tok true s' out
          else lex (LQuote q) (snoc_char tok c) true s' out
      | LEscape back =>
          match back with
          | Some q =>
              let tok' :=
                if negb (is_escape c) && negb (Ascii.eqb c q)
                then snoc_char tok (ascii_of_nat 92) else tok in
              lex (LQuote q) (snoc_char tok' c) quoted s' out
          | None => lex LWord (snoc_char tok c) quoted s' out
          end
      | LWord =>
          if is_lex_space c then
            if negb (is_empty tok) || quoted
            then lex LWhite EmptyString false s' (tok :: out)
            else lex LWhite tok quoted s' out
          else if is_quote c then lex (LQuote c) tok quoted s' out
          else if is_escape c then lex (LEscape None) tok quoted s' out
          else lex LWord (snoc_char tok c) quoted s' out
      end
  end.

(** [shlex.split(s)]: the tokens, or the message of the ValueError. *)
Definition shlex_split (s : string) : string + list string :=
  lex LWhite EmptyString false s [].

(** ** os.path (posixpath) *)

(** [p.split('/')] *)
Fixpoint split_slash (p : string) : list string :=
  match p with
  | EmptyString => [EmptyString]
  | String c p' =>
      if Ascii.eqb c "/" then EmptyString :: split_slash p'
      else match split_slash p' with
           | [] => [String c EmptyString]
           | w :: ws => String c w :: ws
           end
  end.

Definition isabs (p : string) : bool := String.prefix "/" p.

Fixpoint ends_with_slash (p : string) : bool :=
  match p with
  | EmptyString => false
  | String c EmptyString => Ascii.eqb c "/"
  | String _ p' => ends_with_slash p'
  end.

(** [os.path.join(a, b)] *)
Definition join (a b : string) : string :=
  if String.prefix "/" b then b
  else if is_empty a || ends_with_slash a then a +:+ b
  else a +:+ "/" +:+ b.

(** POSIX keeps exactly two leading slashes apart; three or more are one. *)
Definition initial_slashes (p : string) : nat :=
  if String.prefix "/" p
  then if String.prefix "//" p && negb (String.prefix "///" p) then 2 else 1
  else 0.

Fixpoint slashes (n : nat) : string :=
  match n with 0 => EmptyString | S k => String "/" (slashes k) end.

(** The body of normpath's loop; [new_comps] is kept last component first,
    so that append is a cons and pop is a tail. *)
Definition norm_step (ini : nat) (new_comps : list string) (comp : string)
    : list string :=
  if String.eqb comp "" || String.eqb comp "." then new_comps
  else if negb (String.eqb comp "..")
          || ((ini =? 0) && match new_comps with [] => true | _ => false end)
          || match new_comps with c :: _ => String.eqb c ".." | [] => false end
       then comp :: new_comps
       else tail new_comps.

Definition norm_comps (ini : nat) (comps : list string) : list string :=
  rev (fold_left (norm_step ini) comps []).

(** [os.path.normpath(p)] *)
Definition normpath (p : string) : string :=
  if is_empty p then "."
  else
    let ini := initial_slashes p in
    let path := slashes ini +:+ String.concat "/" (norm_comps ini (split_slash p)) in
    if is_empty path then "." else path.

(** [os.path.basename(p)]: what follows the last slash *)
Definition basename (p : string) : string := List.last (split_slash p) EmptyString.

Fixpoint rstrip_slash (p : string) : string :=
  match p with
  | EmptyString => EmptyString
  | String c p' =>
      match rstrip_slash p' with
      | EmptyString => if Ascii.eqb c "/" then EmptyString else String c EmptyString
      | r => String c r
      end
  end.

(** [os.path.dirname(p)]: the text up to and including the last slash,
    its trailing slashes removed unless it consists of slashes only *)
Definition dirname (p : string) : string :=
  match split_slash p with
  | [] | [_] => EmptyString
  | comps =>
      let head := String.concat "/" (removelast comps) +:+ "/" in
      if is_empty (rstrip_slash head) then head else rstrip_slash head
  end.

(** ** The path resolver of the executor *)

(** [CommandExecutor._path_resolve] *)
Definition _path_resolve (path cwd : string) : string :=
  if isabs path then normpath path
  else normpath (join cwd path).

(** ** The file system *)

(** A node is a regular file with its text or a directory with its entries.
    The state of the file system is the root node. *)
Inductive node :=
| File (data : string)
| Dir (entries : gmap string node).

(** A canonical path: the entry names from the root down. *)
Definition fspath := list string.

Fixpoint get (t : node) (p : fspath) : option node :=
  match p with
  | [] => Some t
  | c :: p' =>
      match t with
      | Dir m => match m !! c with Some t' => get t' p' | None => None end
      | File _ => None
      end
  end.

(** [put t p v] installs [v] at [p]; missing directories on the way are
    created, a regular file on the way leaves the tree as it is. *)
Fixpoint put (t : node) (p : fspath) (v : node) : node :=
  match p with
  | [] => v
  | c :: p' =>
      match t with
      | Dir m => Dir (<[c := put (default (Dir ∅) (m !! c)) p' v]> m)
      | File _ => t
      end
  end.

Fixpoint del (t : node) (p : fspath) : node :=
  match p with
  | [] => t
  | [c] => match t with Dir m => Dir (delete c m) | File _ => t end
  | c :: p' =>
      match t with
      | Dir m => Dir (alter (fun t' => del t' p') c m)
      | File _ => t
      end
  end.

Definition is_dir_node (o : option node) : bool :=
  match o with Some (Dir _) => true | _ => false end.

Definition is_file_node (o : option node) : bool :=
  match o with Some (File _) => true | _ => false end.

(** The height of a tree: the number of nested directories. *)
Fixpoint depth (t : node) : nat :=
  match t with
  | File _ => 0
  | Dir m => S (map_fold (fun _ t' acc => Nat.max (depth t') acc) 0 m)
  end.

(** ** Exceptions *)

Inductive oserr :=
| ENOENT | ENOTDIR | EISDIR | EEXIST | ENOTEMPTY | EINVAL | EBUSY.

Inductive exn :=
| IndexError
| ValueError (msg : string)
| OSError (kind : oserr) (path : string)
| ShutilError (msg : string)
| RecursionError
| HostError (msg : string).

Definition strerror (k : oserr) : string :=
  match k with
  | ENOENT => "[Errno 2] No such file or directory"
  | ENOTDIR => "[Errno 20] Not a directory"
  | EISDIR => "[Errno 21] Is a directory"
  | EEXIST => "[Errno 17] File exists"
  | ENOTEMPTY => "[Errno 39] Directory not empty"
  | EINVAL => "[Errno 22] Invalid argument"
  | EBUSY => "[Errno 16] Device or resource busy"
  end.

(** [str(e)]; a path is rendered between plain quotes. *)
Definition exn_msg (e : exn) : string :=
  match e with
  | IndexError => "list index out of range"
  | ValueError msg => msg
  | OSError k p => strerror k +:+ ": '" +:+ p +:+ "'"
  | ShutilError msg => msg
  | RecursionError => "maximum recursion depth exceeded"
  | HostError msg => msg
  end.

Definition is_OSError (e : exn) : bool :=
  match e with OSError _ _ => true | _ => false end.

Definition is_FileExistsError (e : exn) : bool :=
  match e with OSError EEXIST _ => true | _ => false end.

(** ** The host *)

Record Host := {
  proc_cwd : fspath;                  (* os.getcwd(), canonical *)
  home_dir : string;                  (* os.path.expanduser("~") *)
  env_user : option string;           (* os.environ.get("USER") *)
  clock_text : string;                (* now().strftime("%Y-%m-%d %H:%M:%S") *)
  uptime_probe : exn + Z;             (* int(now - psutil.boot_time()) *)
  cpu_probe : exn + string;           (* psutil.cpu_percent(...), as printed *)
  mem_probe : exn + (Z * Z * string); (* used, total, percent as printed *)
  ps_probe : exn + list string;       (* the line formatted for each process *)
  dir_size : Z;                       (* st_size of a directory *)
  recursion_limit : nat               (* nested calls the interpreter allows *)
}.

(** ** The state and exception monad *)

Inductive result (A : Type) :=
| Ret (a : A) (fs : node)
| Raise (e : exn) (fs : node).
Arguments Ret {A} a fs.
Arguments Raise {A} e fs.

Definition M (A : Type) : Type := node -> result A.

Definition ret {A} (a : A) : M A := fun fs => Ret a fs.
Definition raise {A} (e : exn) : M A := fun fs => Raise e fs.
Definition bind {A B} (m : M A) (k : A -> M B) : M B :=
  fun fs => match m fs with
            | Ret a fs' => k a fs'
            | Raise e fs' => Raise e fs'
            end.
(** [try: m  except <those e with sel e>: handler e] *)
Definition try_except {A} (m : M A) (sel : exn -> bool) (handler : exn -> M A) : M A :=
  fun fs => match m fs with
            | Ret a fs' => Ret a fs'
            | Raise e fs' => if sel e then handler e fs' else Raise e fs'
            end.
Definition any_Exception (e : exn) : bool := true.
Definition read_fs {A} (f : node -> A) : M A := fun fs => Ret (f fs) fs.
Definition write_fs (f : node -> node) : M unit := fun fs => Ret tt (f fs).
Definition lift {A} (r : exn + A) : M A :=
  match r with inl e => raise e | inr a => ret a end.

Notation "'let!' x ':=' m 'in' k" := (bind m (fun x => k))
  (at level 10, x name, m at level 100, k at level 200).
Notation "'do!' m 'in' k" := (bind m (fun _ => k))
  (at level 10, m at level 100, k at level 200).

(** ** os and os.path on the tree *)

Definition has_nul (p : string) : bool := mem_char (ascii_of_nat 0) p.

(** How the system follows a path: every component is looked up in an
    existing directory; the last one may name anything, or nothing yet. *)
Fixpoint walk (fs : node) (cur : fspath) (comps : list string) : oserr + fspath :=
  match comps with
  | [] => inr cur
  | c :: rest =>
      match get fs cur with
      | Some (Dir _) =>
          if String.eqb c "" || String.eqb c "." then walk fs cur rest
          else if String.eqb c ".." then walk fs (removelast cur) rest
          else walk fs (cur ++ [c]) rest
      | Some (File _) => inl ENOTDIR
      | None => inl ENOENT
      end
  end.

Definition start_of (h : Host) (p : string) : fspath :=
  if isabs p then [] else proc_cwd h.

Definition resolve (h : Host) (fs : node) (p : string) : exn + fspath :=
  if is_empty p then inl (OSError ENOENT p)
  else if has_nul p then inl (ValueError "embedded null byte")
  else match walk fs (start_of h p) (split_slash p) with
       | inl k => inl (OSError k p)
       | inr q => inr q
       end.

Definition stat (h : Host) (fs : node) (p : string) : option node :=
  match resolve h fs p with
  | inr q => get fs q
  | inl _ => None
  end.

(** [os.path.exists], [os.path.isdir], [os.path.isfile] *)
Definition path_exists (h : Host) (fs : node) (p : string) : bool :=
  match stat h fs p with Some _ => true | None => false end.
Definition path_isdir (h : Host) (fs : node) (p : string) : bool :=
  is_dir_node (stat h fs p).
Definition path_isfile (h : Host) (fs : node) (p : string) : bool :=
  is_file_node (stat h fs p).

(** [os.path.samefile] as shutil uses it: false when either is missing *)
Definition samefile (h : Host) (fs : node) (a b : string) : bool :=
  match resolve h fs a, resolve h fs b with
  | inr x, inr y =>
      bool_decide (x = y) && match get fs x with Some _ => true | None => false end
  | _, _ => false
  end.

(** The text a canonical path is printed as. *)
Definition render (q : fspath) : string := "/" +:+ String.concat "/" q.

(** [os.path.abspath] *)
Definition abspath (h : Host) (p : string) : string :=
  normpath (join (render (proc_cwd h)) p).

(** Length of the UTF-8 encoding of a text of code points below 256. *)
Fixpoint utf8_len (s : string) : Z :=
  match s with
  | EmptyString => 0%Z
  | String c s' =>
      ((if Nat.ltb (nat_of_ascii c) 128 then 1 else 2) + utf8_len s')%Z
  end.

(** [os.path.getsize] *)
Definition path_getsize (h : Host) (p : string) : M Z :=
  fun fs =>
    match resolve h fs p with
    | inl e => Raise e fs
    | inr q =>
        match get fs q with
        | Some (File s) => Ret (utf8_len s) fs
        | Some (Dir _) => Ret (dir_size h) fs
        | None => Raise (OSError ENOENT p) fs
        end
    end.

(** [os.listdir]; the order is the system's, callers sort. *)
Definition listdir (h : Host) (p : string) : M (list string) :=
  fun fs =>
    match resolve h fs p with
    | inl e => Raise e fs
    | inr q =>
        match get fs q with
        | Some (Dir m) => Ret (map fst (map_to_list m)) fs
        | Some (File _) => Raise (OSError ENOTDIR p) fs
        | None => Raise (OSError ENOENT p) fs
        end
    end.

(** Reading in text mode turns "\r\n" and "\r" into "\n". *)
Fixpoint universal_newlines (s : string) : string :=
  match s with
  | EmptyString => EmptyString
  | String c s' =>
      if Ascii.eqb c (ascii_of_nat 13) then
        match s' with
        | String d s'' =>
            if Ascii.eqb d (ascii_of_nat 10)
            then String (ascii_of_nat 10) (universal_newlines s'')
            else String (ascii_of_nat 10) (universal_newlines s')
        | EmptyString => nl
        end
      else String c (universal_newlines s')
  end.

(** [open(p, "rb").read()] *)
Definition read_raw (h : Host) (p : string) : M string :=
  fun fs =>
    match resolve h fs p with
    | inl e => Raise e fs
    | inr q =>
        match get fs q with
        | Some (File s) => Ret s fs
        | Some (Dir _) => Raise (OSError EISDIR p) fs
        | None => Raise (OSError ENOENT p) fs
        end
    end.

(** [open(p, "r", encoding="utf-8", errors="replace").read()] *)
Definition read_text (h : Host) (p : string) : M string :=
  let! s := read_raw h p in ret (universal_newlines s).

(** [open(p, "w").write(data)], or mode ["a"] when [append] *)
Definition write_raw (h : Host) (append : bool) (p data : string) : M unit :=
  fun fs =>
    match resolve h fs p with
    | inl e => Raise e fs
    | inr q =>
        match get fs q with
        | Some (Dir _) => Raise (OSError EISDIR p) fs
        | Some (File old) =>
            Ret tt (put fs q (File (if append then old +:+ data else data)))
        | None => Ret tt (put fs q (File data))
        end
    end.

(** [f.readlines()] on a text: each line keeps its newline. *)
Fixpoint split_lines (s : string) : list string :=
  match s with
  | EmptyString => []
  | String c s' =>
      if Ascii.eqb c (ascii_of_nat 10) then nl :: split_lines s'
      else match split_lines s' with
           | [] => [String c EmptyString]
           | l :: ls =>
               match s' with
               | EmptyString => [String c EmptyString]
               | _ => String c l :: ls
               end
           end
  end.

(** [os.makedirs(name, exist_ok)]: the components are followed from the
    start directory and every missing one is created.  [fresh] tells
    whether the directory reached last was created by this call. *)
Fixpoint mkdirs_walk (name : string) (cur : fspath) (fresh : bool)
    (comps : list string) : M (fspath * bool) :=
  fun fs =>
    match comps with
    | [] => Ret (cur, fresh) fs
    | c :: rest =>
        match get fs cur with
        | Some (Dir _) =>
            if String.eqb c "" || String.eqb c "." then mkdirs_walk name cur fresh rest fs
            else if String.eqb c ".." then mkdirs_walk name (removelast cur) false rest fs
            else match get fs (cur ++ [c]) with
                 | None =>
                     mkdirs_walk name (cur ++ [c]) true rest (put fs (cur ++ [c]) (Dir ∅))
                 | Some _ => mkdirs_walk name (cur ++ [c]) false rest fs
                 end
        | Some (File _) => Raise (OSError ENOTDIR name) fs
        | None => Raise (OSError ENOENT name) fs
        end
    end.

Definition makedirs (h : Host) (exist_ok : bool) (name : string) : M fspath :=
  if is_empty name then raise (OSError ENOENT name)
  else if has_nul name then raise (ValueError "embedded null byte")
  else
    let! r := mkdirs_walk name (start_of h name) false (split_slash name) in
    let '(q, fresh) := r in
    if fresh then ret q
    else
      let! t := read_fs (fun fs => get fs q) in
      match t with
      | Some (Dir _) => if exist_ok then ret q else raise (OSError EEXIST name)
      | Some (File _) => raise (OSError EEXIST name)
      | None => raise (OSError ENOENT name)
      end.

Definition is_empty_map (m : gmap string node) : bool :=
  match map_to_list m with [] => true | _ => false end.

(** [os.rmdir] *)
Definition rmdir (h : Host) (p : string) : M unit :=
  fun fs =>
    match resolve h fs p with
    | inl e => Raise e fs
    | inr q =>
        match get fs q with
        | Some (Dir m) =>
            if negb (is_empty_map m) then Raise (OSError ENOTEMPTY p) fs
            else match q with
                 | [] => Raise (OSError EBUSY p) fs
                 | _ => Ret tt (del fs q)
                 end
        | Some (File _) => Raise (OSError ENOTDIR p) fs
        | None => Raise (OSError ENOENT p) fs
        end
    end.

(** [os.remove] *)
Definition remove (h : Host) (p : string) : M unit :=
  fun fs =>
    match resolve h fs p with
    | inl e => Raise e fs
    | inr q =>
        match get fs q with
        | Some (File _) => Ret tt (del fs q)
        | Some (Dir _) => Raise (OSError EISDIR p) fs
        | None => Raise (OSError ENOENT p) fs
        end
    end.

(** [os.rename] *)
Definition rename (h : Host) (src dst : string) : M unit :=
  fun fs =>
    match resolve h fs src, resolve h fs dst with
    | inl e, _ => Raise e fs
    | _, inl e => Raise e fs
    | inr s, inr d =>
        match get fs s with
        | None => Raise (OSError ENOENT src) fs
        | Some t =>
            if bool_decide (s = d) then Ret tt fs
            else
              let moved := Ret tt (put (del fs s) d t) in
              match t, get fs d with
              | Dir _, Some (File _) => Raise (OSError ENOTDIR dst) fs
              | Dir _, Some (Dir m) =>
                  if bool_decide (s `prefix_of` d) then Raise (OSError EINVAL dst) fs
                  else if negb (is_empty_map m) then Raise (OSError ENOTEMPTY dst) fs
                  else moved
              | Dir _, None =>
                  if bool_decide (s `prefix_of` d) then Raise (OSError EINVAL dst) fs
                  else moved
              | File _, Some (Dir _) => Raise (OSError EISDIR dst) fs
              | File _, _ => moved
              end
        end
    end.

(** ** shutil *)

(** [shutil.rmtree] *)
Definition rmtree (h : Host) (p : string) : M unit :=
  fun fs =>
    match resolve h fs p with
    | inl e => Raise e fs
    | inr q =>
        match get fs q with
        | Some (Dir _) =>
            match q with
            | [] => Raise (OSError EBUSY p) (Dir ∅)
            | _ => Ret tt (del fs q)
            end
        | Some (File _) => Raise (OSError ENOTDIR p) fs
        | None => Raise (OSError ENOENT p) fs
        end
    end.

(** [shutil.copyfile]: the source is opened first, then the target. *)
Definition copyfile (h : Host) (src dst : string) : M unit :=
  let! same := read_fs (fun fs => samefile h fs src dst) in
  if same
  then raise (ShutilError ("'" +:+ src +:+ "' and '" +:+ dst +:+ "' are the same file"))
  else
    let! data := read_raw h src in
    write_raw h false dst data.

(** [shutil.copy2] *)
Definition copy2 (h : Host) (src dst : string) : M unit :=
  let! d := read_fs (fun fs => path_isdir h fs dst) in
  copyfile h src (if d then join dst (basename src) else dst).

(** [shutil.copy2] inside copytree, on canonical paths *)
Definition copy2_at (src dst : fspath) : M unit :=
  fun fs =>
    let dst := if is_dir_node (get fs dst) then dst ++ option_list (last src) else dst in
    if bool_decide (src = dst) && is_file_node (get fs src)
    then Raise (ShutilError ("'" +:+ render src +:+ "' and '" +:+ render dst
                             +:+ "' are the same file")) fs
    else
      match get fs src with
      | Some (File data) =>
          match get fs (removelast dst), get fs dst with
          | Some (Dir _), Some (Dir _) => Raise (OSError EISDIR (render dst)) fs
          | Some (Dir _), _ => Ret tt (put fs dst (File data))
          | Some (File _), _ => Raise (OSError ENOTDIR (render dst)) fs
          | None, _ => Raise (OSError ENOENT (render dst)) fs
          end
      | Some (Dir _) => Raise (OSError EISDIR (render src)) fs
      | None => Raise (OSError ENOENT (render src)) fs
      end.

(** [os.makedirs(dstname)] in a nested copytree call: the parent is the
    directory the enclosing call has just filled. *)
Definition mkdir_at (dst : fspath) : M fspath :=
  fun fs =>
    match get fs (removelast dst), get fs dst with
    | Some (Dir _), None => Ret dst (put fs dst (Dir ∅))
    | Some (Dir _), Some _ => Raise (OSError EEXIST (render dst)) fs
    | Some (File _), _ => Raise (OSError ENOTDIR (render dst)) fs
    | None, _ => Raise (OSError ENOENT (render dst)) fs
    end.

(** [os.scandir(src)], entries with the kind they have at that moment *)
Definition scandir_at (src : fspath) : M (list (string * node)) :=
  fun fs =>
    match get fs src with
    | Some (Dir m) => Ret (map_to_list m) fs
    | Some (File _) => Raise (OSError ENOTDIR (render src)) fs
    | None => Raise (OSError ENOENT (render src)) fs
    end.

(** The loop of [_copytree]: an [OSError] or [shutil.Error] of one entry is
    noted and the loop goes on; anything else leaves the loop at once. *)
Fixpoint for_entries {A} (f : A -> M unit) (l : list A) (errors : list string)
    : M (list string) :=
  fun fs =>
    match l with
    | [] => Ret errors fs
    | x :: l' =>
        match f x fs with
        | Ret _ fs' => for_entries f l' errors fs'
        | Raise e fs' =>
            match e with
            | OSError _ _ | ShutilError _ =>
                for_entries f l' (errors ++ [exn_msg e]) fs'
            | _ => Raise e fs'
            end
        end
    end.

(** What [_copytree] does with one entry: a directory is copied by a
    nested [copytree] call, anything else by [copy2]. *)
Definition copy_entry (copy_dir : fspath -> M fspath -> M unit)
    (src dst : fspath) (entry : string * node) : M unit :=
  let '(name, t) := entry in
  match t with
  | Dir _ => copy_dir (src ++ [name]) (mkdir_at (dst ++ [name]))
  | File _ => copy2_at (src ++ [name]) (dst ++ [name])
  end.

(** [shutil.copytree(src, dst)] from the scan on; [mkdst] is the
    [os.makedirs(dst)] of this call and [fuel] the calls left before the
    interpreter gives up. *)
Fixpoint copytree_at (fuel : nat) (src : fspath) (mkdst : M fspath) : M unit :=
  match fuel with
  | 0 => raise RecursionError
  | S k =>
      let! entries := scandir_at src in
      let! dst := mkdst in
      let! errors := for_entries (copy_entry (copytree_at k) src dst) entries [] in
      match errors with
      | [] => ret tt
      | _ => raise (ShutilError (String.concat "; " errors))
      end
  end.

Definition resolve_m (h : Host) (p : string) : M fspath :=
  fun fs => match resolve h fs p with
            | inl e => Raise e fs
            | inr q => Ret q fs
            end.

Definition copytree (h : Host) (src dst : string) : M unit :=
  let! s := resolve_m h src in
  copytree_at (recursion_limit h) s (makedirs h false dst).

(** [shutil._destinsrc] *)
Definition destinsrc (h : Host) (src dst : string) : bool :=
  let with_sep p := if ends_with_slash p then p else p +:+ "/" in
  String.prefix (with_sep (abspath h src)) (with_sep (abspath h dst)).

(** [shutil.move] *)
Definition move (h : Host) (src dst : string) : M unit :=
  let! dst_is_dir := read_fs (fun fs => path_isdir h fs dst) in
  let! same := read_fs (fun fs => samefile h fs src dst) in
  if dst_is_dir && same then rename h src dst
  else
    let real_dst :=
      if dst_is_dir then join dst (basename (rstrip_slash src)) else dst in
    let! taken := read_fs (fun fs => path_exists h fs real_dst) in
    if dst_is_dir && taken
    then raise (ShutilError ("Destination path '" +:+ real_dst +:+ "' already exists"))
    else
      try_except (rename h src real_dst) is_OSError
        (fun _ =>
           let! src_is_dir := read_fs (fun fs => path_isdir h fs src) in
           if src_is_dir then
             if destinsrc h src dst
             then raise (ShutilError ("Cannot move a directory '" +:+ src
                                      +:+ "' into itself '" +:+ dst +:+ "'."))
             else
               do! copytree h src real_dst in
               rmtree h src
           else
             do! copy2 h src real_dst in
             remove h src).

(** ** The handlers of the executor *)

(** What a handler answers: stdout, stderr, the working directory ([None]
    where the code answers [None]) and the exit code. *)
Definition Result : Type := string * string * option string * Z.

Definition str_le (a b : string) : Prop := String.leb a b = true.
#[local] Instance str_le_dec : RelDecision str_le.
Proof. intros a b. unfold str_le. apply _. Defined.

(** [sorted(names)] *)
Definition sorted_strs (l : list string) : list string := merge_sort str_le l.

Definition p_exists (h : Host) (p : string) : M bool :=
  read_fs (fun fs => path_exists h fs p).
Definition p_isdir (h : Host) (p : string) : M bool :=
  read_fs (fun fs => path_isdir h fs p).
Definition p_isfile (h : Host) (p : string) : M bool :=
  read_fs (fun fs => path_isfile h fs p).

(** The target and the format [_ls] settles on before it looks at the
    file system. *)
Definition ls_target (args : list string) (cwd : string) : string * bool :=
  match args with
  | [] => (cwd, false)
  | a0 :: rest =>
      if String.eqb a0 "-l"
      then (match rest with
            | a1 :: _ => _path_resolve a1 cwd
            | [] => cwd
            end, true)
      else (_path_resolve a0 cwd, false)
  end.

Fixpoint ls_long_lines (h : Host) (target : string) (entries : list string)
    : M (list string) :=
  match entries with
  | [] => ret []
  | e :: rest =>
      let! size := path_getsize h (join target e) in
      let! lines := ls_long_lines h target rest in
      ret ((fmt_8d size +:+ " " +:+ e) :: lines)
  end.

Definition _ls (h : Host) (args : list string) (cwd : string) : M Result :=
  let '(target, long_format) := ls_target args cwd in
  let! found := p_exists h target in
  if negb found
  then ret ("", "ls: cannot access '" +:+ target
                +:+ "': No such file or directory" +:+ nl, Some cwd, 2%Z)
  else
    let! isf := p_isfile h target in
    if isf then ret (basename target +:+ nl, "", Some cwd, 0%Z)
    else
      let! names := listdir h target in
      let entries := sorted_strs names in
      if long_format then
        let! lines := ls_long_lines h target entries in
        ret (String.concat nl lines
             +:+ (match lines with [] => "" | _ => nl end), "", Some cwd, 0%Z)
      else ret (String.concat "  " entries +:+ nl, "", Some cwd, 0%Z).

(** [args[0]] inside a message: an IndexError when there is no argument. *)
Definition arg0 (args : list string) : M string :=
  match args with
  | a :: _ => ret a
  | [] => raise IndexError
  end.

(** The directory [_cd] is asked to go to. *)
Definition cd_target (h : Host) (args : list string) (cwd : string) : string :=
  match args with
  | [] => home_dir h
  | a :: _ => _path_resolve a cwd
  end.

Definition _cd (h : Host) (args : list string) (cwd : string) : M Result :=
  let new := cd_target h args cwd in
  let! found := p_exists h new in
  if negb found then
    let! a := arg0 args in
    ret ("", "cd: " +:+ a +:+ ": No such file or directory" +:+ nl, Some cwd, 1%Z)
  else
    let! d := p_isdir h new in
    if negb d then
      let! a := arg0 args in
      ret ("", "cd: " +:+ a +:+ ": Not a directory" +:+ nl, Some cwd, 1%Z)
    else ret ("", "", Some new, 0%Z).

Fixpoint mkdir_loop (h : Host) (args : list string) (cwd : string) : M Result :=
  match args with
  | [] => ret ("", "", Some cwd, 0%Z)
  | a :: rest =>
      let p := _path_resolve a cwd in
      let! existed :=
        try_except (do! makedirs h false p in ret false)
          is_FileExistsError (fun _ => ret true) in
      if existed
      then ret ("", "mkdir: cannot create directory '" +:+ a
                    +:+ "': File exists" +:+ nl, Some cwd, 1%Z)
      else mkdir_loop h rest cwd
  end.

Definition _mkdir (h : Host) (args : list string) (cwd : string) : M Result :=
  match args with
  | [] => ret ("", "mkdir: missing operand" +:+ nl, Some cwd, 2%Z)
  | _ => mkdir_loop h args cwd
  end.

Definition is_rm_flag (a : string) : bool := mem_str a ["-r"; "-rf"; "-fr"].

Fixpoint rm_loop (h : Host) (recursive : bool) (paths : list string)
    (cwd : string) : M Result :=
  match paths with
  | [] => ret ("", "", Some cwd, 0%Z)
  | p :: rest =>
      let rp := _path_resolve p cwd in
      let! found := p_exists h rp in
      if negb found
      then ret ("", "rm: cannot remove '" +:+ p
                    +:+ "': No such file or directory" +:+ nl, Some cwd, 1%Z)
      else
        let! d := p_isdir h rp in
        if d && negb recursive
        then ret ("", "rm: cannot remove '" +:+ p +:+ "': Is a directory" +:+ nl,
                  Some cwd, 1%Z)
        else
          do! (if d then rmtree h rp else remove h rp) in
          rm_loop h recursive rest cwd
  end.

Definition _rm (h : Host) (args : list string) (cwd : string) : M Result :=
  match args with
  | [] => ret ("", "rm: missing operand" +:+ nl, Some cwd, 2%Z)
  | _ =>
      let recursive := existsb is_rm_flag args in
      let paths := List.filter (fun a => negb (is_rm_flag a)) args in
      match paths with
      | [] => ret ("", "rm: missing path" +:+ nl, Some cwd, 2%Z)
      | _ => rm_loop h recursive paths cwd
      end
  end.

Fixpoint rmdir_loop (h : Host) (args : list string) (cwd : string) : M Result :=
  match args with
  | [] => ret ("", "", Some cwd, 0%Z)
  | a :: rest =>
      let path := _path_resolve a cwd in
      let! found := p_exists h path in
      if negb found
      then ret ("", "rmdir: failed to remove '" +:+ a
                    +:+ "': No such file or directory" +:+ nl, Some cwd, 1%Z)
      else
        let! d := p_isdir h path in
        if negb d
        then ret ("", "rmdir: failed to remove '" +:+ a
                      +:+ "': Not a directory" +:+ nl, Some cwd, 1%Z)
        else
          let! failed :=
            try_except (do! rmdir h path in ret false)
              is_OSError (fun _ => ret true) in
          if failed
          then ret ("", "rmdir: failed to remove '" +:+ a
                        +:+ "': Directory not empty" +:+ nl, Some cwd, 1%Z)
          else rmdir_loop h rest cwd
  end.

Definition _rmdir (h : Host) (args : list string) (cwd : string) : M Result :=
  match args with
  | [] => ret ("", "rmdir: missing operand" +:+ nl, Some cwd, 2%Z)
  | _ => rmdir_loop h args cwd
  end.

(** The body of one redirection branch of [_echo]: the operator [op] is
    looked up, the words before it are the text, the word after it is the
    file. *)
Definition echo_redirect (h : Host) (op : string) (append : bool)
    (args : list string) (cwd : string) : M Result :=
  match index_of op args with
  | None => raise (ValueError ("'" +:+ op +:+ "' is not in list"))
  | Some idx =>
      let text := String.concat " " (take idx args) in
      match nth_error args (idx + 1) with
      | None => raise IndexError
      | Some a =>
          let filepath := _path_resolve a cwd in
          do! write_raw h append filepath (text +:+ nl) in
          ret ("", "", Some cwd, 0%Z)
      end
  end.

Definition echo_failed (cwd : string) (e : exn) : M Result :=
  ret ("", "echo: redirection error: " +:+ exn_msg e +:+ nl, Some cwd, 1%Z).

Definition _echo (h : Host) (args : list string) (cwd : string) : M Result :=
  if mem_str ">" args then
    try_except (echo_redirect h ">" false args cwd) any_Exception (echo_failed cwd)
  else if mem_str ">>" args then
    try_except (echo_redirect h ">>" true args cwd) any_Exception (echo_failed cwd)
  else ret (String.concat " " args +:+ nl, "", Some cwd, 0%Z).

Fixpoint cat_loop (h : Host) (args : list string) (cwd : string)
    (out_lines : list string) : M Result :=
  match args with
  | [] => ret (String.concat nl out_lines, "", Some cwd, 0%Z)
  | a :: rest =>
      let p := _path_resolve a cwd in
      let! found := p_exists h p in
      if negb found
      then ret ("", "cat: " +:+ a +:+ ": No such file or directory" +:+ nl,
                Some cwd, 1%Z)
      else
        let! d := p_isdir h p in
        if d
        then ret ("", "cat: " +:+ a +:+ ": Is a directory" +:+ nl, Some cwd, 1%Z)
        else
          let! text := read_text h p in
          cat_loop h rest cwd (out_lines ++ [text])
  end.

Definition _cat (h : Host) (args : list string) (cwd : string) : M Result :=
  match args with
  | [] => ret ("", "cat: missing file operand" +:+ nl, Some cwd, 2%Z)
  | _ => cat_loop h args cwd []
  end.

(** [_head] and [_tail] differ in their name and in the slice they keep. *)
Definition head_or_tail (h : Host) (name : string)
    (slice : list string -> list string) (args : list string) (cwd : string)
    : M Result :=
  match args with
  | [] => ret ("", name +:+ ": missing file operand" +:+ nl, Some cwd, 2%Z)
  | a :: _ =>
      let path := _path_resolve a cwd in
      let! found := p_exists h path in
      if negb found
      then ret ("", name +:+ ": " +:+ a +:+ ": No such file or directory" +:+ nl,
                Some cwd, 1%Z)
      else
        let! d := p_isdir h path in
        if d
        then ret ("", name +:+ ": " +:+ a +:+ ": Is a directory" +:+ nl,
                  Some cwd, 1%Z)
        else
          let! text := read_text h path in
          ret (String.concat "" (slice (split_lines text)), "", Some cwd, 0%Z)
  end.

Definition _head (h : Host) := head_or_tail h "head" (take 10).
Definition _tail (h : Host) :=
  head_or_tail h "tail" (fun lines => drop (length lines - 10) lines).

Fixpoint touch_loop (h : Host) (args : list string) (cwd : string) : M Result :=
  match args with
  | [] => ret ("", "", Some cwd, 0%Z)
  | a :: rest =>
      let p := _path_resolve a cwd in
      let dirp := dirname p in
      let! found := p_exists h dirp in
      do! (if negb (is_empty dirp) && negb found
           then do! makedirs h true dirp in ret tt
           else ret tt) in
      do! write_raw h true p "" in
      touch_loop h rest cwd
  end.

Definition _touch (h : Host) (args : list string) (cwd : string) : M Result :=
  match args with
  | [] => ret ("", "touch: missing file operand" +:+ nl, Some cwd, 2%Z)
  | _ => touch_loop h args cwd
  end.

Fixpoint mv_loop (h : Host) (srcs : list string) (dest cwd : string) : M Result :=
  match srcs with
  | [] => ret ("", "", Some cwd, 0%Z)
  | s :: rest =>
      let! found := p_exists h s in
      if negb found
      then ret ("", "mv: cannot stat '" +:+ s
                    +:+ "': No such file or directory" +:+ nl, Some cwd, 1%Z)
      else
        let! d := p_isdir h dest in
        do! (if d then move h s (join dest (basename s)) else move h s dest) in
        mv_loop h rest dest cwd
  end.

Definition _mv (h : Host) (args : list string) (cwd : string) : M Result :=
  if length args <? 2
  then ret ("", "mv: missing file operands" +:+ nl, Some cwd, 2%Z)
  else
    let srcs := map (fun a => _path_resolve a cwd) (removelast args) in
    let dest := _path_resolve (List.last args "") cwd in
    let! d := p_isdir h dest in
    if (1 <? length srcs) && negb d
    then ret ("", "mv: target is not a directory" +:+ nl, Some cwd, 1%Z)
    else
      try_except (mv_loop h srcs dest cwd) any_Exception
        (fun e => ret ("", "mv error: " +:+ exn_msg e +:+ nl, Some cwd, 1%Z)).

Fixpoint cp_loop (h : Host) (recursive : bool) (srcs : list string)
    (dest cwd : string) : M Result :=
  match srcs with
  | [] => ret ("", "", Some cwd, 0%Z)
  | s :: rest =>
      let! found := p_exists h s in
      if negb found
      then ret ("", "cp: cannot stat '" +:+ s
                    +:+ "': No such file or directory" +:+ nl, Some cwd, 1%Z)
      else
        let! sd := p_isdir h s in
        if sd then
          if negb recursive
          then ret ("", "cp: -r not specified; omitting directory '" +:+ s
                        +:+ "'" +:+ nl, Some cwd, 1%Z)
          else
            do! copytree h s (join dest (basename s)) in
            cp_loop h recursive rest dest cwd
        else
          let! dd := p_isdir h dest in
          do! (if dd then copy2 h s (join dest (basename s)) else copy2 h s dest) in
          cp_loop h recursive rest dest cwd
  end.

Definition _cp (h : Host) (args : list string) (cwd : string) : M Result :=
  if length args <? 2
  then ret ("", "cp: missing file operands" +:+ nl, Some cwd, 2%Z)
  else
    let recursive := existsb (fun a => String.eqb a "-r") args in
    let files := List.filter (fun a => negb (String.eqb a "-r")) args in
    if length files <? 2
    then ret ("", "cp: missing destination file operand after source" +:+ nl,
              Some cwd, 2%Z)
    else
      let srcs := map (fun a => _path_resolve a cwd) (removelast files) in
      let dest := _path_resolve (List.last files "") cwd in
      let! d := p_isdir h dest in
      if (1 <? length srcs) && negb d
      then ret ("", "cp: target is not a directory" +:+ nl, Some cwd, 1%Z)
      else
        try_except (cp_loop h recursive srcs dest cwd) any_Exception
          (fun e => ret ("", "cp error: " +:+ exn_msg e +:+ nl, Some cwd, 1%Z)).

Definition _cpu (h : Host) : M Result :=
  let! perc := lift (cpu_probe h) in
  ret ("CPU: " +:+ perc +:+ "%" +:+ nl, "", None, 0%Z).

Definition _mem (h : Host) : M Result :=
  let! m := lift (mem_probe h) in
  let '(used, total, percent) := m in
  ret ("Memory: " +:+ str_of_Z used +:+ "/" +:+ str_of_Z total +:+ " bytes ("
       +:+ percent +:+ "%)" +:+ nl, "", None, 0%Z).

Definition _ps (h : Host) (args : list string) : M Result :=
  let! procs := lift (ps_probe h) in
  let procs_sorted := take 200 (sorted_strs procs) in
  ret (String.concat nl procs_sorted +:+ nl, "", None, 0%Z).

Definition _help_text : string :=
  "Supported commands:" +:+ nl
  +:+ "  pwd, ls [-l] [path], cd <path>, mkdir <name>, rmdir <name>, rm [-r] <path>" +:+ nl
  +:+ "  cat <file>, touch <file>, mv <src> <dest>, cp [-r] <src> <dest>" +:+ nl
  +:+ "  echo [text] [> file] [>> file], head <file>, tail <file>" +:+ nl
  +:+ "  cpu, mem, ps, whoami, date, uptime" +:+ nl
  +:+ "  clear, help" +:+ nl.

Definition uptime_text (delta : Z) : string :=
  let hrs := (delta / 3600)%Z in
  let rem := (delta mod 3600)%Z in
  let mins := (rem / 60)%Z in
  let secs := (rem mod 60)%Z in
  "up " +:+ str_of_Z hrs +:+ "h " +:+ str_of_Z mins +:+ "m "
  +:+ str_of_Z secs +:+ "s" +:+ nl.

(** ** The dispatcher *)

(** The names the chain of comparisons in [run] knows. *)
Definition builtins : list string :=
  ["pwd"; "ls"; "cd"; "mkdir"; "rm"; "rmdir"; "cat"; "touch"; "mv"; "cp";
   "echo"; "cpu"; "mem"; "ps"; "whoami"; "date"; "uptime"; "head"; "tail";
   "clear"; "help"; "--help"; "-h"].

(** The body of the [try] block of [run]. *)
Definition dispatch (h : Host) (cmd : string) (args : list string)
    (cwd : string) : M Result :=
  if String.eqb cmd "pwd" then ret (cwd +:+ nl, "", Some cwd, 0%Z)
  else if String.eqb cmd "ls" then _ls h args cwd
  else if String.eqb cmd "cd" then _cd h args cwd
  else if String.eqb cmd "mkdir" then _mkdir h args cwd
  else if String.eqb cmd "rm" then _rm h args cwd
  else if String.eqb cmd "rmdir" then _rmdir h args cwd
  else if String.eqb cmd "cat" then _cat h args cwd
  else if String.eqb cmd "touch" then _touch h args cwd
  else if String.eqb cmd "mv" then _mv h args cwd
  else if String.eqb cmd "cp" then _cp h args cwd
  else if String.eqb cmd "echo" then _echo h args cwd
  else if String.eqb cmd "cpu" then _cpu h
  else if String.eqb cmd "mem" then _mem h
  else if String.eqb cmd "ps" then _ps h args
  else if String.eqb cmd "whoami"
  then ret (default "user" (env_user h) +:+ nl, "", Some cwd, 0%Z)
  else if String.eqb cmd "date" then ret (clock_text h +:+ nl, "", Some cwd, 0%Z)
  else if String.eqb cmd "uptime" then
    let! delta := lift (uptime_probe h) in
    ret (uptime_text delta, "", Some cwd, 0%Z)
  else if String.eqb cmd "head" then _head h args cwd
  else if String.eqb cmd "tail" then _tail h args cwd
  else if String.eqb cmd "clear" then ret ("__CLEAR__", "", Some cwd, 0%Z)
  else if mem_str cmd ["help"; "--help"; "-h"]
  then ret (_help_text, "", Some cwd, 0%Z)
  else ret ("", "Command not found: " +:+ cmd +:+ nl, Some cwd, 127%Z).

(** The answer of the catch-all [except Exception] of [run]. *)
Definition run_failed (cwd : string) (e : exn) : M Result :=
  ret ("", "Error: " +:+ exn_msg e +:+ nl, Some cwd, 1%Z).

(** [CommandExecutor.run]; an exception that leaves it is a [Raise]. *)
Definition run (h : Host) (raw_cmd : string) (cwd : option string) : M Result :=
  let! cwd :=
    match cwd with
    | None => do! makedirs h true "/tmp" in ret "/tmp"
    | Some c => ret c
    end in
  let raw_cmd := strip raw_cmd in
  if is_empty raw_cmd then ret ("", "", Some cwd, 0%Z)
  else
    match shlex_split raw_cmd with
    | inl e => ret ("", "parse error: " +:+ e, Some cwd, 2%Z)
    | inr parts =>
        match parts with
        | [] => raise IndexError
        | cmd :: args =>
            try_except (dispatch h cmd args cwd) any_Exception (run_failed cwd)
        end
    end.

(** ** Notions the statements use *)

(** A text that holds white space only. *)
Fixpoint all_space (s : string) : bool :=
  match s with
  | EmptyString => true
  | String c s' => is_space c && all_space s'
  end.

(** What an [echo] redirection does once its operator is the one in use: the
    words before it are written (or appended), the word after it names the
    file, and a failure of the write becomes the error answer. *)
Definition redirected (h : Host) (append : bool) (pre : list string)
    (tgt cwd : string) : M Result :=
  fun fs =>
    match write_raw h append (_path_resolve tgt cwd)
            (String.concat " " pre +:+ nl) fs with
    | Ret _ fs' => Ret ("", "", Some cwd, 0%Z) fs'
    | Raise e fs' =>
        Ret ("", "echo: redirection error: " +:+ exn_msg e +:+ nl, Some cwd, 1%Z) fs'
    end.

(** No regular file lies on the way to [p]: every directory [p] needs
    exists or can be created. *)
Fixpoint clear (t : node) (p : fspath) : bool :=
  match p with
  | [] => true
  | c :: p' =>
      match t with
      | Dir m => match m !! c with Some t' => clear t' p' | None => true end
      | File _ => false
      end
  end.

(** [p] can be opened for writing: the directories it goes through exist
    and [p] itself is not a directory. *)
Definition can_write (h : Host) (fs : node) (p : string) : bool :=
  match resolve h fs p with
  | inr q => negb (is_dir_node (get fs q))
  | inl _ => false
  end.

(** The two command lines of the echo and cat round trip. *)
Definition echo_hello : string := "echo " +:+ dq +:+ "hello" +:+ dq +:+ " > f.txt".
Definition cat_hello : string := "cat f.txt".

(** A token is being read: it has to come out, or the input is in error. *)
Definition pending (st : lex_state) (tok : string) (quoted : bool) : Prop :=
  match st with
  | LWhite | LWord => negb (is_empty tok) || quoted = true
  | LQuote _ | LEscape _ => True
  end.

(** An answer that reports a failure has nothing on stdout, a message on
    stderr and the working directory it was given. *)
Definition failure_shape (cwd : string) (r : Result) : Prop :=
  let '(out, err, c, code) := r in
  code <> 0%Z -> out = "" /\ err <> "" /\ c = Some cwd.

(** An answer that does not move the working directory: it gives it back,
    or gives [None]. *)
Definition cwd_kept (cwd : string) (r : Result) : Prop :=
  let '(_, _, c, _) := r in c = Some cwd \/ c = None.

(** A computation whose every answer has both properties. *)
Definition tame (cwd : string) (m : M Result) : Prop :=
  forall fs,
    match m fs with
    | Ret r _ => failure_shape cwd r /\ cwd_kept cwd r
    | Raise _ _ => True
    end.

(** A component a normal path may hold: not empty, not ".", no slash. *)
Definition okc (c : string) : bool :=
  negb (String.eqb c "") && negb (String.eqb c ".") && negb (mem_char "/" c).

(** The components normpath keeps, last one first: ".." only when the path
    is relative, and then only at its start. *)
Fixpoint good (ini : nat) (st : list string) : bool :=
  match st with
  | [] => true
  | c :: st' =>
      okc c
      && (if String.eqb c ".."
          then (ini =? 0) && forallb (fun d => String.eqb d "..") st'
          else good ini st')
  end.

(** What the dispatcher may answer: a tame answer, or the answer of a
    successful [cd] to a directory that exists. *)
Definition dispatch_answer (h : Host) (cmd : string) (args : list string)
    (cwd : string) (r : Result) (fs' : node) : Prop :=
  failure_shape cwd r
  /\ (cwd_kept cwd r
      \/ (cmd = "cd"
          /\ r = ("", "", Some (cd_target h args cwd), 0%Z)
          /\ path_isdir h fs' (cd_target h args cwd) = true)).

(** Two canonical paths part ways: at some depth they name different
    entries of the same directory. *)
Fixpoint diverge (p q : fspath) : Prop :=
  match p, q with
  | a :: p', b :: q' => if decide (a = b) then diverge p' q' else True
  | _, _ => False
  end.

(** The components the normal form of [p] is made of. *)
Definition path_names (p : string) : fspath :=
  norm_comps (initial_slashes p) (split_slash p).

(** An entry name: a component that is neither empty nor "." nor "..". *)
Definition plain (c : string) : bool := okc c && negb (String.eqb c "..").

(** The components that follow the leading slashes of an absolute normal
    path: its names, or one empty component for the root. *)
Definition tail_comps (nc : list string) : list string :=
  match nc with [] => [""] | _ => nc end.

(** ** Sample hosts and file systems *)

(** A host whose home directory is /home/u. *)
Definition host0 : Host :=
  {| proc_cwd := [];
     home_dir := "/home/u";
     env_user := Some "u";
     clock_text := "2024-01-01 00:00:00";
     uptime_probe := inr 3725%Z;
     cpu_probe := inr "1.5";
     mem_probe := inr (1024%Z, 4096%Z, "25.0");
     ps_probe := inr [];
     dir_size := 4096%Z;
     recursion_limit := 1000 |}.

(** The same host with a home directory that is spelled with a "." in it. *)
Definition host_dotted_home : Host :=
  {| proc_cwd := [];
     home_dir := "/home/./u";
     env_user := Some "u";
     clock_text := "2024-01-01 00:00:00";
     uptime_probe := inr 3725%Z;
     cpu_probe := inr "1.5";
     mem_probe := inr (1024%Z, 4096%Z, "25.0");
     ps_probe := inr [];
     dir_size := 4096%Z;
     recursion_limit := 1000 |}.

(** The tree /w/src/{a.txt, sub/b.txt}. *)
Definition src_entries : gmap string node :=
  <["a.txt" := File "A"]> (<["sub" := Dir (<["b.txt" := File "B"]> ∅)]> ∅).

(** /w holds the directory src and the regular file f; /home/u is empty. *)
Definition fs_work : node :=
  Dir (<["w" := Dir (<["src" := Dir src_entries]> (<["f" := File "data"]> ∅))]>
         (<["home" := Dir (<["u" := Dir ∅]> ∅)]> ∅)).

(** /w is empty and there is no /home. *)
Definition fs_bare : node := Dir (<["w" := Dir ∅]> ∅).

(** /w holds a directory named f.txt. *)
Definition fs_f_txt_dir : node := Dir (<["w" := Dir (<["f.txt" := Dir ∅]> ∅)]> ∅).

(** ** Further notions the statements use *)

(** The hours, minutes and seconds [uptime] prints. *)
Definition uptime_parts (delta : Z) : Z * Z * Z :=
  ((delta / 3600)%Z, ((delta mod 3600) / 60)%Z, ((delta mod 3600) mod 60)%Z).

(** A character the tokenizer reads as part of a word: no white space, no
    quote, no backslash. *)
Definition word_char (c : ascii) : bool :=
  negb (is_lex_space c) && negb (is_quote c) && negb (is_escape c).

Fixpoint all_chars (P : ascii -> bool) (s : string) : bool :=
  match s with
  | EmptyString => true
  | String c s' => P c && all_chars P s'
  end.

(** The commands that cannot do without an operand. *)
Definition operand_commands : list string :=
  ["mkdir"; "rm"; "rmdir"; "cat"; "touch"; "mv"; "cp"; "head"; "tail"].

(** The number of newline characters of a text. *)
Fixpoint count_nl (s : string) : nat :=
  match s with
  | EmptyString => 0
  | String c s' => (if Ascii.eqb c (ascii_of_nat 10) then 1 else 0) + count_nl s'
  end.

(** A line that ends with its only newline. *)
Definition full_line (l : string) : Prop :=
  exists b, l = b +:+ nl /\ count_nl b = 0.

(** The shape of what [readlines] returns: every line but the last is a
    full line; the last one is not empty and may lack the newline. *)
Fixpoint lines_ok (ls : list string) : Prop :=
  match ls with
  | [] => True
  | l :: ls' =>
      match ls' with
      | [] => l <> "" /\ (count_nl l = 0 \/ full_line l)
      | _ => full_line l /\ lines_ok ls'
      end
  end.

(** A computation every answer of which names a working directory. *)
Definition placed (m : M Result) : Prop :=
  forall fs,
    match m fs with
    | Ret (_, _, c, _) _ => c <> None
    | Raise _ _ => True
    end.

(** The commands that look at the host, not at the file system. *)
Definition monitors : list string := ["cpu"; "mem"; "ps"].

(** The exceptions the handlers catch themselves.  [caught h cwd fs cmd
    args e fs2 msg]: with [args] and the file system [fs], the handler of
    [cmd] comes to a [try] block of its own, the block raises [e] leaving
    the file system [fs2], the [except] clause of the block takes [e], and
    [msg] is the line that clause puts on stderr.
    - [_mkdir], [_rmdir]: the operands before the failing one have been
      served; the block is the one call, of [os.makedirs] or [os.rmdir].
    - [_echo]: the block is the whole redirection branch, for ">" and
      for ">>".
    - [_mv], [_cp]: the block is the whole loop over the sources. *)
Inductive caught (h : Host) (cwd : string) (fs : node)
  : string -> list string -> exn -> node -> string -> Prop :=
| caught_mkdir done a rest fs1 e fs2 :
    mkdir_loop h done cwd fs = Ret ("", "", Some cwd, 0%Z) fs1 ->
    makedirs h false (_path_resolve a cwd) fs1 = Raise e fs2 ->
    is_FileExistsError e = true ->
    caught h cwd fs "mkdir" (done ++ a :: rest) e fs2
      ("mkdir: cannot create directory '" +:+ a +:+ "': File exists" +:+ nl)
| caught_rmdir done a rest fs1 e fs2 :
    rmdir_loop h done cwd fs = Ret ("", "", Some cwd, 0%Z) fs1 ->
    path_isdir h fs1 (_path_resolve a cwd) = true ->
    rmdir h (_path_resolve a cwd) fs1 = Raise e fs2 ->
    is_OSError e = true ->
    caught h cwd fs "rmdir" (done ++ a :: rest) e fs2
      ("rmdir: failed to remove '" +:+ a +:+ "': Directory not empty" +:+ nl)
| caught_echo_write args e fs2 :
    mem_str ">" args = true ->
    echo_redirect h ">" false args cwd fs = Raise e fs2 ->
    caught h cwd fs "echo" args e fs2
      ("echo: redirection error: " +:+ exn_msg e +:+ nl)
| caught_echo_append args e fs2 :
    mem_str ">" args = false -> mem_str ">>" args = true ->
    echo_redirect h ">>" true args cwd fs = Raise e fs2 ->
    caught h cwd fs "echo" args e fs2
      ("echo: redirection error: " +:+ exn_msg e +:+ nl)
| caught_mv args e fs2 :
    mv_loop h (map (fun a => _path_resolve a cwd) (removelast args))
      (_path_resolve (List.last args "") cwd) cwd fs = Raise e fs2 ->
    2 <= length args ->
    (length args = 2
     \/ path_isdir h fs (_path_resolve (List.last args "") cwd) = true) ->
    caught h cwd fs "mv" args e fs2 ("mv error: " +:+ exn_msg e +:+ nl)
| caught_cp args e fs2 :
    let files := List.filter (fun a => negb (String.eqb a "-r")) args in
    cp_loop h (existsb (fun a => String.eqb a "-r") args)
      (map (fun a => _path_resolve a cwd) (removelast files))
      (_path_resolve (List.last files "") cwd) cwd fs = Raise e fs2 ->
    2 <= length files ->
    (length files = 2
     \/ path_isdir h fs (_path_resolve (List.last files "") cwd) = true) ->
    caught h cwd fs "cp" args e fs2 ("cp error: " +:+ exn_msg e +:+ nl).

(** A text of twelve lines, and /w holding it as the regular file long. *)
Definition twelve_lines : string :=
  String.concat ""
    (map (fun n => n +:+ nl)
       ["l1"; "l2"; "l3"; "l4"; "l5"; "l6"; "l7"; "l8"; "l9"; "l10"; "l11"; "l12"]).

Definition fs_lines : node :=
  Dir (<["w" := Dir (<["long" := File twelve_lines]> ∅)]> ∅).

(** * Properties *)

#[local] Arguments String.append : simpl nomatch.

(** ** The monad and the dispatcher's frame *)

Lemma bind_Ret {A B} (m : M A) (k : A -> M B) fs a fs' :
  m fs = Ret a fs' -> bind m k fs = k a fs'.
Proof. intros E. unfold bind. now rewrite E. Qed.

Lemma bind_Raise {A B} (m : M A) (k : A -> M B) fs e fs' :
  m fs = Raise e fs' -> bind m k fs = Raise e fs'.
Proof. intros E. unfold bind. now rewrite E. Qed.

Lemma shlex_split_empty : shlex_split "" = inr [].
Proof. reflexivity. Qed.

Lemma run_tokens h raw cwd fs cmd args :
  shlex_split (strip raw) = inr (cmd :: args) ->
  run h raw (Some cwd) fs
  = try_except (dispatch h cmd args cwd) any_Exception (run_failed cwd) fs.
Proof.
  intros E. unfold run, bind, ret.
  destruct (strip raw) eqn:Es.
  - rewrite shlex_split_empty in E. discriminate.
  - simpl is_empty. cbv iota. rewrite E. reflexivity.
Qed.

(** ** Blank input *)

Lemma lstrip_all_space s : all_space s = true -> lstrip s = "".
Proof.
  induction s as [|c s IH]; simpl; [reflexivity|].
  intros [Hc Hs]%andb_prop. rewrite Hc. auto.
Qed.

Lemma strip_all_space s : all_space s = true -> strip s = "".
Proof. intros H. unfold strip. now rewrite lstrip_all_space. Qed.

Lemma rstrip_keeps_head c s :
  is_space c = false -> exists r, rstrip (String c s) = String c r.
Proof.
  intros Hc. simpl. destruct (rstrip s); rewrite ?Hc; eauto.
Qed.

Lemma lstrip_head s :
  lstrip s = "" \/ exists c r, lstrip s = String c r /\ is_space c = false.
Proof.
  induction s as [|c s IH]; simpl; [now left|].
  destruct (is_space c) eqn:Hc; [exact IH|]. right. eauto.
Qed.

(** What is left of a line after [strip] is empty or starts with a
    character that is not white space. *)
Lemma strip_head s :
  strip s = "" \/ exists c r, strip s = String c r /\ is_space c = false.
Proof.
  unfold strip. destruct (lstrip_head s) as [->|(c & r & -> & Hc)]; [now left|].
  right. destruct (rstrip_keeps_head c r Hc) as [r' ->]. eauto.
Qed.

(** C9: a raw line that is empty or holds white space only is answered
    with ("", "", cwd, 0); the file system is left as it is and no handler
    runs, whatever the host. *)
Theorem run_blank_line (h : Host) (raw cwd : string) (fs : node) :
  all_space raw = true ->
  run h raw (Some cwd) fs = Ret ("", "", Some cwd, 0%Z) fs.
Proof.
  intros H. unfold run, bind, ret. now rewrite (strip_all_space _ H).
Qed.

(** ** Unknown commands *)

Lemma dispatch_unknown h cmd args cwd :
  ~ In cmd builtins ->
  dispatch h cmd args cwd
  = ret ("", "Command not found: " +:+ cmd +:+ nl, Some cwd, 127%Z).
Proof.
  intros H. unfold dispatch, mem_str. cbn [existsb].
  repeat match goal with
  | |- context [String.eqb cmd ?s] =>
      destruct (String.eqb_spec cmd s) as [->|_];
      [exfalso; apply H; unfold builtins; cbn [In];
       repeat first [left; reflexivity | right] |]
  end.
  reflexivity.
Qed.

(** C8: when the first token is none of the built-in names, the answer is
    empty stdout, "Command not found: <name>\n" on stderr, the working
    directory as given and exit code 127; nothing is changed. *)
Theorem run_unknown_command (h : Host) (raw cwd cmd : string)
    (args : list string) (fs : node) :
  shlex_split (strip raw) = inr (cmd :: args) ->
  ~ In cmd builtins ->
  run h raw (Some cwd) fs
  = Ret ("", "Command not found: " +:+ cmd +:+ nl, Some cwd, 127%Z) fs.
Proof.
  intros Htok Hcmd. rewrite (run_tokens _ _ _ _ _ _ Htok).
  unfold try_except. now rewrite dispatch_unknown.
Qed.

(** ** The path resolver *)

(** C3: an absolute path resolves to its normal form, whatever the working
    directory; a relative path resolves to the normal form of its join
    with the working directory.  [_path_resolve] is a total function of
    its two arguments alone. *)
Theorem path_resolve_cases (p cwd : string) :
  (isabs p = true ->
   _path_resolve p cwd = normpath p
   /\ forall cwd', _path_resolve p cwd' = _path_resolve p cwd)
  /\ (isabs p = false -> _path_resolve p cwd = normpath (join cwd p)).
Proof.
  unfold _path_resolve. split; intros ->; [split|]; reflexivity.
Qed.

Lemma path_resolve_cases_witness :
  _path_resolve "/a/../b" "/x" = normpath "/a/../b"
  /\ _path_resolve "c/./d" "/x/y" = normpath (join "/x/y" "c/./d").
Proof.
  split.
  - apply (proj1 (path_resolve_cases "/a/../b" "/x")). reflexivity.
  - apply (proj2 (path_resolve_cases "c/./d" "/x/y")). reflexivity.
Defined.

(** ** Substrings *)

Lemma prefix_app s t : String.prefix s (s +:+ t) = true.
Proof.
  induction s as [|c s IH]; simpl; [now destruct t|].
  destruct (ascii_dec c c); [exact IH | congruence].
Qed.

Lemma contains_unfold sub s :
  contains sub s
  = String.prefix sub s
    || match s with EmptyString => false | String _ s' => contains sub s' end.
Proof. destruct s; reflexivity. Qed.

Lemma contains_here sub t : contains sub (sub +:+ t) = true.
Proof. rewrite contains_unfold, prefix_app. reflexivity. Qed.

Lemma contains_app_r sub a s : contains sub s = true -> contains sub (a +:+ s) = true.
Proof.
  intros H. induction a as [|c a IH]; [exact H|].
  rewrite contains_unfold. simpl. rewrite IH. apply orb_true_r.
Qed.

Lemma contains_mid sub a b : contains sub (a +:+ sub +:+ b) = true.
Proof. apply contains_app_r, contains_here. Qed.

(** ** ls on a missing target *)

Lemma dispatch_ls h args cwd : dispatch h "ls" args cwd = _ls h args cwd.
Proof. reflexivity. Qed.

(** C7: when the target [ls] settles on does not exist, the answer is empty
    stdout, a stderr line that says "No such file or directory", the
    working directory as given and exit code 2 (not 1); nothing is
    changed. *)
Theorem ls_missing_target (h : Host) (raw cwd : string) (args : list string)
    (fs : node) :
  shlex_split (strip raw) = inr ("ls" :: args) ->
  path_exists h fs (fst (ls_target args cwd)) = false ->
  let err := "ls: cannot access '" +:+ fst (ls_target args cwd)
             +:+ "': No such file or directory" +:+ nl in
  run h raw (Some cwd) fs = Ret ("", err, Some cwd, 2%Z) fs
  /\ contains "No such file or directory" err = true.
Proof.
  intros Htok Hmiss err. split.
  - rewrite (run_tokens _ _ _ _ _ _ Htok), dispatch_ls.
    unfold try_except, _ls. destruct (ls_target args cwd) as [target long].
    simpl in Hmiss. unfold bind, p_exists, read_fs. rewrite Hmiss. reflexivity.
  - unfold err. do 2 apply contains_app_r.
    apply (contains_app_r _ "': ").
    exact (contains_here "No such file or directory" nl).
Qed.

(** ** mv of several sources onto something that is no directory *)

Lemma dispatch_mv h args cwd : dispatch h "mv" args cwd = _mv h args cwd.
Proof. reflexivity. Qed.

(** C5: [mv] with two or more sources and a destination that is not an
    existing directory answers with the stderr line "mv: target is not a
    directory", exit code 1 and the working directory as given; the file
    system is left as it was, so nothing has been moved. *)
Theorem mv_many_to_non_directory (h : Host) (raw cwd : string)
    (args : list string) (fs : node) :
  shlex_split (strip raw) = inr ("mv" :: args) ->
  3 <= length args ->
  path_isdir h fs (_path_resolve (List.last args "") cwd) = false ->
  run h raw (Some cwd) fs
  = Ret ("", "mv: target is not a directory" +:+ nl, Some cwd, 1%Z) fs
  /\ contains "target is not a directory"
       ("mv: target is not a directory" +:+ nl) = true.
Proof.
  intros Htok Hlen Hdest. split; [|reflexivity].
  rewrite (run_tokens _ _ _ _ _ _ Htok), dispatch_mv.
  destruct args as [|a [|b [|c rest]]]; simpl in Hlen; try lia.
  unfold try_except, _mv.
  change (length (a :: b :: c :: rest) <? 2) with false. cbv iota.
  unfold bind, p_isdir, read_fs. rewrite Hdest. reflexivity.
Qed.

(** ** echo and its redirections *)

Lemma mem_str_app x l1 l2 : mem_str x (l1 ++ l2) = mem_str x l1 || mem_str x l2.
Proof. unfold mem_str. apply existsb_app. Qed.

Lemma mem_str_here x l : mem_str x (x :: l) = true.
Proof. unfold mem_str. simpl. now rewrite String.eqb_refl. Qed.

Lemma index_of_first x pre rest :
  mem_str x pre = false -> index_of x (pre ++ x :: rest) = Some (length pre).
Proof.
  induction pre as [|y pre IH]; simpl.
  - now rewrite String.eqb_refl.
  - unfold mem_str. simpl. intros [Hy Hpre]%orb_false_elim.
    rewrite String.eqb_sym, Hy. unfold mem_str in IH. now rewrite IH.
Qed.

Lemma echo_redirect_target h op append pre tgt post cwd fs :
  mem_str op pre = false ->
  try_except (echo_redirect h op append (pre ++ op :: tgt :: post) cwd)
    any_Exception (echo_failed cwd) fs
  = redirected h append pre tgt cwd fs.
Proof.
  intros Hpre. unfold try_except, echo_redirect, redirected.
  rewrite (index_of_first _ _ _ Hpre).
  rewrite take_app_length.
  replace (nth_error (pre ++ op :: tgt :: post) (length pre + 1)) with (Some tgt).
  2:{ rewrite nth_error_app2 by lia.
      replace (length pre + 1 - length pre) with 1 by lia. reflexivity. }
  unfold bind. destruct (write_raw _ _ _ _ fs); reflexivity.
Qed.

Lemma echo_redirect_dangling h op append pre cwd fs :
  mem_str op pre = false ->
  try_except (echo_redirect h op append (pre ++ [op]) cwd)
    any_Exception (echo_failed cwd) fs
  = Ret ("", "echo: redirection error: list index out of range" +:+ nl,
         Some cwd, 1%Z) fs.
Proof.
  intros Hpre. unfold try_except, echo_redirect.
  rewrite (index_of_first _ _ _ Hpre).
  replace (nth_error (pre ++ [op]) (length pre + 1)) with (@None string).
  2:{ symmetry. apply nth_error_None. rewrite length_app. simpl. lia. }
  reflexivity.
Qed.


(** ** The tree: reading after writing *)

Lemma get_app t p q :
  get t (p ++ q) = match get t p with Some t' => get t' q | None => None end.
Proof.
  revert t. induction p as [|c p IH]; intros t; simpl; [reflexivity|].
  destruct t as [|m]; [reflexivity|]. destruct (m !! c); auto.
Qed.

Lemma get_parent_dir t p c x :
  get t (p ++ [c]) = Some x -> is_dir_node (get t p) = true.
Proof.
  rewrite get_app. destruct (get t p) as [[|m]|]; simpl; congruence.
Qed.

Lemma removelast_snoc {A} (l : list A) x : removelast (l ++ [x]) = l.
Proof. apply removelast_last. Qed.

Lemma get_removelast_dir t p x :
  get t p = Some x -> is_dir_node (get t p) = true ->
  is_dir_node (get t (removelast p)) = true.
Proof.
  intros Hx Hd. induction p as [|c p' _] using rev_ind; [exact Hd|].
  rewrite removelast_snoc. eapply get_parent_dir; eauto.
Qed.

Lemma clear_parent t p c : is_dir_node (get t p) = true -> clear t (p ++ [c]) = true.
Proof.
  revert t. induction p as [|a p IH]; intros t; simpl.
  - destruct t as [|m]; [discriminate|]. intros _. now destruct (m !! c).
  - destruct t as [|m]; [discriminate|]. destruct (m !! a); [apply IH | discriminate].
Qed.

Lemma get_put_same t p v : clear t p = true -> get (put t p v) p = Some v.
Proof.
  revert t. induction p as [|c p IH]; intros t; simpl; [reflexivity|].
  destruct t as [|m]; [discriminate|]. rewrite lookup_insert_eq.
  destruct (m !! c) as [t'|]; simpl; intros H; apply IH; [exact H|].
  now destruct p.
Qed.

(** Installing a regular file where no directory was keeps every
    directory a directory and makes no new one. *)
Lemma put_file_dirs t p c d :
  is_dir_node (get t p) = true ->
  is_dir_node (get t (p ++ [c])) = false ->
  forall r, is_dir_node (get (put t (p ++ [c]) (File d)) r) = is_dir_node (get t r).
Proof.
  revert t. induction p as [|a p IH]; intros t Hp Hq r.
  - destruct t as [|m]; [discriminate|]. simpl in *.
    destruct r as [|c' r]; [reflexivity|]. simpl.
    destruct (decide (c' = c)) as [->|Hne].
    + rewrite lookup_insert_eq.
      destruct r; simpl; destruct (m !! c) as [[|m']|]; simpl in *; congruence.
    + now rewrite lookup_insert_ne.
  - destruct t as [|m]; [discriminate|]. simpl in Hp, Hq.
    change ((a :: p) ++ [c]) with (a :: (p ++ [c])). simpl.
    destruct (m !! a) as [t'|] eqn:Ea; [|discriminate]. simpl.
    destruct r as [|c' r]; [reflexivity|]. simpl.
    destruct (decide (c' = a)) as [->|Hne].
    + rewrite lookup_insert_eq, Ea. now apply IH.
    + now rewrite lookup_insert_ne.
Qed.

Lemma walk_put_file fs p c d cur comps q :
  is_dir_node (get fs p) = true ->
  is_dir_node (get fs (p ++ [c])) = false ->
  walk fs cur comps = inr q ->
  walk (put fs (p ++ [c]) (File d)) cur comps = inr q.
Proof.
  intros Hp Hq. revert cur. induction comps as [|x comps IH]; intros cur; simpl; [auto|].
  pose proof (put_file_dirs fs p c d Hp Hq cur) as Hd.
  destruct (get fs cur) as [[|m]|]; try discriminate.
  destruct (get (put fs (p ++ [c]) (File d)) cur) as [[|m']|]; try discriminate.
  destruct (_ || _); [apply IH|]. destruct (String.eqb x ".."); apply IH.
Qed.

(** Where a path that is not a directory resolves to. *)
Lemma walk_target fs cur comps q :
  comps <> [] ->
  walk fs cur comps = inr q ->
  is_dir_node (get fs q) = false ->
  exists p c, q = p ++ [c] /\ is_dir_node (get fs p) = true.
Proof.
  revert cur. induction comps as [|x comps IH]; intros cur Hne Hw Hq; [congruence|].
  simpl in Hw. destruct (get fs cur) as [[|m]|] eqn:Ecur; try discriminate.
  destruct comps as [|y comps].
  - destruct (_ || _).
    + simpl in Hw. injection Hw as <-. rewrite Ecur in Hq. discriminate.
    + destruct (String.eqb x ".."); simpl in Hw; injection Hw as <-.
      * rewrite (get_removelast_dir fs cur (Dir m)) in Hq by (rewrite ?Ecur; auto).
        discriminate.
      * exists cur, x. rewrite Ecur. auto.
  - destruct (_ || _); [eapply IH; eauto; congruence|].
    destruct (String.eqb x ".."); eapply IH; eauto; congruence.
Qed.

Lemma split_slash_nonempty p : split_slash p <> [].
Proof.
  induction p as [|c p IH]; simpl; [discriminate|].
  destruct (Ascii.eqb c "/"); [discriminate|]. destruct (split_slash p); discriminate.
Qed.

(** Writing to a path that can be written succeeds, and the path then
    names a regular file with the text written; in append mode the text
    follows what the file held. *)
Lemma write_then_stat h fs p data append :
  can_write h fs p = true ->
  exists fs' old,
    write_raw h append p data fs = Ret tt fs'
    /\ stat h fs' p = Some (File (if append then old +:+ data else data))
    /\ (stat h fs p = None -> old = "")
    /\ (forall o, stat h fs p = Some (File o) -> old = o).
Proof.
  unfold can_write, write_raw, stat, resolve.
  destruct (is_empty p); [discriminate|]. destruct (has_nul p); [discriminate|].
  destruct (walk fs (start_of h p) (split_slash p)) as [k|q] eqn:Ew; [discriminate|].
  intros Hq%negb_true_iff.
  destruct (walk_target _ _ _ _ (split_slash_nonempty p) Ew Hq) as (p0 & c & -> & Hp0).
  assert (Hclear := clear_parent fs p0 c Hp0).
  assert (Hkeep := fun d => walk_put_file fs p0 c d _ _ _ Hp0 Hq Ew).
  destruct (get fs (p0 ++ [c])) as [[old|m]|] eqn:Eq; [| discriminate |].
  - exists (put fs (p0 ++ [c]) (File (if append then old +:+ data else data))), old.
    rewrite Hkeep.
    rewrite get_put_same by assumption.
    repeat split; congruence.
  - exists (put fs (p0 ++ [c]) (File data)), "".
    rewrite Hkeep.
    rewrite get_put_same by assumption.
    repeat split; try congruence. now destruct append.
Qed.

Lemma read_text_file h fs p d :
  stat h fs p = Some (File d) -> read_text h p fs = Ret (universal_newlines d) fs.
Proof.
  unfold stat, read_text, read_raw, bind, ret.
  destruct (resolve h fs p); [discriminate|]. now intros ->.
Qed.

Lemma p_exists_file h fs p d :
  stat h fs p = Some (File d) -> p_exists h p fs = Ret true fs.
Proof. unfold p_exists, read_fs, path_exists. now intros ->. Qed.

Lemma p_isdir_file h fs p d :
  stat h fs p = Some (File d) -> p_isdir h p fs = Ret false fs.
Proof. unfold p_isdir, read_fs, path_isdir. now intros ->. Qed.

(** Once the write of a redirection succeeds, the answer is the success
    answer. *)
Lemma redirected_written h append pre tgt cwd fs fs' :
  write_raw h append (_path_resolve tgt cwd) (String.concat " " pre +:+ nl) fs
  = Ret tt fs' ->
  redirected h append pre tgt cwd fs = Ret ("", "", Some cwd, 0%Z) fs'.
Proof. intros E. unfold redirected. now rewrite E. Qed.

(** C10: [_echo] redirects at the first ">" of its arguments, and looks for
    ">>" only when there is no ">" at all.  The words before the operator
    are the text, the one word after it is the file, and the words after
    that change nothing: when the file can be written the answer is exit
    code 0 and the file holds the text and a newline (after what it held,
    for ">>").  When the operator in use is the last word, the answer is
    exit code 1 with an "echo: redirection error" line, and the file
    system is left as it was. *)
Theorem echo_redirection (h : Host) (pre post : list string)
    (tgt cwd : string) (fs : node) :
  let text := String.concat " " pre +:+ nl in
  let file := _path_resolve tgt cwd in
  (mem_str ">" pre = false ->
   _echo h (pre ++ ">" :: tgt :: post) cwd fs = redirected h false pre tgt cwd fs
   /\ (can_write h fs file = true ->
       exists fs',
         _echo h (pre ++ ">" :: tgt :: post) cwd fs = Ret ("", "", Some cwd, 0%Z) fs'
         /\ stat h fs' file = Some (File text))
   /\ _echo h (pre ++ [">"]) cwd fs
      = Ret ("", "echo: redirection error: list index out of range" +:+ nl,
             Some cwd, 1%Z) fs)
  /\ (mem_str ">" pre = false -> mem_str ">>" pre = false ->
      mem_str ">" post = false ->
      tgt <> ">" ->
      _echo h (pre ++ ">>" :: tgt :: post) cwd fs = redirected h true pre tgt cwd fs
      /\ (can_write h fs file = true ->
          exists fs' old,
            _echo h (pre ++ ">>" :: tgt :: post) cwd fs
            = Ret ("", "", Some cwd, 0%Z) fs'
            /\ stat h fs' file = Some (File (old +:+ text))
            /\ (stat h fs file = None -> old = "")
            /\ (forall o, stat h fs file = Some (File o) -> old = o))
      /\ _echo h (pre ++ [">>"]) cwd fs
         = Ret ("", "echo: redirection error: list index out of range" +:+ nl,
                Some cwd, 1%Z) fs).
Proof.
  intros text file. split.
  - intros Hpre.
    assert (E : _echo h (pre ++ ">" :: tgt :: post) cwd fs
                = redirected h false pre tgt cwd fs).
    { unfold _echo. rewrite !mem_str_app, !mem_str_here, !orb_true_r.
      now apply echo_redirect_target. }
    split; [exact E|]. split.
    + intros Hw.
      destruct (write_then_stat h fs file text false Hw) as (fs' & old & Ew & Es & _).
      exists fs'. split; [|exact Es]. rewrite E. now apply redirected_written.
    + unfold _echo. rewrite !mem_str_app, !mem_str_here, !orb_true_r.
      now apply echo_redirect_dangling.
  - intros Hgt Hpre Hpost Htgt.
    assert (Hno : mem_str ">" (">>" :: tgt :: post) = false).
    { unfold mem_str in *. cbn [existsb]. rewrite Hpost.
      apply String.eqb_neq in Htgt.
      rewrite (String.eqb_sym ">" tgt), Htgt. reflexivity. }
    assert (E : _echo h (pre ++ ">>" :: tgt :: post) cwd fs
                = redirected h true pre tgt cwd fs).
    { unfold _echo. rewrite !mem_str_app, Hgt, Hpre, Hno, !mem_str_here. simpl.
      now apply echo_redirect_target. }
    split; [exact E|]. split.
    + intros Hw.
      destruct (write_then_stat h fs file text true Hw)
        as (fs' & old & Ew & Es & Hnone & Hsome).
      exists fs', old. split; [|auto]. rewrite E. now apply redirected_written.
    + unfold _echo. rewrite !mem_str_app, Hgt, Hpre, !mem_str_here. simpl.
      now apply echo_redirect_dangling.
Qed.

(** ** echo to a file, then cat *)

Lemma tokens_echo_hello :
  shlex_split (strip echo_hello) = inr ["echo"; "hello"; ">"; "f.txt"].
Proof. reflexivity. Qed.

Lemma tokens_cat_hello : shlex_split (strip cat_hello) = inr ["cat"; "f.txt"].
Proof. reflexivity. Qed.

(** C6 (as amended): when f.txt can be opened for writing in the working
    directory, [echo "hello" > f.txt] answers with exit code 0, and
    [cat f.txt] run next with the same working directory answers with
    stdout "hello\n" and exit code 0. *)
Theorem echo_then_cat (h : Host) (cwd : string) (fs : node) :
  can_write h fs (_path_resolve "f.txt" cwd) = true ->
  exists fs1,
    run h echo_hello (Some cwd) fs = Ret ("", "", Some cwd, 0%Z) fs1
    /\ run h cat_hello (Some cwd) fs1 = Ret ("hello" +:+ nl, "", Some cwd, 0%Z) fs1.
Proof.
  intros Hw.
  destruct (write_then_stat h fs _ ("hello" +:+ nl) false Hw) as (fs1 & old & Ewrite & Estat & _).
  exists fs1. split.
  - rewrite (run_tokens _ _ _ _ _ _ tokens_echo_hello).
    change (dispatch h "echo" ["hello"; ">"; "f.txt"] cwd)
      with (try_except (echo_redirect h ">" false (["hello"] ++ ">" :: "f.txt" :: []) cwd)
              any_Exception (echo_failed cwd)).
    unfold try_except at 1.
    rewrite (echo_redirect_target h ">" false ["hello"] "f.txt" [] cwd fs eq_refl).
    unfold redirected. simpl String.concat. now rewrite Ewrite.
  - rewrite (run_tokens _ _ _ _ _ _ tokens_cat_hello).
    change (dispatch h "cat" ["f.txt"] cwd) with (cat_loop h ["f.txt"] cwd []).
    unfold try_except, cat_loop.
    rewrite (bind_Ret _ _ _ _ _ (p_exists_file _ _ _ _ Estat)). cbn [negb].
    rewrite (bind_Ret _ _ _ _ _ (p_isdir_file _ _ _ _ Estat)).
    rewrite (bind_Ret _ _ _ _ _ (read_text_file _ _ _ _ Estat)). reflexivity.
Qed.

(** ** The tokenizer yields a first token *)

Lemma lex_space_is_space c : is_space c = false -> is_lex_space c = false.
Proof.
  destruct c as [[] [] [] [] [] [] [] []]; vm_compute; congruence.
Qed.

Lemma snoc_char_nonempty tok c : is_empty (snoc_char tok c) = false.
Proof. destruct tok; reflexivity. Qed.

Ltac lex_leaf IH :=
  match goal with
  | |- match lex ?a ?b ?c ?d ?e with _ => _ end =>
      let H := fresh in
      pose proof (IH a b c e) as H; destruct (lex a b c d e);
      simpl in *; auto; try lia
  end.

Lemma lex_grows s st tok quoted out :
  match lex st tok quoted s out with
  | inr l => length out <= length l
  | inl _ => True
  end.
Proof.
  revert st tok quoted out. induction s as [|c s IH]; intros st tok quoted out; simpl.
  - destruct st; try exact I; destruct (_ || _); rewrite length_rev; simpl; lia.
  - destruct st as [| |q|[q|]];
      repeat match goal with
             | |- context [if ?b then _ else _] => destruct b
             end; lex_leaf IH.
Qed.

Lemma lex_pending s st tok quoted out :
  pending st tok quoted ->
  match lex st tok quoted s out with
  | inr l => length out < length l
  | inl _ => True
  end.
Proof.
  revert st tok quoted out. induction s as [|c s IH]; intros st tok quoted out Hp; simpl.
  - destruct st; try exact I; simpl in Hp; rewrite Hp, length_rev; simpl; lia.
  - destruct st as [| |q|[q|]]; simpl in Hp; rewrite ?Hp;
      repeat match goal with
             | |- context [if ?b then _ else _] => destruct b
             end;
      first
        [ match goal with
          | |- match lex LWhite EmptyString false ?d (?t :: ?o) with _ => _ end =>
              let H := fresh in
              pose proof (lex_grows d LWhite EmptyString false (t :: o)) as H;
              destruct (lex LWhite EmptyString false d (t :: o)); simpl in *; auto; lia
          end
        | match goal with
          | |- match lex ?a ?b ?c ?d ?e with _ => _ end =>
              apply IH; simpl; rewrite ?snoc_char_nonempty, ?orb_true_r; auto
          end ].
Qed.

(** On a line that starts with something else than white space,
    [shlex.split] fails or yields a first token. *)
Lemma shlex_split_first c r :
  is_space c = false ->
  match shlex_split (String c r) with
  | inr [] => False
  | _ => True
  end.
Proof.
  intros Hc. unfold shlex_split. simpl. rewrite (lex_space_is_space c Hc).
  repeat match goal with
         | |- context [if ?b then _ else _] => destruct b
         end;
    match goal with
    | |- match lex ?a ?b ?c ?d ?e with _ => _ end =>
        let H := fresh in
        assert (H : pending a b c) by (simpl; auto);
        apply (lex_pending d a b c e) in H;
        destruct (lex a b c d e) as [|[|]]; simpl in *; auto; lia
    end.
Qed.

(** ** Every handler but cd answers with the working directory it was given *)

Lemma tame_ret_out cwd out : tame cwd (ret (out, "", Some cwd, 0%Z)).
Proof. intros fs. simpl. split; [intros H; now contradict H | now left]. Qed.

Lemma tame_ret_none cwd out : tame cwd (ret (out, "", None, 0%Z)).
Proof. intros fs. simpl. split; [intros H; now contradict H | now right]. Qed.

Lemma tame_ret_err cwd err code : err <> "" -> tame cwd (ret ("", err, Some cwd, code)).
Proof. intros H fs. simpl. split; [auto | now left]. Qed.

Lemma tame_raise cwd e : tame cwd (raise e).
Proof. intros fs. exact I. Qed.

Lemma tame_bind {A} cwd (m : M A) (k : A -> M Result) :
  (forall a, tame cwd (k a)) -> tame cwd (bind m k).
Proof.
  intros H fs. unfold bind. destruct (m fs) as [a fs'|e fs']; [apply H | exact I].
Qed.

Lemma tame_try cwd (m : M Result) sel hd :
  tame cwd m -> (forall e, tame cwd (hd e)) -> tame cwd (try_except m sel hd).
Proof.
  intros Hm Hh fs. unfold try_except. specialize (Hm fs).
  destruct (m fs) as [r fs'|e fs']; [exact Hm|].
  destruct (sel e); [apply Hh | exact I].
Qed.

Lemma append_nonempty_r a b : b <> "" -> a +:+ b <> "".
Proof. destruct a; simpl; [auto | discriminate]. Qed.

Ltac nonempty :=
  first [ discriminate
        | simpl; discriminate
        | apply append_nonempty_r; simpl; discriminate ].

Ltac tame_step :=
  first
    [ assumption
    | apply tame_ret_out
    | apply tame_ret_none
    | apply tame_ret_err; nonempty
    | apply tame_raise
    | apply tame_bind; intros
    | apply tame_try; [|intros]
    | match goal with
      | |- tame _ (if ?b then _ else _) => destruct b
      | |- tame _ (match ?x with _ => _ end) => destruct x
      end ].

Ltac tame_auto := repeat tame_step.

Lemma tame_ls h args cwd : tame cwd (_ls h args cwd).
Proof. unfold _ls. tame_auto. Qed.

Lemma tame_mkdir h args cwd : tame cwd (_mkdir h args cwd).
Proof.
  unfold _mkdir. destruct args as [|a0 args0]; [tame_auto|].
  generalize (a0 :: args0). intros args.
  induction args as [|a args IH]; simpl; tame_auto.
Qed.

Lemma tame_rm h args cwd : tame cwd (_rm h args cwd).
Proof.
  unfold _rm. destruct args as [|a0 args0]; [tame_auto|].
  generalize (existsb is_rm_flag (a0 :: args0)).
  generalize (List.filter (fun a => negb (is_rm_flag a)) (a0 :: args0)).
  intros paths recursive. destruct paths as [|p0 paths0]; [tame_auto|].
  generalize (p0 :: paths0). intros paths.
  induction paths as [|p paths IH]; simpl; tame_auto.
Qed.

Lemma tame_rmdir h args cwd : tame cwd (_rmdir h args cwd).
Proof.
  unfold _rmdir. destruct args as [|a0 args0]; [tame_auto|].
  generalize (a0 :: args0). intros args.
  induction args as [|a args IH]; simpl; tame_auto.
Qed.

Lemma tame_cat h args cwd : tame cwd (_cat h args cwd).
Proof.
  unfold _cat. destruct args as [|a0 args0]; [tame_auto|].
  generalize (a0 :: args0) (@nil string). intros args.
  induction args as [|a args IH]; intros acc; simpl; tame_auto. apply IH.
Qed.

Lemma tame_head_or_tail h name slice args cwd :
  tame cwd (head_or_tail h name slice args cwd).
Proof. unfold head_or_tail. tame_auto. Qed.

Lemma tame_touch h args cwd : tame cwd (_touch h args cwd).
Proof.
  unfold _touch. destruct args as [|a0 args0]; [tame_auto|].
  generalize (a0 :: args0). intros args.
  induction args as [|a args IH]; simpl; tame_auto.
Qed.

Lemma tame_mv h args cwd : tame cwd (_mv h args cwd).
Proof.
  unfold _mv. tame_auto.
  generalize (map (fun a => _path_resolve a cwd) (removelast args)). intros srcs.
  induction srcs as [|s srcs IH]; simpl; tame_auto.
Qed.

Lemma tame_cp h args cwd : tame cwd (_cp h args cwd).
Proof.
  unfold _cp. tame_auto.
  generalize (map (fun a => _path_resolve a cwd)
                (removelast (List.filter (fun a => negb (String.eqb a "-r")) args))).
  generalize (existsb (fun a => String.eqb a "-r") args).
  intros recursive srcs.
  induction srcs as [|s srcs IH]; simpl; tame_auto.
Qed.

Lemma tame_echo h args cwd : tame cwd (_echo h args cwd).
Proof. unfold _echo, echo_redirect, echo_failed. tame_auto. Qed.

Lemma tame_cpu h cwd : tame cwd (_cpu h).
Proof. unfold _cpu. tame_auto. Qed.

Lemma tame_mem h cwd : tame cwd (_mem h).
Proof. unfold _mem. tame_auto. Qed.

Lemma tame_ps h args cwd : tame cwd (_ps h args).
Proof. unfold _ps. tame_auto. Qed.

(** ** normpath: what it yields, and that it yields a fixed point *)

Lemma mem_char_cons c d s : mem_char c (String d s) = Ascii.eqb c d || mem_char c s.
Proof. reflexivity. Qed.

Lemma split_slash_cons c p :
  split_slash (String c p)
  = if Ascii.eqb c "/" then EmptyString :: split_slash p
    else match split_slash p with
         | [] => [String c EmptyString]
         | w :: ws => String c w :: ws
         end.
Proof. reflexivity. Qed.

Lemma split_slash_noslash p : Forall (fun c => mem_char "/" c = false) (split_slash p).
Proof.
  induction p as [|c p IH]; [repeat constructor|]. rewrite split_slash_cons.
  destruct (Ascii.eqb c "/") eqn:Ec; [now constructor|].
  assert (Hc : Ascii.eqb "/" c = false) by now rewrite Ascii.eqb_sym.
  destruct (split_slash p) as [|w ws].
  - repeat constructor. now rewrite mem_char_cons, Hc.
  - inversion IH; subst. constructor; [|assumption].
    now rewrite mem_char_cons, Hc.
Qed.

Lemma split_slash_plain x : mem_char "/" x = false -> split_slash x = [x].
Proof.
  induction x as [|c x IH]; [reflexivity|]. rewrite mem_char_cons, split_slash_cons.
  intros [Hc Hx]%orb_false_elim. rewrite Ascii.eqb_sym, Hc, (IH Hx). reflexivity.
Qed.

Lemma split_slash_app x rest :
  mem_char "/" x = false ->
  split_slash (x +:+ String "/" rest) = x :: split_slash rest.
Proof.
  induction x as [|c x IH]; [reflexivity|]. rewrite mem_char_cons.
  intros [Hc Hx]%orb_false_elim.
  change (String c x +:+ String "/" rest) with (String c (x +:+ String "/" rest)).
  rewrite split_slash_cons, Ascii.eqb_sym, Hc, (IH Hx). reflexivity.
Qed.

Lemma split_slash_concat l :
  l <> [] -> Forall (fun c => mem_char "/" c = false) l ->
  split_slash (String.concat "/" l) = l.
Proof.
  induction l as [|x l IH]; [congruence|]. intros _ Hl. inversion Hl; subst.
  destruct l as [|y l].
  - simpl. now apply split_slash_plain.
  - change (String.concat "/" (x :: y :: l))
      with (x +:+ String "/" (String.concat "/" (y :: l))).
    rewrite split_slash_app by assumption. f_equal. apply IH; [discriminate | assumption].
Qed.

Lemma okc_noslash c : okc c = true -> mem_char "/" c = false.
Proof. unfold okc. intros [_ H]%andb_prop. now apply negb_true_iff. Qed.

Lemma okc_not_dot c :
  okc c = true -> String.eqb c "" || String.eqb c "." = false.
Proof.
  unfold okc. intros [[H1 H2]%andb_prop _]%andb_prop.
  apply negb_true_iff in H1, H2. now rewrite H1, H2.
Qed.

Lemma good_cons ini c st :
  good ini (c :: st)
  = okc c && (if String.eqb c ".."
              then (ini =? 0) && forallb (fun d => String.eqb d "..") st
              else good ini st).
Proof. reflexivity. Qed.

Lemma all_dotdot_good ini st :
  (ini =? 0) = true -> forallb (fun d => String.eqb d "..") st = true ->
  good ini st = true.
Proof.
  intros Hi. induction st as [|d st IH]; [reflexivity|].
  cbn [forallb]. intros [Hd Hst]%andb_prop. rewrite good_cons, Hd, Hi, Hst.
  apply String.eqb_eq in Hd. subst d. reflexivity.
Qed.

Lemma good_tail ini c st : good ini (c :: st) = true -> good ini st = true.
Proof.
  rewrite good_cons. intros [_ H]%andb_prop. destruct (String.eqb c ".."); [|exact H].
  apply andb_prop in H as [Hi Hd]. now apply all_dotdot_good.
Qed.

Lemma good_app_r ini a b : good ini (a ++ b) = true -> good ini b = true.
Proof. induction a as [|c a IH]; [auto|]. intros H. now apply IH, good_tail with c. Qed.

Lemma good_all ini st : good ini st = true -> Forall (fun c => okc c = true) st.
Proof.
  induction st as [|c st IH]; [constructor|]. intros H. constructor.
  - rewrite good_cons in H. now apply andb_prop in H as [H _].
  - apply IH. now apply good_tail with c.
Qed.

Lemma norm_step_cases ini st comp :
  norm_step ini st comp
  = if String.eqb comp "" || String.eqb comp "." then st
    else if negb (String.eqb comp "..")
            || ((ini =? 0) && match st with [] => true | _ => false end)
            || match st with c :: _ => String.eqb c ".." | [] => false end
         then comp :: st
         else tail st.
Proof. reflexivity. Qed.

Lemma good_step ini st comp :
  mem_char "/" comp = false ->
  good ini st = true -> good ini (norm_step ini st comp) = true.
Proof.
  intros Hs Hst. rewrite norm_step_cases.
  destruct (String.eqb comp "") eqn:E1; [exact Hst|].
  destruct (String.eqb comp ".") eqn:E2; [exact Hst|]. cbn [orb].
  assert (Hok : okc comp = true) by (unfold okc; now rewrite E1, E2, Hs).
  destruct (String.eqb comp "..") eqn:E3; cbn [negb orb].
  - destruct st as [|c st].
    + destruct (ini =? 0) eqn:Ei; cbn [andb orb tail]; [|reflexivity].
      rewrite good_cons, Hok, E3, Ei. reflexivity.
    + rewrite andb_false_r. cbn [orb].
      destruct (String.eqb c "..") eqn:Ec; cbn [tail]; [|now apply good_tail with c].
      rewrite good_cons, Ec in Hst. apply andb_prop in Hst as [_ [Hi Hd]%andb_prop].
      rewrite good_cons, Hok, E3, Hi. cbn [forallb]. now rewrite Ec, Hd.
  - now rewrite good_cons, Hok, E3.
Qed.

Lemma good_fold ini comps st :
  Forall (fun c => mem_char "/" c = false) comps ->
  good ini st = true -> good ini (fold_left (norm_step ini) comps st) = true.
Proof.
  intros H. revert st. induction H as [|c comps Hc _ IH]; intros st Hst; [exact Hst|].
  cbn [fold_left]. apply IH. now apply good_step.
Qed.

(** Components that are already normal go through the loop unchanged. *)
Lemma norm_fold_fixed ini l st :
  good ini (rev l ++ st) = true -> fold_left (norm_step ini) l st = rev l ++ st.
Proof.
  revert st. induction l as [|c l IH]; intros st H; [reflexivity|].
  cbn [rev fold_left] in *. rewrite <- app_assoc in H. cbn [app] in H.
  assert (Hc := good_app_r _ _ _ H).
  replace (norm_step ini st c) with (c :: st).
  - rewrite IH by exact H. now rewrite <- app_assoc.
  - rewrite norm_step_cases. rewrite good_cons in Hc.
    apply andb_prop in Hc as [Hok Hc]. rewrite (okc_not_dot _ Hok).
    destruct (String.eqb c ".."); [|reflexivity]. cbn [negb orb].
    apply andb_prop in Hc as [-> Hd].
    destruct st as [|d st]; [reflexivity|]. cbn [forallb] in Hd.
    apply andb_prop in Hd as [-> _]. now rewrite orb_true_r.
Qed.

Lemma norm_comps_good ini p : good ini (rev (norm_comps ini (split_slash p))) = true.
Proof.
  unfold norm_comps. rewrite rev_involutive.
  apply good_fold; [apply split_slash_noslash | reflexivity].
Qed.

Lemma norm_comps_fixed ini nc :
  good ini (rev nc) = true -> norm_comps ini nc = nc.
Proof.
  intros H. unfold norm_comps. rewrite norm_fold_fixed.
  - rewrite app_nil_r. apply rev_involutive.
  - now rewrite app_nil_r.
Qed.

Lemma prefix_slash_cons ch r : String.prefix "/" (String ch r) = Ascii.eqb ch "/".
Proof.
  cbn [String.prefix]. destruct (ascii_dec "/" ch) as [<-|Hne].
  - now destruct r.
  - symmetry. apply Ascii.eqb_neq. congruence.
Qed.

Lemma prefix_slash_nil : String.prefix "/" "" = false.
Proof. reflexivity. Qed.

Lemma initial_slashes_cases p :
  initial_slashes p = 0 \/ initial_slashes p = 1 \/ initial_slashes p = 2.
Proof.
  unfold initial_slashes. destruct (String.prefix "/" p); [|now left].
  destruct (_ && _); auto.
Qed.

Lemma initial_slashes_abs p : isabs p = true -> initial_slashes p <> 0.
Proof.
  unfold isabs, initial_slashes. intros ->. destruct (_ && _); discriminate.
Qed.

Lemma okc_head c : okc c = true -> exists ch r, c = String ch r /\ Ascii.eqb ch "/" = false.
Proof.
  intros H. assert (Hs := okc_noslash _ H). destruct c as [|ch r].
  - discriminate.
  - exists ch, r. split; [reflexivity|]. rewrite mem_char_cons in Hs.
    apply orb_false_elim in Hs as [Hs _]. now rewrite Ascii.eqb_sym.
Qed.

Lemma concat_cons_head c rest :
  exists t, String.concat "/" (c :: rest) = c +:+ t.
Proof.
  destruct rest as [|d rest].
  - exists "". cbn [String.concat]. induction c; simpl; congruence.
  - eexists. reflexivity.
Qed.

(** The text of normal components never starts with a slash. *)
Lemma body_no_lead nc :
  Forall (fun c => okc c = true) nc -> String.prefix "/" (String.concat "/" nc) = false.
Proof.
  intros H. destruct H as [|c rest Hc _]; [reflexivity|].
  destruct (concat_cons_head c rest) as [t ->].
  destruct (okc_head c Hc) as (ch & r & -> & Hch).
  change (String ch r +:+ t) with (String ch (r +:+ t)).
  now rewrite prefix_slash_cons.
Qed.

Lemma body_nonempty c rest :
  okc c = true -> is_empty (String.concat "/" (c :: rest)) = false.
Proof.
  intros Hc. destruct (concat_cons_head c rest) as [t ->].
  destruct (okc_head c Hc) as (ch & r & -> & _). reflexivity.
Qed.

Lemma norm_comps_skip_empty ini l : norm_comps ini ("" :: l) = norm_comps ini l.
Proof. reflexivity. Qed.

(** A path spelled from normal components is its own normal form. *)
Lemma normpath_fixed ini nc :
  ini = 0 \/ ini = 1 \/ ini = 2 ->
  good ini (rev nc) = true ->
  let q := slashes ini +:+ String.concat "/" nc in
  is_empty q = false ->
  initial_slashes q = ini
  /\ norm_comps ini (split_slash q) = nc
  /\ normpath q = q.
Proof.
  intros Hini Hgood q Hq.
  assert (Hall : Forall (fun c => okc c = true) nc).
  { apply good_all, List.Forall_rev in Hgood. now rewrite rev_involutive in Hgood. }
  assert (Hlead := body_no_lead nc Hall).
  assert (Hsplit : norm_comps ini (split_slash (String.concat "/" nc)) = nc).
  { destruct nc as [|c rest]; [reflexivity|].
    rewrite split_slash_concat; [now apply norm_comps_fixed | discriminate |].
    eapply Forall_impl; [exact Hall|]. intros x. apply okc_noslash. }
  assert (Hi : initial_slashes q = ini /\ norm_comps ini (split_slash q) = nc).
  { unfold q, initial_slashes.
    destruct Hini as [->|[->| ->]]; cbn [slashes String.append].
    - rewrite Hlead. auto.
    - rewrite prefix_slash_cons. cbn [Ascii.eqb Bool.eqb andb].
      rewrite split_slash_cons. cbn [Ascii.eqb Bool.eqb andb].
      rewrite norm_comps_skip_empty. split; [|exact Hsplit].
      destruct (String.concat "/" nc) as [|ch r]; [reflexivity|].
      rewrite prefix_slash_cons in Hlead.
      cbn [String.prefix]. destruct (ascii_dec "/" "/"); [|congruence].
      cbn [String.prefix]. destruct (ascii_dec "/" ch) as [<-|]; [discriminate|reflexivity].
    - rewrite prefix_slash_cons. cbn [Ascii.eqb Bool.eqb andb].
      rewrite !split_slash_cons. cbn [Ascii.eqb Bool.eqb andb].
      rewrite !norm_comps_skip_empty. split; [|exact Hsplit].
      destruct (String.concat "/" nc) as [|ch r]; [reflexivity|].
      rewrite prefix_slash_cons in Hlead.
      cbn [String.prefix]. destruct (ascii_dec "/" "/"); [|congruence].
      cbn [String.prefix]. destruct (ascii_dec "/" "/"); [|congruence].
      cbn [String.prefix]. destruct (ascii_dec "/" "/"); [|congruence].
      cbn [andb negb].
      destruct (ascii_dec "/" ch) as [<-|]; [discriminate|].
      destruct r; reflexivity. }
  destruct Hi as [Hi1 Hi2]. split; [exact Hi1|]. split; [exact Hi2|].
  unfold normpath. rewrite Hq, Hi1, Hi2. fold q. now rewrite Hq.
Qed.

(** [normpath] yields a fixed point of itself. *)
Lemma normpath_idempotent p : normpath (normpath p) = normpath p.
Proof.
  remember (normpath p) as q eqn:Eq. unfold normpath in Eq.
  destruct (is_empty p); [now subst q|].
  destruct (is_empty (_ +:+ _)) eqn:E; [now subst q|]. subst q.
  apply normpath_fixed; [apply initial_slashes_cases | apply norm_comps_good | exact E].
Qed.

Lemma slashes_abs n t : n <> 0 -> isabs (slashes n +:+ t) = true.
Proof.
  destruct n; [congruence|]. intros _. unfold isabs.
  cbn [slashes String.append]. now rewrite prefix_slash_cons.
Qed.

Lemma normpath_abs p : isabs p = true -> isabs (normpath p) = true.
Proof.
  intros H. unfold normpath. destruct (is_empty p) eqn:Ep.
  - destruct p; discriminate.
  - pose proof (initial_slashes_abs p H) as Hi.
    pose proof (slashes_abs (initial_slashes p)
                  (String.concat "/" (norm_comps (initial_slashes p) (split_slash p))) Hi) as Ha.
    destruct (slashes _ +:+ _) eqn:E; [discriminate | exact Ha].
Qed.

Lemma join_abs cwd p : isabs cwd = true -> isabs (join cwd p) = true.
Proof.
  unfold isabs, join. intros H. destruct (String.prefix "/" p) eqn:Ep; [exact Ep|].
  destruct cwd as [|ch r]; [discriminate|].
  rewrite prefix_slash_cons in H.
  destruct (_ || _); cbn [String.append]; now rewrite prefix_slash_cons.
Qed.

(** What the resolver yields from an absolute working directory is
    absolute and is its own normal form. *)
Lemma path_resolve_abs_normal p cwd :
  isabs cwd = true ->
  isabs (_path_resolve p cwd) = true
  /\ normpath (_path_resolve p cwd) = _path_resolve p cwd.
Proof.
  intros H. unfold _path_resolve. destruct (isabs p) eqn:Ep; split;
    auto using normpath_idempotent, normpath_abs, join_abs.
Qed.

(** ** The dispatcher: no exception leaves it, failures have one shape *)

Lemma cd_answer h args cwd fs :
  match _cd h args cwd fs with
  | Ret r fs' => dispatch_answer h "cd" args cwd r fs'
  | Raise _ _ => True
  end.
Proof.
  unfold _cd, bind, p_exists, p_isdir, read_fs, arg0.
  destruct (path_exists h fs (cd_target h args cwd)); cbn [negb].
  - destruct (path_isdir h fs (cd_target h args cwd)) eqn:Ed; cbn [negb].
    + split; [cbn; intros H; now contradict H|]. right. auto.
    + destruct args; [exact I|]. cbn. split; [|left; now left].
      intros _. repeat split. discriminate.
  - destruct args; [exact I|]. cbn. split; [|left; now left].
    intros _. repeat split. discriminate.
Qed.

Lemma tame_answer h cmd args cwd m fs :
  tame cwd m ->
  match m fs with
  | Ret r fs' => dispatch_answer h cmd args cwd r fs'
  | Raise _ _ => True
  end.
Proof.
  intros H. specialize (H fs). destruct (m fs) as [r fs'|]; [|exact I].
  destruct H as [H1 H2]. split; [exact H1 | now left].
Qed.

Lemma dispatch_shape h cmd args cwd fs :
  match dispatch h cmd args cwd fs with
  | Ret r fs' => dispatch_answer h cmd args cwd r fs'
  | Raise _ _ => True
  end.
Proof.
  unfold dispatch.
  destruct (String.eqb_spec cmd "cd") as [->|Hcd].
  - cbn. apply cd_answer.
  - apply tame_answer.
    repeat match goal with
           | |- tame _ (if String.eqb cmd ?s then _ else _) =>
               destruct (String.eqb_spec cmd s) as [->|_]
           end;
      try congruence;
      auto using tame_ls, tame_mkdir, tame_rm, tame_rmdir, tame_cat, tame_touch,
        tame_mv, tame_cp, tame_echo, tame_cpu, tame_mem, tame_ps,
        tame_head_or_tail;
      try apply tame_head_or_tail;
      tame_auto.
Qed.

Lemma run_shape h raw cwd fs :
  strip raw = "" /\ run h raw (Some cwd) fs = Ret ("", "", Some cwd, 0%Z) fs
  \/ (exists msg, shlex_split (strip raw) = inl msg
      /\ run h raw (Some cwd) fs = Ret ("", "parse error: " +:+ msg, Some cwd, 2%Z) fs)
  \/ (exists cmd args, shlex_split (strip raw) = inr (cmd :: args)
      /\ run h raw (Some cwd) fs
         = try_except (dispatch h cmd args cwd) any_Exception (run_failed cwd) fs).
Proof.
  destruct (strip_head raw) as [E|(c & r & E & Hc)].
  - left. split; [exact E|]. unfold run, bind, ret. now rewrite E.
  - right. pose proof (shlex_split_first c r Hc) as Hf. rewrite <- E in Hf.
    destruct (shlex_split (strip raw)) as [msg|[|cmd args]] eqn:Es; [|contradiction|].
    + left. exists msg. split; [reflexivity|].
      unfold run, bind, ret. rewrite E. cbn [is_empty]. rewrite <- E, Es. reflexivity.
    + right. exists cmd, args. split; [reflexivity|]. now apply run_tokens.
Qed.

(** *** The exceptions a handler catches itself *)

Lemma mkdir_loop_app h cwd l : forall done fs fs1,
  mkdir_loop h done cwd fs = Ret ("", "", Some cwd, 0%Z) fs1 ->
  mkdir_loop h (done ++ l) cwd fs = mkdir_loop h l cwd fs1.
Proof.
  induction done as [|a done IH]; intros fs fs1 H.
  - cbn in H. injection H as <-. reflexivity.
  - cbn [app mkdir_loop] in *. unfold bind in *.
    destruct (try_except _ _ _ fs) as [[|] fs'|e fs'];
      try (cbv beta iota delta [ret] in H; discriminate).
    now apply IH.
Qed.

Lemma rmdir_loop_app h cwd l : forall done fs fs1,
  rmdir_loop h done cwd fs = Ret ("", "", Some cwd, 0%Z) fs1 ->
  rmdir_loop h (done ++ l) cwd fs = rmdir_loop h l cwd fs1.
Proof.
  induction done as [|a done IH]; intros fs fs1 H.
  - cbn in H. injection H as <-. reflexivity.
  - cbn [app rmdir_loop] in *. unfold bind, p_exists, p_isdir, read_fs in *.
    destruct (path_exists h fs (_path_resolve a cwd)); cbn [negb] in *;
      try (cbv beta iota delta [ret] in H; discriminate).
    destruct (path_isdir h fs (_path_resolve a cwd)); cbn [negb] in *;
      try (cbv beta iota delta [ret] in H; discriminate).
    destruct (try_except _ _ _ fs) as [[|] fs'|e fs'];
      try (cbv beta iota delta [ret] in H; discriminate).
    now apply IH.
Qed.

Lemma length_two_removelast {A B} (f : A -> B) (l : list A) :
  length l = 2 -> (1 <? length (map f (removelast l))) = false.
Proof. destruct l as [|a [|b [|c l]]]; try discriminate. reflexivity. Qed.

(** What the [except] clause of a handler answers is what [run]
    answers. *)
Lemma caught_answer h cwd fs cmd args e fs2 msg :
  caught h cwd fs cmd args e fs2 msg ->
  try_except (dispatch h cmd args cwd) any_Exception (run_failed cwd) fs
  = Ret ("", msg, Some cwd, 1%Z) fs2
  /\ msg <> "".
Proof.
  intros H. destruct H as [done a rest fs1 e fs2 Hdone Hraise Hsel
                          |done a rest fs1 e fs2 Hdone Hdir Hraise Hsel
                          |args e fs2 Hgt Hraise
                          |args e fs2 Hgt Hgtgt Hraise
                          |args e fs2 Hraise Hlen Hdest
                          |args e fs2 files Hraise Hlen Hdest].
  - split; [|discriminate].
    change (dispatch h "mkdir" (done ++ a :: rest) cwd)
      with (_mkdir h (done ++ a :: rest) cwd).
    replace (_mkdir h (done ++ a :: rest) cwd)
      with (mkdir_loop h (done ++ a :: rest) cwd) by now destruct done.
    unfold try_except at 1. rewrite (mkdir_loop_app _ _ _ _ _ _ Hdone).
    cbn [mkdir_loop]. unfold bind at 1, try_except, bind at 1.
    rewrite Hraise, Hsel. reflexivity.
  - split; [|discriminate].
    change (dispatch h "rmdir" (done ++ a :: rest) cwd)
      with (_rmdir h (done ++ a :: rest) cwd).
    replace (_rmdir h (done ++ a :: rest) cwd)
      with (rmdir_loop h (done ++ a :: rest) cwd) by now destruct done.
    unfold try_except at 1. rewrite (rmdir_loop_app _ _ _ _ _ _ Hdone).
    cbn [rmdir_loop]. unfold bind at 1, p_exists, read_fs.
    assert (Hex : path_exists h fs1 (_path_resolve a cwd) = true).
    { unfold path_isdir, path_exists in *.
      now destruct (stat h fs1 (_path_resolve a cwd)). }
    rewrite Hex. cbn [negb]. unfold bind at 1, p_isdir, read_fs. rewrite Hdir.
    cbn [negb]. unfold bind at 1, try_except, bind at 1.
    rewrite Hraise, Hsel. reflexivity.
  - split; [|discriminate].
    change (dispatch h "echo" args cwd) with (_echo h args cwd).
    unfold _echo. rewrite Hgt. unfold try_except. now rewrite Hraise.
  - split; [|discriminate].
    change (dispatch h "echo" args cwd) with (_echo h args cwd).
    unfold _echo. rewrite Hgt, Hgtgt. unfold try_except. now rewrite Hraise.
  - split; [|discriminate].
    change (dispatch h "mv" args cwd) with (_mv h args cwd). unfold _mv.
    replace (length args <? 2) with false by (symmetry; apply Nat.ltb_ge; lia).
    unfold try_except at 1. unfold bind at 1, p_isdir, read_fs.
    replace ((1 <? length (map (fun a => _path_resolve a cwd) (removelast args)))
             && negb (path_isdir h fs (_path_resolve (List.last args "") cwd)))
      with false.
    2:{ destruct Hdest as [H2 | ->]; [|now rewrite andb_false_r].
        now rewrite (length_two_removelast _ _ H2). }
    unfold try_except. now rewrite Hraise.
  - split; [|discriminate].
    change (dispatch h "cp" args cwd) with (_cp h args cwd). unfold _cp.
    fold files.
    assert (Hargs : 2 <= length args).
    { etransitivity; [exact Hlen|]. apply List.filter_length_le. }
    replace (length args <? 2) with false by (symmetry; apply Nat.ltb_ge; lia).
    replace (length files <? 2) with false by (symmetry; apply Nat.ltb_ge; lia).
    unfold try_except at 1. unfold bind at 1, p_isdir, read_fs.
    replace ((1 <? length (map (fun a => _path_resolve a cwd) (removelast files)))
             && negb (path_isdir h fs (_path_resolve (List.last files "") cwd)))
      with false.
    2:{ destruct Hdest as [H2 | ->]; [|now rewrite andb_false_r].
        now rewrite (length_two_removelast _ _ H2). }
    unfold try_except. now rewrite Hraise.
Qed.

(** C2: for every raw line and working directory [run] returns a 4-tuple
    and raises nothing; an answer with a nonzero exit code has empty
    stdout, a message on stderr and the working directory as given.  An
    exception raised inside a handler becomes such an answer wherever it
    is caught: one that leaves the handler becomes ("", "Error:
    <message>\n", cwd, 1), and one that the handler catches in a [try]
    block of its own (in [_mkdir], [_rmdir], [_echo], [_mv], [_cp])
    becomes ("", <the line of that except clause>, cwd, 1), a line that is
    not empty; the changes made before the exception are kept. *)
Theorem run_never_raises (h : Host) (raw cwd : string) (fs : node) :
  exists out err c code fs',
    run h raw (Some cwd) fs = Ret (out, err, c, code) fs'
    /\ failure_shape cwd (out, err, c, code)
    /\ (forall cmd args e fs1,
          shlex_split (strip raw) = inr (cmd :: args) ->
          dispatch h cmd args cwd fs = Raise e fs1 ->
          (out, err, c, code) = ("", "Error: " +:+ exn_msg e +:+ nl, Some cwd, 1%Z)
          /\ fs' = fs1)
    /\ (forall cmd args e fs1 msg,
          shlex_split (strip raw) = inr (cmd :: args) ->
          caught h cwd fs cmd args e fs1 msg ->
          (out, err, c, code) = ("", msg, Some cwd, 1%Z)
          /\ msg <> "" /\ fs' = fs1).
Proof.
  destruct (run_shape h raw cwd fs) as [[E ->]|[(msg & E & ->)|(cmd & args & E & ->)]].
  - exists "", "", (Some cwd), 0%Z, fs. split; [reflexivity|]. split; [|split].
    + intros H. now contradict H.
    + intros cmd args e fs1 Ht. rewrite E, shlex_split_empty in Ht. discriminate.
    + intros cmd args e fs1 msg Ht. rewrite E, shlex_split_empty in Ht. discriminate.
  - exists "", ("parse error: " +:+ msg), (Some cwd), 2%Z, fs.
    split; [reflexivity|]. split; [|split].
    + intros _. repeat split. discriminate.
    + intros cmd args e fs1 Ht. rewrite E in Ht. discriminate.
    + intros cmd args e fs1 msg' Ht. rewrite E in Ht. discriminate.
  - pose proof (dispatch_shape h cmd args cwd fs) as Hd.
    assert (Hcaught : forall r fs',
              try_except (dispatch h cmd args cwd) any_Exception (run_failed cwd) fs
              = Ret r fs' ->
              forall cmd' args' e fs1 msg,
                shlex_split (strip raw) = inr (cmd' :: args') ->
                caught h cwd fs cmd' args' e fs1 msg ->
                r = ("", msg, Some cwd, 1%Z) /\ msg <> "" /\ fs' = fs1).
    { intros r fs' Hr cmd' args' e fs1 msg Ht Hc. rewrite E in Ht.
      injection Ht as <- <-. destruct (caught_answer _ _ _ _ _ _ _ _ Hc) as [Ha Hm].
      rewrite Ha in Hr. injection Hr as <- <-. auto. }
    revert Hcaught. unfold try_except.
    destruct (dispatch h cmd args cwd fs) as [[[[out err] c] code] fs'|e fs'] eqn:Ed;
      intros Hcaught.
    + exists out, err, c, code, fs'. split; [reflexivity|]. split; [apply Hd|]. split.
      * intros cmd' args' e fs1 Ht. rewrite E in Ht. injection Ht as <- <-.
        rewrite Ed. discriminate.
      * exact (Hcaught _ _ eq_refl).
    + exists "", ("Error: " +:+ exn_msg e +:+ nl), (Some cwd), 1%Z, fs'.
      split; [reflexivity|]. split; [|split].
      * intros _. repeat split. discriminate.
      * intros cmd' args' e' fs1 Ht. rewrite E in Ht. injection Ht as <- <-.
        rewrite Ed. now intros [= <- <-].
      * exact (Hcaught _ _ eq_refl).
Qed.

(** ** Answers without a working directory *)

Lemma placed_ret out err c code : placed (ret (out, err, Some c, code)).
Proof. intros fs. discriminate. Qed.

Lemma placed_raise e : placed (raise e).
Proof. intros fs. exact I. Qed.

Lemma placed_bind {A} (m : M A) (k : A -> M Result) :
  (forall a, placed (k a)) -> placed (bind m k).
Proof.
  intros H fs. unfold bind. destruct (m fs) as [a fs'|e fs']; [apply H | exact I].
Qed.

Lemma placed_try (m : M Result) sel hd :
  placed m -> (forall e, placed (hd e)) -> placed (try_except m sel hd).
Proof.
  intros Hm Hh fs. unfold try_except. specialize (Hm fs).
  destruct (m fs) as [r fs'|e fs']; [exact Hm|].
  destruct (sel e); [apply Hh | exact I].
Qed.

Ltac placed_step :=
  first
    [ assumption
    | apply placed_ret
    | apply placed_raise
    | apply placed_bind; intros
    | apply placed_try; [|intros]
    | match goal with
      | |- placed (if ?b then _ else _) => destruct b
      | |- placed (match ?x with _ => _ end) => destruct x
      end ].

Ltac placed_auto := repeat placed_step.

Lemma placed_ls h args cwd : placed (_ls h args cwd).
Proof. unfold _ls. placed_auto. Qed.

Lemma placed_cd h args cwd : placed (_cd h args cwd).
Proof. unfold _cd. placed_auto. Qed.

Lemma placed_mkdir h args cwd : placed (_mkdir h args cwd).
Proof.
  unfold _mkdir. destruct args as [|a0 args0]; [placed_auto|].
  generalize (a0 :: args0). intros args.
  induction args as [|a args IH]; simpl; placed_auto.
Qed.

Lemma placed_rm h args cwd : placed (_rm h args cwd).
Proof.
  unfold _rm. destruct args as [|a0 args0]; [placed_auto|].
  generalize (existsb is_rm_flag (a0 :: args0)).
  generalize (List.filter (fun a => negb (is_rm_flag a)) (a0 :: args0)).
  intros paths recursive. destruct paths as [|p0 paths0]; [placed_auto|].
  generalize (p0 :: paths0). intros paths.
  induction paths as [|p paths IH]; simpl; placed_auto.
Qed.

Lemma placed_rmdir h args cwd : placed (_rmdir h args cwd).
Proof.
  unfold _rmdir. destruct args as [|a0 args0]; [placed_auto|].
  generalize (a0 :: args0). intros args.
  induction args as [|a args IH]; simpl; placed_auto.
Qed.

Lemma placed_cat h args cwd : placed (_cat h args cwd).
Proof.
  unfold _cat. destruct args as [|a0 args0]; [placed_auto|].
  generalize (a0 :: args0) (@nil string). intros args.
  induction args as [|a args IH]; intros acc; simpl; placed_auto. apply IH.
Qed.

Lemma placed_head_or_tail h name slice args cwd :
  placed (head_or_tail h name slice args cwd).
Proof. unfold head_or_tail. placed_auto. Qed.

Lemma placed_touch h args cwd : placed (_touch h args cwd).
Proof.
  unfold _touch. destruct args as [|a0 args0]; [placed_auto|].
  generalize (a0 :: args0). intros args.
  induction args as [|a args IH]; simpl; placed_auto.
Qed.

Lemma placed_mv h args cwd : placed (_mv h args cwd).
Proof.
  unfold _mv. placed_auto.
  generalize (map (fun a => _path_resolve a cwd) (removelast args)). intros srcs.
  induction srcs as [|s srcs IH]; simpl; placed_auto.
Qed.

Lemma placed_cp h args cwd : placed (_cp h args cwd).
Proof.
  unfold _cp. placed_auto.
  generalize (map (fun a => _path_resolve a cwd)
                (removelast (List.filter (fun a => negb (String.eqb a "-r")) args))).
  generalize (existsb (fun a => String.eqb a "-r") args).
  intros recursive srcs.
  induction srcs as [|s srcs IH]; simpl; placed_auto.
Qed.

Lemma placed_echo h args cwd : placed (_echo h args cwd).
Proof. unfold _echo, echo_redirect, echo_failed. placed_auto. Qed.

(** Only the handlers of cpu, mem and ps answer without a working
    directory, and only when they succeed. *)
Lemma dispatch_none h cmd args cwd fs out err code fs' :
  dispatch h cmd args cwd fs = Ret (out, err, None, code) fs' ->
  In cmd monitors /\ err = "" /\ code = 0%Z /\ fs' = fs.
Proof.
  intros Hd.
  assert (Hplaced : forall m : M Result, placed m -> m fs = Ret (out, err, None, code) fs'
                                         -> False).
  { intros m Hm E. specialize (Hm fs). rewrite E in Hm. congruence. }
  unfold dispatch in Hd.
  repeat match type of Hd with
         | (if String.eqb cmd ?name then _ else _) fs = _ =>
             destruct (String.eqb_spec cmd name) as [->|_]
         end;
    try solve [ exfalso; revert Hd; apply Hplaced;
                first [ apply placed_ls | apply placed_cd | apply placed_mkdir
                      | apply placed_rm | apply placed_rmdir | apply placed_cat
                      | apply placed_touch | apply placed_mv | apply placed_cp
                      | apply placed_echo | apply placed_head_or_tail
                      | solve [placed_auto] ] ].
  - unfold _cpu, bind, lift in Hd. destruct (cpu_probe h); [discriminate|].
    injection Hd as <- <- <- <-. unfold monitors. cbn. tauto.
  - unfold _mem, bind, lift in Hd. destruct (mem_probe h) as [|[[u t] p]]; [discriminate|].
    injection Hd as <- <- <- <-. unfold monitors. cbn. tauto.
  - unfold _ps, bind, lift in Hd. destruct (ps_probe h); [discriminate|].
    injection Hd as <- <- <- <-. unfold monitors. cbn. tauto.
Qed.

(** ** The working directory an answer carries *)

(** C4 (as amended): when the working directory given is absolute, on
    every host, every answer with a nonzero exit code carries the working
    directory given, and an answer carries another directory only after a
    successful [cd]; cpu, mem and ps, when they succeed, answer without
    one.  After [cd <path>] the directory is the resolved path: absolute,
    in normal form, and an existing directory.  After [cd] without
    argument it is the home directory as the host spells it, an existing
    directory, absolute and in normal form when that spelling is. *)
Theorem cwd_invariant (h : Host) (raw cwd : string) (fs fs' : node)
    (out err : string) (c : option string) (code : Z) :
  isabs cwd = true ->
  run h raw (Some cwd) fs = Ret (out, err, c, code) fs' ->
  (code <> 0%Z -> c = Some cwd)
  /\ (c = Some cwd
      \/ (c = None
          /\ exists cmd args,
               shlex_split (strip raw) = inr (cmd :: args)
               /\ In cmd monitors /\ code = 0%Z)
      \/ exists new args,
           c = Some new
           /\ shlex_split (strip raw) = inr ("cd" :: args)
           /\ code = 0%Z
           /\ path_isdir h fs' new = true
           /\ match args with
              | a :: _ =>
                  new = _path_resolve a cwd
                  /\ isabs new = true /\ normpath new = new
              | [] =>
                  new = home_dir h
                  /\ (isabs (home_dir h) = true ->
                      normpath (home_dir h) = home_dir h ->
                      isabs new = true /\ normpath new = new)
              end).
Proof.
  intros Hcwd Hrun.
  destruct (run_shape h raw cwd fs) as [[E Er]|[(msg & E & Er)|(cmd & args & E & Er)]];
    rewrite Er in Hrun.
  - injection Hrun as <- <- <- <- <-. auto.
  - injection Hrun as <- <- <- <- <-. auto.
  - pose proof (dispatch_shape h cmd args cwd fs) as Hd. unfold try_except in Hrun.
    destruct (dispatch h cmd args cwd fs) as [r fs1|e fs1] eqn:Ed.
    + injection Hrun as -> ->. destruct Hd as [Hf Hk]. split.
      * intros Hne. now apply Hf in Hne.
      * destruct Hk as [[Hk|Hk]|(Hcmd & Hr & Hdir)]; auto.
        -- subst c. right. left. split; [reflexivity|].
           destruct (dispatch_none _ _ _ _ _ _ _ _ _ Ed) as (Hin & _ & Hcode & _).
           exists cmd, args. auto.
        -- subst cmd. injection Hr as -> -> -> ->.
           right. right. exists (cd_target h args cwd), args.
           repeat split; auto; destruct args as [|a args]; cbn [cd_target]; auto.
           destruct (path_resolve_abs_normal a cwd Hcwd). auto.
    + cbn in Hrun. injection Hrun as <- <- <- <- <-. auto.
Qed.

(** ** The tree: installing nodes *)

Lemma diverge_sym p q : diverge p q -> diverge q p.
Proof.
  revert q. induction p as [|a p IH]; intros [|b q]; simpl; auto.
  destruct (decide (a = b)) as [->|Hne].
  - rewrite decide_True by reflexivity. apply IH.
  - rewrite decide_False by congruence. auto.
Qed.

Lemma diverge_app_l p q x : diverge p q -> diverge (p ++ x) q.
Proof.
  revert q. induction p as [|a p IH]; intros [|b q]; simpl; try easy.
  destruct (decide (a = b)); auto.
Qed.

Lemma diverge_app_r p q x : diverge p q -> diverge p (q ++ x).
Proof. intros H. apply diverge_sym, diverge_app_l, diverge_sym, H. Qed.

Lemma diverge_neq p q : diverge p q -> p <> q.
Proof.
  revert q. induction p as [|a p IH]; intros [|b q]; simpl; try easy.
  destruct (decide (a = b)) as [->|Hne]; [|congruence].
  intros H E. injection E as E. now apply (IH q).
Qed.

Lemma diverge_or_prefix p q : diverge p q \/ p `prefix_of` q \/ q `prefix_of` p.
Proof.
  revert q. induction p as [|a p IH]; intros q.
  - right. left. apply prefix_nil.
  - destruct q as [|b q]; [right; right; apply prefix_nil|]. simpl.
    destruct (decide (a = b)) as [->|Hne]; [|now left].
    destruct (IH q) as [H|[H|H]]; [now left | right; left | right; right];
      now apply prefix_cons.
Qed.

Lemma get_put_diverge t p q v : diverge p q -> get (put t p v) q = get t q.
Proof.
  revert t q. induction p as [|a p IH]; intros t [|b q]; simpl; try contradiction.
  destruct t as [|m]; [reflexivity|].
  destruct (decide (a = b)) as [->|Hne]; intros H.
  - rewrite lookup_insert_eq. destruct (m !! b) as [t'|]; simpl; [now apply IH|].
    rewrite IH by exact H. destruct q; [destruct p; contradiction | reflexivity].
  - now rewrite lookup_insert_ne.
Qed.

Lemma put_put_app t p q v w : put (put t p v) (p ++ q) w = put t p (put v q w).
Proof.
  revert t. induction p as [|a p IH]; intros t; simpl; [reflexivity|].
  destruct t as [|m]; [reflexivity|].
  rewrite lookup_insert_eq, insert_insert_eq. simpl. now rewrite IH.
Qed.

Lemma put_app t p q v :
  put t (p ++ q) v = put t p (put (default (Dir ∅) (get t p)) q v).
Proof.
  revert t. induction p as [|a p IH]; intros t; simpl; [reflexivity|].
  destruct t as [|m]; [reflexivity|]. f_equal. f_equal.
  rewrite IH. destruct (m !! a) as [t'|]; simpl; [reflexivity|].
  destruct p; reflexivity.
Qed.

Lemma clear_app t p q x : get t p = Some x -> clear t (p ++ q) = clear x q.
Proof.
  revert t. induction p as [|a p IH]; intros t; simpl.
  - now intros [= ->].
  - destruct t as [|m]; [discriminate|]. destruct (m !! a); [apply IH | discriminate].
Qed.

Lemma get_prefix_some t p q x : get t (p ++ q) = Some x -> exists y, get t p = Some y.
Proof. rewrite get_app. destruct (get t p); [eauto | discriminate]. Qed.

(** ** The height of a tree *)

Lemma depth_child m n t : m !! n = Some t -> depth t < depth (Dir m).
Proof.
  simpl. revert n t. induction m as [|i x m Hi IH] using map_ind; intros n t.
  - now rewrite lookup_empty.
  - rewrite map_fold_insert_L; [|intros; lia|exact Hi].
    destruct (decide (n = i)) as [->|Hne].
    + rewrite lookup_insert_eq. intros [= ->]. lia.
    + rewrite lookup_insert_ne by congruence. intros H. specialize (IH _ _ H). lia.
Qed.

(** ** copytree writes the tree it read *)

Lemma put_child fs dst done n v :
  put (put fs dst (Dir done)) (dst ++ [n]) v = put fs dst (Dir (<[n:=v]> done)).
Proof. now rewrite put_put_app. Qed.

(** The loop of copytree, when every entry lands in the new directory. *)
Lemma for_entries_fill (f : string * node -> M unit) fs dst l :
  NoDup l.*1 ->
  (forall n t done, (n, t) ∈ l -> done !! n = None ->
     f (n, t) (put fs dst (Dir done)) = Ret tt (put fs dst (Dir (<[n:=t]> done)))) ->
  forall done : gmap string node,
    (forall n t, (n, t) ∈ l -> done !! n = None) ->
    for_entries f l [] (put fs dst (Dir done))
    = Ret [] (put fs dst (Dir (done ∪ list_to_map l))).
Proof.
  induction l as [|[n t] l IH]; intros Hnd Hstep done Hdone.
  - simpl. now rewrite (right_id_L ∅ (∪)).
  - cbn [fmap list_fmap fst] in Hnd. apply NoDup_cons in Hnd as [Hn Hnd].
    cbn [for_entries]. rewrite Hstep; [|left|apply (Hdone n t); left].
    rewrite IH; try assumption.
    + do 3 f_equal. cbn [list_to_map foldr uncurry].
      rewrite <- insert_union_l. rewrite insert_union_r; [reflexivity|].
      apply (Hdone n t). left.
    + intros n' t' Hin done' Hd. apply Hstep; [now right | exact Hd].
    + intros n' t' Hin. rewrite lookup_insert_ne; [apply (Hdone n' t'); now right|].
      intros ->. apply Hn. apply list_elem_of_fmap. exists (n', t'). auto.
Qed.

Lemma copytree_at_S k src mkdst :
  copytree_at (S k) src mkdst
  = (let! entries := scandir_at src in
     let! dst := mkdst in
     let! errors := for_entries (copy_entry (copytree_at k) src dst) entries [] in
     match errors with
     | [] => ret tt
     | _ => raise (ShutilError (String.concat "; " errors))
     end).
Proof. reflexivity. Qed.

(** With calls enough for the height of the tree, and a target that parts
    ways with every entry to be read, copytree leaves at the target the
    directory it found at the source. *)
Lemma copytree_at_fills fuel :
  forall ents src dst fs (mkdst : M fspath),
    depth (Dir ents) <= fuel ->
    get fs src = Some (Dir ents) ->
    mkdst fs = Ret dst (put fs dst (Dir ∅)) ->
    clear fs dst = true ->
    (forall n, is_Some (ents !! n) -> diverge (src ++ [n]) dst) ->
    copytree_at fuel src mkdst fs = Ret tt (put fs dst (Dir ents)).
Proof.
  induction fuel as [|k IH]; intros ents src dst fs mkdst Hdepth Hsrc Hmk Hclear Hdiv.
  - simpl in Hdepth. lia.
  - rewrite copytree_at_S. unfold bind at 1. unfold scandir_at at 1. rewrite Hsrc.
    unfold bind at 1. rewrite Hmk. unfold bind.
    rewrite (for_entries_fill _ fs dst (map_to_list ents)).
    + rewrite (left_id_L ∅ (∪)), list_to_map_to_list. reflexivity.
    + apply NoDup_fst_map_to_list.
    + intros n t done Hin Hn. apply elem_of_map_to_list in Hin.
      set (fsc := put fs dst (Dir done)).
      assert (Hd : get fsc dst = Some (Dir done)) by now apply get_put_same.
      assert (Hdn : diverge (src ++ [n]) dst) by (apply Hdiv; eauto).
      assert (Hs : get fsc (src ++ [n]) = Some t).
      { unfold fsc. rewrite get_put_diverge by now apply diverge_sym.
        rewrite get_app, Hsrc. simpl. now rewrite Hin. }
      assert (Hmiss : get fsc (dst ++ [n]) = None).
      { rewrite get_app, Hd. simpl. now rewrite Hn. }
      unfold copy_entry. destruct t as [d|ents'].
      * unfold copy2_at. rewrite Hmiss. cbn [is_dir_node].
        rewrite bool_decide_false
          by (apply diverge_neq, diverge_app_r, Hdn).
        cbn [andb]. rewrite Hs, removelast_snoc, Hd, Hmiss.
        unfold fsc. now rewrite put_child.
      * rewrite (IH ents' (src ++ [n]) (dst ++ [n]) fsc).
        -- unfold fsc. now rewrite put_child.
        -- pose proof (depth_child _ _ _ Hin). lia.
        -- exact Hs.
        -- unfold mkdir_at. now rewrite removelast_snoc, Hd, Hmiss.
        -- apply clear_parent. now rewrite Hd.
        -- intros m _. apply diverge_app_l, diverge_app_r, Hdn.
    + intros n t Hin. apply lookup_empty.
Qed.

(** ** Absolute normal paths and their components *)

Lemma str_app_assoc (x y z : string) : (x +:+ y) +:+ z = x +:+ (y +:+ z).
Proof. induction x as [|c x IH]; simpl; [reflexivity | now rewrite IH]. Qed.

Lemma str_app_nil_r (x : string) : x +:+ "" = x.
Proof. induction x as [|c x IH]; simpl; [reflexivity | now rewrite IH]. Qed.

Lemma concat_snoc l b :
  l <> [] -> String.concat "/" (l ++ [b]) = String.concat "/" l +:+ "/" +:+ b.
Proof.
  induction l as [|x l IH]; [congruence|]. intros _.
  destruct l as [|y l]; [reflexivity|].
  change ((x :: y :: l) ++ [b]) with (x :: (y :: l) ++ [b]).
  change (String.concat "/" (x :: (y :: l) ++ [b]))
    with (x +:+ "/" +:+ String.concat "/" ((y :: l) ++ [b])).
  rewrite IH by discriminate.
  change (String.concat "/" (x :: y :: l))
    with (x +:+ "/" +:+ String.concat "/" (y :: l)).
  now rewrite !str_app_assoc.
Qed.

Lemma good_plain ini st :
  ini <> 0 -> good ini st = true -> Forall (fun c => plain c = true) st.
Proof.
  intros Hi. induction st as [|c st IH]; [constructor|]. intros H.
  pose proof (good_tail _ _ _ H) as Ht. rewrite good_cons in H.
  apply andb_prop in H as [Hok H]. constructor; [|now apply IH].
  unfold plain. rewrite Hok. destruct (String.eqb c ".."); [|reflexivity].
  apply andb_prop in H as [H _]. apply Nat.eqb_eq in H. congruence.
Qed.

Lemma plain_okc c : plain c = true -> okc c = true.
Proof. unfold plain. now intros [H _]%andb_prop. Qed.

Lemma plain_step c :
  plain c = true ->
  String.eqb c "" || String.eqb c "." = false /\ String.eqb c ".." = false.
Proof.
  unfold plain. intros [Hok Hdd]%andb_prop. split; [now apply okc_not_dot|].
  now apply negb_true_iff.
Qed.

Lemma plain_good ini st :
  ini <> 0 -> Forall (fun c => plain c = true) st -> good ini st = true.
Proof.
  intros Hi. induction 1 as [|c st Hc _ IH]; [reflexivity|].
  rewrite good_cons, (plain_okc _ Hc), (proj2 (plain_step _ Hc)). exact IH.
Qed.

(** The shape of an absolute path in normal form: one or two slashes, then
    its entry names with single slashes between them. *)
Lemma abs_normal_shape q :
  isabs q = true -> normpath q = q ->
  exists ini,
    (ini = 1 \/ ini = 2)
    /\ Forall (fun c => plain c = true) (path_names q)
    /\ q = slashes ini +:+ String.concat "/" (path_names q)
    /\ split_slash q = repeat "" ini ++ tail_comps (path_names q).
Proof.
  intros Habs Hnorm. exists (initial_slashes q).
  assert (Hi : initial_slashes q = 1 \/ initial_slashes q = 2).
  { pose proof (initial_slashes_abs q Habs). pose proof (initial_slashes_cases q). tauto. }
  assert (Hi0 : initial_slashes q <> 0) by (destruct Hi; lia).
  assert (Hgood := norm_comps_good (initial_slashes q) q). fold (path_names q) in Hgood.
  assert (Hplain : Forall (fun c => plain c = true) (path_names q)).
  { apply good_plain in Hgood; [|exact Hi0].
    apply List.Forall_rev in Hgood. now rewrite rev_involutive in Hgood. }
  assert (E : q = slashes (initial_slashes q) +:+ String.concat "/" (path_names q)).
  { unfold normpath in Hnorm. destruct q as [|c q']; [discriminate|]. cbn [is_empty] in Hnorm.
    fold (path_names (String c q')) in Hnorm.
    destruct (is_empty _); [|now symmetry].
    exfalso. rewrite <- Hnorm in Habs. discriminate. }
  repeat split; try assumption.
  assert (Hbody : split_slash (String.concat "/" (path_names q))
                  = tail_comps (path_names q)).
  { destruct (path_names q) as [|c rest] eqn:En; [reflexivity|]. cbn [tail_comps].
    apply split_slash_concat; [discriminate|].
    eapply Forall_impl; [exact Hplain|]. intros x Hx. now apply okc_noslash, plain_okc. }
  rewrite E at 1. destruct Hi as [-> | ->]; cbn [slashes String.append repeat app];
    rewrite !split_slash_cons; cbn [Ascii.eqb Bool.eqb andb]; now rewrite Hbody.
Qed.

(** ** Following entry names *)

Lemma walk_cons fs cur c rest :
  walk fs cur (c :: rest)
  = match get fs cur with
    | Some (Dir _) =>
        if String.eqb c "" || String.eqb c "." then walk fs cur rest
        else if String.eqb c ".." then walk fs (removelast cur) rest
        else walk fs (cur ++ [c]) rest
    | Some (File _) => inl ENOTDIR
    | None => inl ENOENT
    end.
Proof. reflexivity. Qed.

Lemma walk_plain_cons fs cur c rest :
  plain c = true -> is_dir_node (get fs cur) = true ->
  walk fs cur (c :: rest) = walk fs (cur ++ [c]) rest.
Proof.
  intros [Hd Hdd]%plain_step Hcur. rewrite walk_cons, Hd, Hdd.
  now destruct (get fs cur) as [[|m]|].
Qed.

Lemma walk_starts_in_dir fs cur c rest q :
  walk fs cur (c :: rest) = inr q -> is_dir_node (get fs cur) = true.
Proof. rewrite walk_cons. now destruct (get fs cur) as [[|m]|]. Qed.

Lemma walk_empties fs n X :
  is_dir_node (get fs []) = true -> walk fs [] (repeat "" n ++ X) = walk fs [] X.
Proof.
  intros Hroot. induction n as [|n IH]; [reflexivity|].
  cbn [repeat app]. rewrite walk_cons. cbn [String.eqb orb].
  now destruct (get fs []) as [[|m]|].
Qed.

Lemma walk_plain_inr fs names : forall cur q,
  Forall (fun c => plain c = true) names ->
  walk fs cur names = inr q -> q = cur ++ names.
Proof.
  induction names as [|c names IH]; intros cur q Hp Hw.
  - cbn in Hw. injection Hw as <-. now rewrite app_nil_r.
  - inversion Hp; subst. pose proof (walk_starts_in_dir _ _ _ _ _ Hw) as Hd.
    rewrite walk_plain_cons in Hw by assumption.
    apply IH in Hw; [|assumption]. now rewrite <- app_assoc in Hw.
Qed.

Lemma get_app_dir t p q x :
  q <> [] -> get t (p ++ q) = Some x -> is_dir_node (get t p) = true.
Proof.
  intros Hq. rewrite get_app. destruct (get t p) as [[|m]|]; try discriminate; [|reflexivity].
  destruct q; [congruence | discriminate].
Qed.

Lemma walk_plain_exists fs names : forall cur x,
  Forall (fun c => plain c = true) names ->
  is_dir_node (get fs cur) = true ->
  get fs (cur ++ names) = Some x ->
  walk fs cur names = inr (cur ++ names).
Proof.
  induction names as [|c names IH]; intros cur x Hp Hcur Hx.
  - now rewrite app_nil_r.
  - inversion Hp; subst. rewrite walk_plain_cons by assumption.
    replace (cur ++ c :: names) with ((cur ++ [c]) ++ names) in * by now rewrite <- app_assoc.
    destruct names as [|c' names']; [cbn; now rewrite app_nil_r|].
    eapply IH; eauto. eapply get_app_dir; [|exact Hx]. discriminate.
Qed.

Lemma walk_tail_inr fs nc q :
  Forall (fun c => plain c = true) nc ->
  walk fs [] (tail_comps nc) = inr q -> q = nc.
Proof.
  destruct nc as [|c nc]; intros Hp Hw.
  - cbn in Hw. destruct fs; now inversion Hw.
  - now apply walk_plain_inr in Hw.
Qed.

Lemma walk_tail_exists fs nc x :
  Forall (fun c => plain c = true) nc ->
  is_dir_node (get fs []) = true ->
  get fs nc = Some x ->
  walk fs [] (tail_comps nc) = inr nc.
Proof.
  destruct nc as [|c nc]; intros Hp Hroot Hx.
  - cbn. now destruct fs.
  - now apply (walk_plain_exists fs (c :: nc) [] x).
Qed.

(** [stat] on an absolute normal path looks up its names. *)
Lemma stat_abs_normal h fs q x :
  isabs q = true -> normpath q = q ->
  stat h fs q = Some x ->
  resolve h fs q = inr (path_names q)
  /\ get fs (path_names q) = Some x
  /\ is_dir_node (get fs []) = true
  /\ has_nul q = false.
Proof.
  intros Habs Hnorm. destruct (abs_normal_shape q Habs Hnorm) as (ini & Hini & Hp & _ & Hs).
  unfold stat, resolve, start_of. rewrite Habs, Hs.
  destruct (is_empty q); [discriminate|]. destruct (has_nul q); [discriminate|].
  destruct (walk fs [] _) as [k|q'] eqn:Ew; [discriminate|]. intros Hx.
  assert (Hroot : is_dir_node (get fs []) = true).
  { destruct Hini as [-> | ->]; cbn [repeat app] in Ew;
      now apply walk_starts_in_dir in Ew. }
  rewrite walk_empties in Ew by exact Hroot.
  apply walk_tail_inr in Ew; [|exact Hp]. subst q'. auto.
Qed.

Lemma stat_abs_normal_get h fs q x :
  isabs q = true -> normpath q = q -> has_nul q = false ->
  is_dir_node (get fs []) = true ->
  get fs (path_names q) = Some x ->
  stat h fs q = Some x.
Proof.
  intros Habs Hnorm Hnul Hroot Hx.
  destruct (abs_normal_shape q Habs Hnorm) as (ini & Hini & Hp & _ & Hs).
  unfold stat, resolve, start_of. rewrite Habs, Hs, Hnul.
  destruct q; [discriminate|]. cbn [is_empty].
  rewrite walk_empties by exact Hroot.
  now rewrite (walk_tail_exists fs _ x Hp Hroot Hx).
Qed.

(** ** makedirs on a path that does not exist yet *)

Lemma clear_missing t p q : get t p = None -> clear t p = true -> clear t (p ++ q) = true.
Proof.
  revert t. induction p as [|c p IH]; intros t; simpl; [discriminate|].
  destruct t as [|m]; [discriminate|]. destruct (m !! c); [apply IH | reflexivity].
Qed.

Lemma mkdirs_walk_cons name cur fresh c rest fs :
  mkdirs_walk name cur fresh (c :: rest) fs
  = match get fs cur with
    | Some (Dir _) =>
        if String.eqb c "" || String.eqb c "." then mkdirs_walk name cur fresh rest fs
        else if String.eqb c ".." then mkdirs_walk name (removelast cur) false rest fs
        else match get fs (cur ++ [c]) with
             | None =>
                 mkdirs_walk name (cur ++ [c]) true rest (put fs (cur ++ [c]) (Dir ∅))
             | Some _ => mkdirs_walk name (cur ++ [c]) false rest fs
             end
    | Some (File _) => Raise (OSError ENOTDIR name) fs
    | None => Raise (OSError ENOENT name) fs
    end.
Proof. reflexivity. Qed.

Lemma mkdirs_walk_empties name fresh n X fs :
  is_dir_node (get fs []) = true ->
  mkdirs_walk name [] fresh (repeat "" n ++ X) fs = mkdirs_walk name [] fresh X fs.
Proof.
  intros Hroot. induction n as [|n IH]; [reflexivity|].
  cbn [repeat app]. rewrite mkdirs_walk_cons. cbn [String.eqb orb].
  now destruct (get fs []) as [[|m]|].
Qed.

Lemma mkdirs_walk_app name a : forall b cur fresh fs,
  mkdirs_walk name cur fresh (a ++ b) fs
  = match mkdirs_walk name cur fresh a fs with
    | Ret (cur', fresh') fs' => mkdirs_walk name cur' fresh' b fs'
    | Raise e fs' => Raise e fs'
    end.
Proof.
  induction a as [|c a IH]; intros b cur fresh fs; [reflexivity|].
  cbn [app]. rewrite !mkdirs_walk_cons.
  destruct (get fs cur) as [[|m]|]; try reflexivity.
  destruct (_ || _); [apply IH|]. destruct (String.eqb c ".."); [apply IH|].
  destruct (get fs (cur ++ [c])); apply IH.
Qed.

(** Entry names none of which is blocked by a regular file, the last one
    missing: all that is missing is created, and nothing else changes. *)
Lemma mkdirs_walk_names name names : forall cur fresh fs,
  Forall (fun c => plain c = true) names ->
  names <> [] ->
  is_dir_node (get fs cur) = true ->
  clear fs (cur ++ names) = true ->
  get fs (cur ++ names) = None ->
  mkdirs_walk name cur fresh names fs
  = Ret (cur ++ names, true) (put fs (cur ++ names) (Dir ∅)).
Proof.
  induction names as [|c names IH]; intros cur fresh fs Hp Hne Hcur Hclear Hmiss; [congruence|].
  inversion Hp as [|? ? Hc Hp']; subst.
  destruct (plain_step c Hc) as [Hd Hdd].
  rewrite mkdirs_walk_cons, Hd, Hdd.
  destruct (get fs cur) as [[|m]|] eqn:Ecur; try discriminate.
  replace (cur ++ c :: names) with ((cur ++ [c]) ++ names) in *
    by now rewrite <- app_assoc.
  destruct (get fs (cur ++ [c])) as [[d|m']|] eqn:Ec.
  - (* a regular file *)
    destruct names as [|c' names'].
    + rewrite app_nil_r in Hmiss. congruence.
    + rewrite (clear_app _ _ _ _ Ec) in Hclear. discriminate.
  - (* an existing directory *)
    destruct names as [|c' names'].
    + rewrite app_nil_r in Hmiss. congruence.
    + apply IH; try assumption; [discriminate | now rewrite Ec].
  - (* missing: created *)
    assert (Hcl : clear fs (cur ++ [c]) = true) by (apply clear_parent; now rewrite Ecur).
    destruct names as [|c' names'].
    + cbn. now rewrite app_nil_r.
    + rewrite IH; try assumption; try discriminate.
      * do 1 f_equal. rewrite put_put_app.
        rewrite (put_app fs (cur ++ [c]) (c' :: names')), Ec. reflexivity.
      * now rewrite get_put_same.
      * rewrite (clear_app _ _ _ (Dir ∅)) by now rewrite get_put_same. reflexivity.
      * rewrite get_app, get_put_same by assumption. reflexivity.
Qed.

Lemma plain_nonempty b : plain b = true -> is_empty b = false.
Proof. intros H. destruct b; [discriminate | reflexivity]. Qed.

Lemma mem_char_app c x y : mem_char c (x +:+ y) = mem_char c x || mem_char c y.
Proof.
  induction x as [|d x IH]; [reflexivity|].
  change (String d x +:+ y) with (String d (x +:+ y)).
  now rewrite !mem_char_cons, IH, orb_assoc.
Qed.

(** [os.makedirs] on an absolute path spelled from the names [dd] and a
    last component [b] (a name, or nothing after a final slash): when no
    regular file is in the way and [dd] does not exist, the directories
    are created and the call reports the path made. *)
Lemma makedirs_fresh h fs ini dd b :
  ini = 1 \/ ini = 2 ->
  Forall (fun c => plain c = true) dd -> dd <> [] ->
  b = "" \/ plain b = true ->
  has_nul (slashes ini +:+ String.concat "/" (dd ++ [b])) = false ->
  is_dir_node (get fs []) = true ->
  clear fs dd = true ->
  get fs dd = None ->
  let made := dd ++ (if is_empty b then [] else [b]) in
  makedirs h false (slashes ini +:+ String.concat "/" (dd ++ [b])) fs
  = Ret made (put fs made (Dir ∅))
  /\ clear fs made = true
  /\ split_slash (slashes ini +:+ String.concat "/" (dd ++ [b]))
     = repeat "" ini ++ dd ++ [b].
Proof.
  intros Hini Hp Hne Hb Hnul Hroot Hclear Hmiss made.
  set (dst := slashes ini +:+ String.concat "/" (dd ++ [b])) in *.
  assert (Hsplit : split_slash dst = repeat "" ini ++ dd ++ [b]).
  { assert (Hbody : split_slash (String.concat "/" (dd ++ [b])) = dd ++ [b]).
    { apply split_slash_concat; [now destruct dd|].
      apply Forall_app. split.
      - eapply Forall_impl; [exact Hp|]. intros x Hx. now apply okc_noslash, plain_okc.
      - constructor; [|constructor].
        destruct Hb as [->|Hb]; [reflexivity | now apply okc_noslash, plain_okc]. }
    unfold dst. destruct Hini as [-> | ->]; cbn [slashes String.append repeat app];
      rewrite !split_slash_cons; cbn [Ascii.eqb Bool.eqb andb]; now rewrite Hbody. }
  assert (Habs : isabs dst = true).
  { unfold dst. apply slashes_abs. destruct Hini; lia. }
  assert (Hwalk : mkdirs_walk dst [] false (split_slash dst) fs
                  = Ret (made, true) (put fs made (Dir ∅)) /\ clear fs made = true).
  { rewrite Hsplit, mkdirs_walk_empties by exact Hroot. unfold made.
    destruct Hb as [->|Hb].
    - cbn [is_empty]. rewrite app_nil_r, mkdirs_walk_app.
      rewrite (mkdirs_walk_names dst dd [] false fs) by assumption.
      cbn [app]. split; [|exact Hclear].
      rewrite mkdirs_walk_cons. cbn [String.eqb orb].
      now rewrite get_put_same by assumption.
    - rewrite (plain_nonempty b Hb).
      assert (Hcl : clear fs (dd ++ [b]) = true) by now apply clear_missing.
      split; [|exact Hcl].
      apply (mkdirs_walk_names dst (dd ++ [b]) [] false fs); try assumption.
      + apply Forall_app. split; [exact Hp | now repeat constructor].
      + now destruct dd.
      + cbn [app]. now rewrite get_app, Hmiss. }
  destruct Hwalk as [Hwalk Hcl]. split; [|split; [exact Hcl | exact Hsplit]].
  assert (Hemp : is_empty dst = false).
  { revert Habs. generalize dst. intros [|]; [discriminate | reflexivity]. }
  unfold makedirs. rewrite Hemp, Hnul. unfold start_of. rewrite Habs.
  unfold bind. rewrite Hwalk. reflexivity.
Qed.

(** ** The last component of a path *)

Lemma last_app_nonempty {A} (l1 l2 : list A) d :
  l2 <> [] -> List.last (l1 ++ l2) d = List.last l2 d.
Proof.
  intros H. induction l1 as [|x l1 IH]; [reflexivity|].
  rewrite <- IH. cbn [app]. destruct (l1 ++ l2) eqn:E; [|reflexivity].
  apply app_eq_nil in E as [_ ->]. congruence.
Qed.

Lemma last_Forall {A} (P : A -> Prop) (l : list A) d :
  Forall P l -> l <> [] -> P (List.last l d).
Proof.
  induction 1 as [|x l Hx Hl IH]; [congruence|]. intros _.
  destruct l as [|y l]; [exact Hx|]. apply IH. discriminate.
Qed.

Lemma split_slash_mem x p :
  mem_char x p = false -> Forall (fun w => mem_char x w = false) (split_slash p).
Proof.
  induction p as [|c p IH]; [repeat constructor|].
  rewrite mem_char_cons, split_slash_cons. intros [Hc Hp]%orb_false_elim.
  specialize (IH Hp). destruct (Ascii.eqb c "/"); [now constructor|].
  destruct (split_slash p) as [|w ws]; [repeat constructor; now rewrite mem_char_cons, Hc|].
  inversion IH; subst. constructor; [|assumption]. now rewrite mem_char_cons, Hc.
Qed.

Lemma basename_mem x p : mem_char x p = false -> mem_char x (basename p) = false.
Proof.
  intros H. unfold basename.
  apply (last_Forall (fun w => mem_char x w = false));
    [now apply split_slash_mem | apply split_slash_nonempty].
Qed.

(** The basename of an absolute normal path is its last name, and empty
    for the root. *)
Lemma basename_abs_normal s :
  isabs s = true -> normpath s = s ->
  (path_names s = [] /\ basename s = "")
  \/ (path_names s <> [] /\ plain (basename s) = true
      /\ basename s = List.last (path_names s) "").
Proof.
  intros Habs Hnorm. destruct (abs_normal_shape s Habs Hnorm) as (ini & _ & Hp & _ & Hs).
  unfold basename. rewrite Hs.
  destruct (path_names s) as [|c rest] eqn:En.
  - left. split; [reflexivity|]. now rewrite last_app_nonempty.
  - right. split; [discriminate|]. rewrite last_app_nonempty by discriminate.
    split; [|reflexivity]. now apply (last_Forall (fun c => plain c = true)).
Qed.

Lemma ends_with_slash_app x l :
  is_empty l = false -> ends_with_slash (x +:+ l) = ends_with_slash l.
Proof.
  intros Hl. induction x as [|c x IH]; [reflexivity|].
  change (String c x +:+ l) with (String c (x +:+ l)).
  cbn [ends_with_slash]. destruct (x +:+ l) eqn:E; [|exact IH].
  destruct x; [|discriminate]. cbn in E. subst l. discriminate.
Qed.

Lemma ends_with_slash_plain l : mem_char "/" l = false -> ends_with_slash l = false.
Proof.
  induction l as [|c l IH]; [reflexivity|]. rewrite mem_char_cons.
  intros [Hc Hl]%orb_false_elim. cbn [ends_with_slash].
  destruct l; [now rewrite Ascii.eqb_sym | now apply IH].
Qed.

Lemma concat_last l :
  l <> [] -> exists pre, String.concat "/" l = pre +:+ List.last l "".
Proof.
  induction l as [|x l IH]; [congruence|]. intros _.
  destruct l as [|y l]; [now exists ""|].
  destruct IH as [pre E]; [discriminate|].
  exists (x +:+ "/" +:+ pre).
  change (String.concat "/" (x :: y :: l)) with (x +:+ "/" +:+ String.concat "/" (y :: l)).
  rewrite E. now rewrite !str_app_assoc.
Qed.

(** Joining a name to an absolute normal path other than the root. *)
Lemma join_abs_normal d ini b :
  Forall (fun c => plain c = true) (path_names d) -> path_names d <> [] ->
  d = slashes ini +:+ String.concat "/" (path_names d) ->
  b = "" \/ plain b = true ->
  join d b = slashes ini +:+ String.concat "/" (path_names d ++ [b]).
Proof.
  intros Hp Hne Hd Hb.
  assert (Hpre : String.prefix "/" b = false).
  { destruct Hb as [->|Hb]; [reflexivity|].
    destruct (okc_head b (plain_okc b Hb)) as (ch & r & -> & Hch).
    now rewrite prefix_slash_cons. }
  assert (Hend : ends_with_slash d = false).
  { rewrite Hd. destruct (concat_last _ Hne) as [pre ->].
    pose proof (last_Forall (fun c => plain c = true) _ "" Hp Hne) as Hl.
    rewrite <- str_app_assoc, ends_with_slash_app by now apply plain_nonempty.
    now apply ends_with_slash_plain, okc_noslash, plain_okc. }
  assert (Hemp : is_empty d = false).
  { rewrite Hd. destruct (concat_last _ Hne) as [pre ->].
    pose proof (last_Forall (fun c => plain c = true) _ "" Hp Hne) as Hl.
    apply plain_nonempty in Hl. destruct (List.last (path_names d) ""); [discriminate|].
    rewrite <- str_app_assoc. now destruct (slashes ini +:+ pre). }
  unfold join. rewrite Hpre, Hemp, Hend. cbn [orb].
  rewrite concat_snoc by exact Hne. rewrite Hd at 1. now rewrite !str_app_assoc.
Qed.

Lemma diverge_from_fresh fs src dd ents n :
  get fs src = Some (Dir ents) ->
  get fs dd = None ->
  (forall x r, dd = src ++ x :: r -> ents !! x = None) ->
  is_Some (ents !! n) ->
  diverge (src ++ [n]) dd.
Proof.
  intros Hsrc Hdd Hin [t Hn].
  destruct (diverge_or_prefix (src ++ [n]) dd) as [H|[[k ->]|[k E]]]; [exact H| |].
  - rewrite <- app_assoc in Hin. cbn in Hin. rewrite (Hin n k eq_refl) in Hn. discriminate.
  - destruct k as [|x k _] using rev_ind.
    + rewrite app_nil_r in E. subst dd. rewrite (Hin n [] eq_refl) in Hn. discriminate.
    + rewrite app_assoc in E. apply app_inj_tail in E as [-> _].
      apply get_prefix_some in Hsrc as [y Hy]. congruence.
Qed.

(** ** cp -r to a directory that does not exist yet *)

Lemma walk_app fs a : forall b cur,
  walk fs cur (a ++ b)
  = match walk fs cur a with
    | inr cur' => walk fs cur' b
    | inl k => inl k
    end.
Proof.
  induction a as [|c a IH]; intros b cur; [reflexivity|].
  cbn [app]. rewrite !walk_cons. destruct (get fs cur) as [[|m]|]; try reflexivity.
  destruct (_ || _); [apply IH|]. destruct (String.eqb c ".."); apply IH.
Qed.

Lemma get_prefix_of_dir t p k e :
  get t (p ++ k) = Some (Dir e) -> is_dir_node (get t p) = true.
Proof.
  destruct k as [|c k]; intros H.
  - rewrite app_nil_r in H. now rewrite H.
  - eapply get_app_dir; [|exact H]. discriminate.
Qed.

Lemma put_root_dir fs p v :
  p <> [] -> is_dir_node (get fs []) = true -> is_dir_node (get (put fs p v) []) = true.
Proof. destruct p; [congruence|]. now destruct fs. Qed.

(** [shutil.copytree] of an existing directory [s] to [join d (basename
    s)], for absolute normal paths [s] and [d]: when [d] does not exist,
    no regular file is on the way to it, it does not lie inside an entry
    of [s], and the interpreter allows calls enough for the height of the
    tree, the copy is made. *)
Lemma copytree_into_fresh h fs s d ents :
  isabs s = true -> normpath s = s ->
  isabs d = true -> normpath d = d ->
  stat h fs s = Some (Dir ents) ->
  path_exists h fs d = false ->
  has_nul d = false ->
  clear fs (path_names d) = true ->
  (forall x r, path_names d = path_names s ++ x :: r -> ents !! x = None) ->
  depth (Dir ents) <= recursion_limit h ->
  exists fs',
    copytree h s (join d (basename s)) fs = Ret tt fs'
    /\ path_isdir h fs' d = true
    /\ stat h fs' (join d (basename s)) = Some (Dir ents)
    /\ (exists k, get fs' (path_names d ++ k) = Some (Dir ents))
    /\ (forall n t, ents !! n = Some t -> get fs' (path_names s ++ [n]) = Some t)
    /\ (~ path_names s `prefix_of` path_names d -> stat h fs' s = Some (Dir ents)).
Proof.
  intros Hsa Hsn Hda Hdn Hstat Hex Hnul Hclear Hin Hdepth.
  destruct (stat_abs_normal h fs s _ Hsa Hsn Hstat) as (Hres & Hsrc & Hroot & Hsnul).
  destruct (abs_normal_shape d Hda Hdn) as (ini & Hini & Hp & Hd & _).
  set (dd := path_names d) in *. set (src := path_names s) in *.
  assert (Hmiss : get fs dd = None).
  { destruct (get fs dd) as [x|] eqn:E; [|reflexivity].
    unfold path_exists in Hex.
    now rewrite (stat_abs_normal_get h fs d x Hda Hdn Hnul Hroot E) in Hex. }
  assert (Hne : dd <> []).
  { intros E. rewrite E in Hmiss. discriminate. }
  set (b := basename s).
  assert (Hb : b = "" \/ plain b = true).
  { destruct (basename_abs_normal s Hsa Hsn) as [[_ E]|(_ & E & _)]; auto. }
  assert (Hbnul : has_nul b = false) by now apply basename_mem.
  assert (Hjoin := join_abs_normal d ini b Hp Hne Hd Hb). fold dd in Hjoin.
  assert (Hdnul : has_nul (slashes ini +:+ String.concat "/" (dd ++ [b])) = false).
  { rewrite <- Hjoin. unfold join.
    destruct (String.prefix "/" b); [exact Hbnul|].
    unfold has_nul in *.
    destruct (_ || _); rewrite !mem_char_app, Hnul, Hbnul; reflexivity. }
  destruct (makedirs_fresh h fs ini dd b Hini Hp Hne Hb Hdnul Hroot Hclear Hmiss)
    as (Hmk & Hcl & Hsplit).
  set (made := dd ++ (if is_empty b then [] else [b])) in *.
  rewrite <- Hjoin in Hmk, Hsplit.
  assert (Hmade : made <> []) by (unfold made; now destruct dd).
  exists (put fs made (Dir ents)).
  assert (Hcopy : copytree h s (join d b) fs = Ret tt (put fs made (Dir ents))).
  { unfold copytree, bind, resolve_m. rewrite Hres.
    apply copytree_at_fills; try assumption.
    intros n Hn. unfold made. apply diverge_app_r.
    now apply (diverge_from_fresh fs src dd ents n). }
  assert (Hgot : get (put fs made (Dir ents)) made = Some (Dir ents))
    by now apply get_put_same.
  assert (Hroot' : is_dir_node (get (put fs made (Dir ents)) []) = true)
    by now apply put_root_dir.
  assert (Hdd : is_dir_node (get (put fs made (Dir ents)) dd) = true).
  { exact (get_prefix_of_dir _ dd _ ents Hgot). }
  assert (Hentries : forall n, is_Some (ents !! n) -> diverge made (src ++ [n])).
  { intros n Hn. apply diverge_sym. unfold made. apply diverge_app_r.
    now apply (diverge_from_fresh fs src dd ents n). }
  split; [exact Hcopy|]. split; [|split; [|split; [|split]]].
  - unfold path_isdir.
    destruct (get (put fs made (Dir ents)) dd) as [x|] eqn:E; [|discriminate].
    now rewrite (stat_abs_normal_get h _ d x Hda Hdn Hnul Hroot' E).
  - assert (Habs : isabs (join d b) = true) by now apply join_abs.
    assert (Hnul' : has_nul (join d b) = false) by now rewrite Hjoin.
    unfold stat, resolve, start_of. rewrite Habs, Hnul', Hsplit.
    destruct (join d b) eqn:Ej; [discriminate|]. cbn [is_empty].
    rewrite walk_empties by exact Hroot'. rewrite walk_app.
    destruct (get (put fs made (Dir ents)) dd) as [x|] eqn:E; [|discriminate].
    rewrite (walk_plain_exists _ dd [] x Hp Hroot' E). cbn [app].
    clear Hmk Hcopy Hmade Hroot' Hdd E. subst made. destruct Hb as [Eb|Hpb].
    + rewrite Eb in *. cbn [is_empty] in Hgot |- *. rewrite app_nil_r in Hgot |- *.
      rewrite walk_cons. cbn [String.eqb orb]. rewrite Hgot. cbn. exact Hgot.
    + rewrite (plain_nonempty b Hpb) in Hgot |- *.
      rewrite walk_plain_cons; [cbn; exact Hgot | exact Hpb |].
      exact (get_prefix_of_dir _ dd _ ents Hgot).
  - exists (if is_empty b then [] else [b]). exact Hgot.
  - intros n t Hn. rewrite get_put_diverge by (apply Hentries; now exists t).
    rewrite get_app, Hsrc. cbn. now rewrite Hn.
  - intros Hout.
    assert (Hdiv : diverge made src).
    { unfold made. apply diverge_app_l.
      destruct (diverge_or_prefix dd src) as [H|[[k Hk]|H]];
        [exact H | | contradiction].
      rewrite Hk in Hsrc. destruct (get_prefix_some _ _ _ _ Hsrc) as [y Hy].
      rewrite Hmiss in Hy. discriminate. }
    apply stat_abs_normal_get; try assumption.
    now rewrite get_put_diverge.
Qed.

Lemma tokens_filter_r srcdir destdir :
  srcdir <> "-r" -> destdir <> "-r" ->
  List.filter (fun a => negb (String.eqb a "-r")) ["-r"; srcdir; destdir]
  = [srcdir; destdir].
Proof.
  intros H1%String.eqb_neq H2%String.eqb_neq.
  cbn [List.filter]. rewrite H1, H2. reflexivity.
Qed.

Lemma dispatch_cp h args cwd : dispatch h "cp" args cwd = _cp h args cwd.
Proof. reflexivity. Qed.

(** C1 (as amended): for a directory srcdir and a destination destdir that
    does not exist, the working directory being absolute, with no regular
    file on the way to destdir and no NUL in its path, destdir not inside
    an entry of srcdir, neither word being the flag "-r" and the tree no
    higher than the interpreter's recursion limit, [cp -r srcdir destdir]
    answers with exit code 0.  Afterwards destdir is a directory, the
    tree srcdir held is found at destdir or below it, and srcdir has not
    been moved: every entry it had is in its place, and srcdir as a whole
    is as it was when destdir does not lie inside it. *)
Theorem cp_r_to_new_directory (h : Host) (raw cwd srcdir destdir : string)
    (fs : node) (ents : gmap string node) :
  let s := _path_resolve srcdir cwd in
  let d := _path_resolve destdir cwd in
  shlex_split (strip raw) = inr ["cp"; "-r"; srcdir; destdir] ->
  srcdir <> "-r" -> destdir <> "-r" ->
  isabs cwd = true ->
  stat h fs s = Some (Dir ents) ->
  path_exists h fs d = false ->
  has_nul d = false ->
  clear fs (path_names d) = true ->
  (forall x r, path_names d = path_names s ++ x :: r -> ents !! x = None) ->
  depth (Dir ents) <= recursion_limit h ->
  exists fs',
    run h raw (Some cwd) fs = Ret ("", "", Some cwd, 0%Z) fs'
    /\ path_isdir h fs' d = true
    /\ (exists k, get fs' (path_names d ++ k) = Some (Dir ents))
    /\ (forall n t, ents !! n = Some t -> get fs' (path_names s ++ [n]) = Some t)
    /\ (~ path_names s `prefix_of` path_names d -> stat h fs' s = Some (Dir ents)).
Proof.
  intros s d Htok Hs Hd Hcwd Hstat Hex Hnul Hclear Hin Hdepth.
  destruct (path_resolve_abs_normal srcdir cwd Hcwd) as [Hsa Hsn].
  destruct (path_resolve_abs_normal destdir cwd Hcwd) as [Hda Hdn].
  destruct (copytree_into_fresh h fs s d ents Hsa Hsn Hda Hdn Hstat Hex Hnul
              Hclear Hin Hdepth) as (fs' & Hcopy & Hdir & _ & Hbelow & Hents & Hsrc).
  exists fs'. split; [|repeat split; assumption].
  rewrite (run_tokens _ _ _ _ _ _ Htok), dispatch_cp.
  unfold _cp. change (length ["-r"; srcdir; destdir] <? 2) with false. cbv iota.
  rewrite (tokens_filter_r srcdir destdir Hs Hd).
  change (length [srcdir; destdir] <? 2) with false. cbv iota.
  change (existsb (fun a => String.eqb a "-r") ["-r"; srcdir; destdir]) with true.
  change (map (fun a => _path_resolve a cwd) (removelast [srcdir; destdir])) with [s].
  change (_path_resolve (List.last [srcdir; destdir] "") cwd) with d.
  unfold try_except, bind at 1, p_isdir at 1, read_fs at 1.
  change (1 <? length [s]) with false. cbn [andb].
  unfold cp_loop.
  assert (E1 : p_exists h s fs = Ret true fs).
  { unfold p_exists, read_fs, path_exists. now rewrite Hstat. }
  assert (E2 : p_isdir h s fs = Ret true fs).
  { unfold p_isdir, read_fs, path_isdir. now rewrite Hstat. }
  rewrite (bind_Ret _ _ _ _ _ E1). cbn [negb].
  rewrite (bind_Ret _ _ _ _ _ E2). cbn [negb].
  rewrite (bind_Ret _ _ _ _ _ Hcopy). reflexivity.
Qed.

(** ** The theorems at sample inputs *)

Lemma run_blank_line_witness :
  run host0 "   " (Some "/w") fs_work = Ret ("", "", Some "/w", 0%Z) fs_work.
Proof. apply (run_blank_line host0 "   " "/w" fs_work). reflexivity. Defined.

Lemma run_unknown_command_witness :
  run host0 "foo bar" (Some "/w") fs_work
  = Ret ("", "Command not found: foo" +:+ nl, Some "/w", 127%Z) fs_work.
Proof.
  apply (run_unknown_command host0 "foo bar" "/w" "foo" ["bar"] fs_work).
  - reflexivity.
  - intros H. vm_compute in H. intuition discriminate.
Defined.

Lemma ls_missing_target_witness :
  run host0 "ls -l nothing" (Some "/w") fs_work
  = Ret ("", "ls: cannot access '/w/nothing': No such file or directory" +:+ nl,
         Some "/w", 2%Z) fs_work
  /\ contains "No such file or directory"
       ("ls: cannot access '/w/nothing': No such file or directory" +:+ nl) = true.
Proof.
  apply (ls_missing_target host0 "ls -l nothing" "/w" ["-l"; "nothing"] fs_work);
    reflexivity.
Defined.

Lemma mv_many_to_non_directory_witness :
  run host0 "mv src f f" (Some "/w") fs_work
  = Ret ("", "mv: target is not a directory" +:+ nl, Some "/w", 1%Z) fs_work
  /\ contains "target is not a directory"
       ("mv: target is not a directory" +:+ nl) = true.
Proof.
  apply (mv_many_to_non_directory host0 "mv src f f" "/w" ["src"; "f"; "f"] fs_work).
  - reflexivity.
  - simpl. lia.
  - reflexivity.
Defined.

Lemma echo_redirection_witness :
  (exists fs',
     _echo host0 (["hi"; ">>"; "there"] ++ ">" :: "out.txt" :: ["more"; ">"]) "/w" fs_work
     = Ret ("", "", Some "/w", 0%Z) fs'
     /\ stat host0 fs' "/w/out.txt" = Some (File ("hi >> there" +:+ nl)))
  /\ _echo host0 (["hi"; ">>"; "there"] ++ [">"]) "/w" fs_work
     = Ret ("", "echo: redirection error: list index out of range" +:+ nl,
            Some "/w", 1%Z) fs_work
  /\ (exists fs' old,
        _echo host0 (["hi"] ++ ">>" :: "f" :: ["more"]) "/w" fs_work
        = Ret ("", "", Some "/w", 0%Z) fs'
        /\ stat host0 fs' "/w/f" = Some (File (old +:+ "hi" +:+ nl))
        /\ (stat host0 fs_work "/w/f" = None -> old = "")
        /\ (forall o, stat host0 fs_work "/w/f" = Some (File o) -> old = o))
  /\ _echo host0 (["hi"] ++ [">>"]) "/w" fs_work
     = Ret ("", "echo: redirection error: list index out of range" +:+ nl,
            Some "/w", 1%Z) fs_work.
Proof.
  destruct (echo_redirection host0 ["hi"; ">>"; "there"] ["more"; ">"]
              "out.txt" "/w" fs_work) as [H1 _].
  destruct (H1 eq_refl) as (_ & Hw1 & Hd1).
  destruct (echo_redirection host0 ["hi"] ["more"] "f" "/w" fs_work) as [_ H2].
  destruct (H2 eq_refl eq_refl eq_refl ltac:(discriminate)) as (_ & Hw2 & Hd2).
  split; [exact (Hw1 eq_refl)|]. split; [exact Hd1|].
  split; [exact (Hw2 eq_refl) | exact Hd2].
Defined.

Lemma run_never_raises_witness :
  run host0 "cd" (Some "/w") fs_bare
  = Ret ("", "Error: list index out of range" +:+ nl, Some "/w", 1%Z) fs_bare
  /\ run host0 "mv src src/sub" (Some "/w") fs_work
     = Ret ("", "mv error: Cannot move a directory '/w/src' into itself '/w/src/sub/src'."
                +:+ nl, Some "/w", 1%Z) fs_work.
Proof.
  split.
  - destruct (run_never_raises host0 "cd" "/w" fs_bare)
      as (out & err & c & code & fs' & Hrun & _ & Hexc & _).
    destruct (Hexc "cd" [] IndexError fs_bare eq_refl eq_refl) as [E ->].
    rewrite Hrun, E. reflexivity.
  - destruct (run_never_raises host0 "mv src src/sub" "/w" fs_work)
      as (out & err & c & code & fs' & Hrun & _ & _ & Hcaught).
    destruct (Hcaught "mv" ["src"; "src/sub"]
                (ShutilError
                   "Cannot move a directory '/w/src' into itself '/w/src/sub/src'.")
                fs_work _ eq_refl
                (caught_mv host0 "/w" fs_work ["src"; "src/sub"] _ fs_work
                   eq_refl (le_n 2) (or_introl eq_refl)))
      as (E & _ & ->).
    rewrite Hrun, E. reflexivity.
Defined.

(** C6 without its precondition: with a directory named f.txt in the
    working directory, the echo of the round trip ends with exit code 1. *)
Lemma echo_then_cat_counterexample :
  run host0 echo_hello (Some "/w") fs_f_txt_dir
  = Ret ("", "echo: redirection error: [Errno 21] Is a directory: '/w/f.txt'" +:+ nl,
         Some "/w", 1%Z) fs_f_txt_dir.
Proof. vm_compute. reflexivity. Qed.

Lemma echo_then_cat_witness :
  exists fs1,
    run host0 echo_hello (Some "/w") fs_work = Ret ("", "", Some "/w", 0%Z) fs1
    /\ run host0 cat_hello (Some "/w") fs1 = Ret ("hello" +:+ nl, "", Some "/w", 0%Z) fs1.
Proof. apply (echo_then_cat host0 "/w" fs_work). reflexivity. Defined.

(** C4 without its precondition: with a home directory spelled /home/./u,
    a [cd] without argument answers with that spelling, which is not in
    normal form. *)
Lemma cwd_invariant_counterexample :
  run host_dotted_home "cd" (Some "/w") fs_work
  = Ret ("", "", Some "/home/./u", 0%Z) fs_work
  /\ normpath "/home/./u" <> "/home/./u".
Proof. split; [vm_compute; reflexivity | vm_compute; discriminate]. Qed.

Lemma cwd_invariant_witness :
  (0 <> 0 -> Some "/w/src" = Some "/w")%Z
  /\ (Some "/w/src" = Some "/w"
      \/ (Some "/w/src" = @None string
          /\ exists cmd args,
               shlex_split (strip "cd src") = inr (cmd :: args)
               /\ In cmd monitors /\ 0%Z = 0%Z)
      \/ exists new args,
           Some "/w/src" = Some new
           /\ shlex_split (strip "cd src") = inr ("cd" :: args)
           /\ 0%Z = 0%Z
           /\ path_isdir host_dotted_home fs_work new = true
           /\ match args with
              | a :: _ =>
                  new = _path_resolve a "/w"
                  /\ isabs new = true /\ normpath new = new
              | [] =>
                  new = home_dir host_dotted_home
                  /\ (isabs (home_dir host_dotted_home) = true ->
                      normpath (home_dir host_dotted_home) = home_dir host_dotted_home ->
                      isabs new = true /\ normpath new = new)
              end).
Proof.
  apply (cwd_invariant host_dotted_home "cd src" "/w" fs_work fs_work "" ""
           (Some "/w/src") 0%Z); reflexivity.
Defined.

(** C1 without its preconditions: srcdir is a directory and destdir does
    not exist, but the way to destdir goes through the regular file /w/f,
    and [cp -r] ends with exit code 1, nothing being copied. *)
Lemma cp_r_counterexample :
  path_isdir host0 fs_work (_path_resolve "src" "/w") = true
  /\ path_exists host0 fs_work (_path_resolve "f/new" "/w") = false
  /\ exists msg,
       run host0 "cp -r src f/new" (Some "/w") fs_work
       = Ret ("", "cp error: " +:+ msg +:+ nl, Some "/w", 1%Z) fs_work.
Proof.
  repeat split; try (vm_compute; reflexivity).
  exists (exn_msg (OSError ENOTDIR "/w/f/new/src")). vm_compute. reflexivity.
Qed.

Lemma cp_r_to_new_directory_witness :
  exists fs',
    run host0 "cp -r src new" (Some "/w") fs_work = Ret ("", "", Some "/w", 0%Z) fs'
    /\ path_isdir host0 fs' (_path_resolve "new" "/w") = true
    /\ (exists k, get fs' (path_names (_path_resolve "new" "/w") ++ k)
                  = Some (Dir src_entries))
    /\ (forall n t, src_entries !! n = Some t ->
                    get fs' (path_names (_path_resolve "src" "/w") ++ [n]) = Some t)
    /\ (~ path_names (_path_resolve "src" "/w")
          `prefix_of` path_names (_path_resolve "new" "/w") ->
        stat host0 fs' (_path_resolve "src" "/w") = Some (Dir src_entries)).
Proof.
  apply (cp_r_to_new_directory host0 "cp -r src new" "/w" "src" "new" fs_work src_entries).
  - reflexivity.
  - discriminate.
  - discriminate.
  - reflexivity.
  - reflexivity.
  - reflexivity.
  - reflexivity.
  - reflexivity.
  - intros x r H. vm_compute in H. discriminate.
  - vm_compute. lia.
Defined.

(** * Further properties of the handlers *)

(** ** The tokenizer *)

Lemma lex_messages s : forall st tok quoted out msg,
  lex st tok quoted s out = inl msg ->
  msg = "No closing quotation" \/ msg = "No escaped character".
Proof.
  induction s as [|c s IH]; intros st tok quoted out msg; simpl.
  - destruct st; intros [= <-]; auto.
  - destruct st as [| |q|[q|]];
      repeat match goal with
             | |- context [if ?b then _ else _] => destruct b
             end; apply IH.
Qed.

(** X1: A line the tokenizer rejects is answered with exit code 2 and the
    message "parse error: ..." (no newline after it), the working
    directory as given and nothing changed; the message is one of the two
    the tokenizer has. *)
Theorem run_parse_error (h : Host) (raw cwd msg : string) (fs : node) :
  shlex_split (strip raw) = inl msg ->
  run h raw (Some cwd) fs = Ret ("", "parse error: " +:+ msg, Some cwd, 2%Z) fs
  /\ (msg = "No closing quotation" \/ msg = "No escaped character").
Proof.
  intros E. split; [|exact (lex_messages _ _ _ _ _ _ E)].
  destruct (run_shape h raw cwd fs) as [[E0 _]|[(m & Em & ->)|(cmd & args & Et & _)]].
  - rewrite E0, shlex_split_empty in E. discriminate.
  - congruence.
  - congruence.
Qed.

Lemma run_parse_error_witness :
  run host0 "echo 'never closed" (Some "/w") fs_work
  = Ret ("", "parse error: No closing quotation", Some "/w", 2%Z) fs_work
  /\ ("No closing quotation" = "No closing quotation"
      \/ "No closing quotation" = "No escaped character").
Proof.
  apply (run_parse_error host0 "echo 'never closed" "/w" "No closing quotation" fs_work).
  reflexivity.
Defined.

Lemma lex_word_chars s : forall st tok quoted out,
  all_chars (fun c => negb (is_quote c) && negb (is_escape c)) s = true ->
  st = LWhite \/ st = LWord ->
  exists l, lex st tok quoted s out = inr l.
Proof.
  induction s as [|c s IH]; intros st tok quoted out Hs Hst.
  - destruct Hst as [-> | ->]; simpl; eauto.
  - cbn [all_chars] in Hs. apply andb_prop in Hs as [Hc Hs].
    apply andb_prop in Hc as [Hq He]. apply negb_true_iff in Hq, He.
    destruct Hst as [-> | ->]; cbn [lex]; rewrite Hq, He;
      repeat match goal with
             | |- context [if ?b then _ else _] => destruct b
             end; apply IH; auto.
Qed.

(** A line without quotes and backslashes always tokenizes: a parse error
    needs a quote or a backslash. *)
Lemma shlex_split_no_quotes (s : string) :
  all_chars (fun c => negb (is_quote c) && negb (is_escape c)) s = true ->
  exists tokens, shlex_split s = inr tokens.
Proof. intros H. apply lex_word_chars; auto. Qed.

Lemma shlex_split_no_quotes_witness :
  exists tokens, shlex_split "ls -l  /tmp" = inr tokens.
Proof. apply (shlex_split_no_quotes "ls -l  /tmp"). reflexivity. Defined.

Lemma lex_single_quoted s : forall tok quoted rest out,
  mem_char "'" s = false ->
  lex (LQuote "'") tok quoted (s +:+ String "'" rest) out
  = lex LWord (tok +:+ s) true rest out.
Proof.
  induction s as [|c s IH]; intros tok quoted rest out Hs.
  - cbn. now rewrite str_app_nil_r.
  - rewrite mem_char_cons in Hs. apply orb_false_elim in Hs as [Hc Hs].
    change (String c s +:+ String "'" rest) with (String c (s +:+ String "'" rest)).
    cbn [lex]. rewrite Ascii.eqb_sym, Hc.
    replace (is_escape c && is_escapedquote "'") with false
      by (now rewrite andb_false_r).
    rewrite IH by exact Hs. unfold snoc_char.
    now rewrite str_app_assoc.
Qed.

(** Between single quotes everything is taken as it is: a word followed
    by one single-quoted text is two tokens, the second being the text
    with its blanks, double quotes and backslashes. *)
Lemma shlex_split_single_quoted (w s : string) :
  all_chars word_char w = true -> is_empty w = false ->
  mem_char "'" s = false ->
  shlex_split (w +:+ " '" +:+ s +:+ "'") = inr [w; s].
Proof.
  intros Hw Hne Hs. unfold shlex_split.
  assert (Hword : forall v tok out rest,
             all_chars word_char v = true -> is_empty tok = false ->
             lex LWord tok false (v +:+ String " " rest) out
             = lex LWhite EmptyString false rest ((tok +:+ v) :: out)).
  { induction v as [|c v IH]; intros tok out rest Hv Htok.
    - cbn. rewrite Htok. cbn. now rewrite str_app_nil_r.
    - cbn [all_chars] in Hv. apply andb_prop in Hv as [Hc Hv].
      unfold word_char in Hc. apply andb_prop in Hc as [[H1 H2]%andb_prop H3].
      apply negb_true_iff in H1, H2, H3.
      change (String c v +:+ String " " rest) with (String c (v +:+ String " " rest)).
      cbn [lex]. rewrite H1, H2, H3.
      rewrite IH by (auto using snoc_char_nonempty).
      unfold snoc_char. now rewrite str_app_assoc. }
  destruct w as [|c w]; [discriminate|].
  cbn [all_chars] in Hw. apply andb_prop in Hw as [Hc Hw].
  unfold word_char in Hc. apply andb_prop in Hc as [[H1 H2]%andb_prop H3].
  apply negb_true_iff in H1, H2, H3.
  change (String c w +:+ " '" +:+ s +:+ "'")
    with (String c (w +:+ String " " (String "'" (s +:+ "'")))).
  cbn [lex]. rewrite H1, H2, H3.
  rewrite Hword by auto. cbn [lex is_lex_space mem_char].
  change (is_lex_space "'") with false. change (is_escape "'") with false.
  change (is_quote "'") with true. cbv iota.
  rewrite lex_single_quoted by exact Hs.
  cbn [lex]. rewrite orb_true_r. reflexivity.
Qed.

Lemma shlex_split_single_quoted_witness :
  shlex_split ("echo" +:+ " '" +:+ "a  \ b" +:+ "'") = inr ["echo"; "a  \ b"].
Proof. apply (shlex_split_single_quoted "echo" "a  \ b"); reflexivity. Defined.

Lemma rstrip_keeps x c :
  is_space c = false -> rstrip (x +:+ String c "") = x +:+ String c "".
Proof.
  intros Hc. induction x as [|d x IH].
  - cbn. now rewrite Hc.
  - change (String d x +:+ String c "") with (String d (x +:+ String c "")).
    cbn [rstrip]. rewrite IH. now destruct x.
Qed.

Lemma echo_quoted_tokens s :
  mem_char "'" s = false ->
  shlex_split (strip ("echo" +:+ " '" +:+ s +:+ "'")) = inr ["echo"; s].
Proof.
  intros Hs.
  replace (strip ("echo" +:+ " '" +:+ s +:+ "'")) with ("echo" +:+ " '" +:+ s +:+ "'").
  - apply shlex_split_single_quoted; auto.
  - unfold strip. change (lstrip ("echo" +:+ " '" +:+ s +:+ "'"))
      with (("echo '" +:+ s) +:+ String "'" "").
    now rewrite rstrip_keeps.
Qed.

(** X2: [echo] of one single-quoted text prints the text as it is and a
    newline, unless the text is ">" or ">>": the quotes do not keep those
    from being read as a redirection. *)
Theorem echo_single_quoted (h : Host) (s cwd : string) (fs : node) :
  mem_char "'" s = false -> s <> ">" -> s <> ">>" ->
  run h ("echo" +:+ " '" +:+ s +:+ "'") (Some cwd) fs
  = Ret (s +:+ nl, "", Some cwd, 0%Z) fs.
Proof.
  intros Hs H1%String.eqb_neq H2%String.eqb_neq.
  rewrite (run_tokens _ _ _ _ _ _ (echo_quoted_tokens s Hs)).
  change (dispatch h "echo" [s] cwd) with (_echo h [s] cwd).
  unfold try_except, _echo, mem_str. cbn [existsb].
  rewrite (String.eqb_sym ">" s), H1, (String.eqb_sym ">>" s), H2. reflexivity.
Qed.

Lemma echo_single_quoted_witness :
  run host0 ("echo" +:+ " '" +:+ "a  > b" +:+ "'") (Some "/w") fs_work
  = Ret ("a  > b" +:+ nl, "", Some "/w", 0%Z) fs_work.
Proof.
  apply (echo_single_quoted host0 "a  > b" "/w" fs_work);
    [reflexivity | discriminate | discriminate].
Defined.

(** ** Commands called without what they need *)

(** X3: Each command that needs an operand, called with none, answers with
    exit code 2 and a line that starts with its name and ": missing";
    nothing is changed. *)
Theorem missing_operand (h : Host) (raw cwd cmd : string) (fs : node) :
  In cmd operand_commands ->
  shlex_split (strip raw) = inr [cmd] ->
  exists err,
    run h raw (Some cwd) fs = Ret ("", err, Some cwd, 2%Z) fs
    /\ String.prefix (cmd +:+ ": missing ") err = true.
Proof.
  intros Hin Htok. rewrite (run_tokens _ _ _ _ _ _ Htok).
  unfold operand_commands in Hin. cbn [In] in Hin.
  repeat (destruct Hin as [<-|Hin]; [eexists; split; reflexivity|]).
  contradiction.
Qed.

Lemma missing_operand_witness :
  exists err,
    run host0 "  mv " (Some "/w") fs_work = Ret ("", err, Some "/w", 2%Z) fs_work
    /\ String.prefix ("mv" +:+ ": missing ") err = true.
Proof.
  apply (missing_operand host0 "  mv " "/w" "mv" fs_work).
  - cbn. tauto.
  - reflexivity.
Defined.

Lemma filter_flags l :
  forallb is_rm_flag l = true ->
  List.filter (fun a => negb (is_rm_flag a)) l = [].
Proof.
  induction l as [|x l IH]; [reflexivity|].
  cbn [forallb]. intros [Hx Hl]%andb_prop.
  cbn [List.filter]. rewrite Hx. cbn. now apply IH.
Qed.

(** [rm] with flags only has nothing to remove: exit code 2. *)
Lemma rm_flags_only (h : Host) (raw cwd : string) (args : list string) (fs : node) :
  shlex_split (strip raw) = inr ("rm" :: args) ->
  args <> [] ->
  forallb is_rm_flag args = true ->
  run h raw (Some cwd) fs = Ret ("", "rm: missing path" +:+ nl, Some cwd, 2%Z) fs.
Proof.
  intros Htok Hne Hall. rewrite (run_tokens _ _ _ _ _ _ Htok).
  change (dispatch h "rm" args cwd) with (_rm h args cwd).
  unfold try_except, _rm. destruct args as [|a args]; [congruence|].
  now rewrite (filter_flags _ Hall).
Qed.

Lemma rm_flags_only_witness :
  run host0 "rm -r -rf" (Some "/w") fs_work
  = Ret ("", "rm: missing path" +:+ nl, Some "/w", 2%Z) fs_work.
Proof.
  apply (rm_flags_only host0 "rm -r -rf" "/w" ["-r"; "-rf"] fs_work);
    [reflexivity | discriminate | reflexivity].
Defined.

(** ** cd without a usable home directory *)

(** X4: [cd] without argument, when the home directory of the host is missing
    or is no directory, runs into the [args[0]] of its own error message:
    the answer is the catch-all one, with the IndexError as its text. *)
Theorem cd_home_unusable (h : Host) (raw cwd : string) (fs : node) :
  shlex_split (strip raw) = inr ["cd"] ->
  path_isdir h fs (home_dir h) = false ->
  run h raw (Some cwd) fs
  = Ret ("", "Error: list index out of range" +:+ nl, Some cwd, 1%Z) fs.
Proof.
  intros Htok Hhome. rewrite (run_tokens _ _ _ _ _ _ Htok).
  change (dispatch h "cd" [] cwd) with (_cd h [] cwd).
  unfold try_except, _cd, bind, p_exists, p_isdir, read_fs, cd_target, arg0.
  destruct (path_exists h fs (home_dir h)); cbn [negb]; [|reflexivity].
  rewrite Hhome. reflexivity.
Qed.

Lemma cd_home_unusable_witness :
  run host0 "cd" (Some "/w") fs_bare
  = Ret ("", "Error: list index out of range" +:+ nl, Some "/w", 1%Z) fs_bare.
Proof. apply (cd_home_unusable host0 "cd" "/w" fs_bare); reflexivity. Defined.

(** ** uptime *)

(** X5: What [uptime] prints are hours, minutes and seconds that add up to the
    seconds since boot, minutes and seconds being below 60 (also when the
    clock makes the difference negative). *)
Theorem uptime_decomposition (h : Host) (raw cwd : string) (args : list string)
    (fs : node) (delta : Z) :
  shlex_split (strip raw) = inr ("uptime" :: args) ->
  uptime_probe h = inr delta ->
  let '(hrs, mins, secs) := uptime_parts delta in
  run h raw (Some cwd) fs
  = Ret ("up " +:+ str_of_Z hrs +:+ "h " +:+ str_of_Z mins +:+ "m "
         +:+ str_of_Z secs +:+ "s" +:+ nl, "", Some cwd, 0%Z) fs
  /\ (delta = 3600 * hrs + 60 * mins + secs)%Z
  /\ (0 <= mins < 60)%Z /\ (0 <= secs < 60)%Z.
Proof.
  intros Htok Hprobe. unfold uptime_parts. split.
  - rewrite (run_tokens _ _ _ _ _ _ Htok).
    change (dispatch h "uptime" args cwd)
      with (let! delta := lift (uptime_probe h) in
            ret (uptime_text delta, "", Some cwd, 0%Z)).
    unfold try_except, bind. now rewrite Hprobe.
  - pose proof (Z.div_mod delta 3600 ltac:(lia)).
    pose proof (Z.mod_pos_bound delta 3600 ltac:(lia)).
    pose proof (Z.div_mod (delta mod 3600) 60 ltac:(lia)).
    pose proof (Z.mod_pos_bound (delta mod 3600) 60 ltac:(lia)).
    repeat split; lia.
Qed.

Lemma uptime_decomposition_witness :
  run host0 "uptime" (Some "/w") fs_work
  = Ret ("up 1h 2m 5s" +:+ nl, "", Some "/w", 0%Z) fs_work
  /\ (3725 = 3600 * 1 + 60 * 2 + 5)%Z
  /\ (0 <= 2 < 60)%Z /\ (0 <= 5 < 60)%Z.
Proof.
  apply (uptime_decomposition host0 "uptime" "/w" [] fs_work 3725); reflexivity.
Defined.

(** ** The default working directory *)

Lemma makedirs_tmp h (root : gmap string node) :
  makedirs h true "/tmp" (Dir root)
  = match root !! "tmp" with
    | None => Ret ["tmp"] (Dir (<["tmp" := Dir ∅]> root))
    | Some (Dir _) => Ret ["tmp"] (Dir root)
    | Some (File _) => Raise (OSError EEXIST "/tmp") (Dir root)
    end.
Proof.
  unfold makedirs.
  replace (has_nul "/tmp") with false by (vm_compute; reflexivity).
  unfold bind, start_of, read_fs, ret, raise. cbn.
  destruct (root !! "tmp") as [[d|m]|] eqn:E; cbn; rewrite ?E; reflexivity.
Qed.

(** X6: Without a working directory [run] works in /tmp and creates it when it
    is missing; the [os.makedirs] that does so stands before the [try], so
    when /tmp is a regular file its FileExistsError leaves [run], whatever
    the command line. *)
Theorem run_default_cwd (h : Host) (raw : string) (root : gmap string node) :
  (root !! "tmp" = None ->
   run h raw None (Dir root)
   = run h raw (Some "/tmp") (Dir (<["tmp" := Dir ∅]> root)))
  /\ (forall m, root !! "tmp" = Some (Dir m) ->
      run h raw None (Dir root) = run h raw (Some "/tmp") (Dir root))
  /\ (forall d, root !! "tmp" = Some (File d) ->
      run h raw None (Dir root) = Raise (OSError EEXIST "/tmp") (Dir root)).
Proof.
  repeat split; [intros E | intros m E | intros d E];
    unfold run; unfold bind at 1; unfold bind at 1;
    rewrite makedirs_tmp, E; reflexivity.
Qed.

Lemma run_default_cwd_witness :
  run host0 "pwd" None (Dir (<["w" := Dir ∅]> ∅))
  = run host0 "pwd" (Some "/tmp") (Dir (<["tmp" := Dir ∅]> (<["w" := Dir ∅]> ∅)))
  /\ run host0 "pwd" None (Dir (<["tmp" := Dir ∅]> ∅))
     = run host0 "pwd" (Some "/tmp") (Dir (<["tmp" := Dir ∅]> ∅))
  /\ run host0 "pwd" None (Dir (<["tmp" := File "x"]> ∅))
     = Raise (OSError EEXIST "/tmp") (Dir (<["tmp" := File "x"]> ∅)).
Proof.
  split; [|split].
  - apply (proj1 (run_default_cwd host0 "pwd" (<["w" := Dir ∅]> ∅))). reflexivity.
  - apply (proj1 (proj2 (run_default_cwd host0 "pwd" (<["tmp" := Dir ∅]> ∅))) ∅).
    reflexivity.
  - apply (proj2 (proj2 (run_default_cwd host0 "pwd" (<["tmp" := File "x"]> ∅))) "x").
    reflexivity.
Defined.

(** ** Handlers that stop at the first operand they cannot serve *)

Lemma bind_p_exists {A} h p (k : bool -> M A) fs :
  bind (p_exists h p) k fs = k (path_exists h fs p) fs.
Proof. reflexivity. Qed.

Lemma bind_p_isdir {A} h p (k : bool -> M A) fs :
  bind (p_isdir h p) k fs = k (path_isdir h fs p) fs.
Proof. reflexivity. Qed.

Lemma bind_p_isfile {A} h p (k : bool -> M A) fs :
  bind (p_isfile h p) k fs = k (path_isfile h fs p) fs.
Proof. reflexivity. Qed.

Lemma stat_dir_exists h fs p :
  path_isdir h fs p = true -> path_exists h fs p = true.
Proof. unfold path_isdir, path_exists. now destruct (stat h fs p) as [[|]|]. Qed.

(** X7: [rm] without a recursive flag refuses a directory: when the first
    path is one, the answer is exit code 1, nothing is removed and the
    paths after it are not looked at. *)
Theorem rm_directory_needs_flag (h : Host) (raw cwd a : string)
    (rest : list string) (fs : node) :
  shlex_split (strip raw) = inr ("rm" :: a :: rest) ->
  existsb is_rm_flag (a :: rest) = false ->
  path_isdir h fs (_path_resolve a cwd) = true ->
  run h raw (Some cwd) fs
  = Ret ("", "rm: cannot remove '" +:+ a +:+ "': Is a directory" +:+ nl,
         Some cwd, 1%Z) fs.
Proof.
  intros Htok Hflags Hdir. rewrite (run_tokens _ _ _ _ _ _ Htok).
  change (dispatch h "rm" (a :: rest) cwd) with (_rm h (a :: rest) cwd).
  unfold try_except, _rm. rewrite Hflags.
  cbn [existsb] in Hflags. apply orb_false_elim in Hflags as [Ha _].
  cbn [List.filter]. rewrite Ha. cbn [negb rm_loop].
  rewrite bind_p_exists, (stat_dir_exists _ _ _ Hdir). cbn [negb].
  rewrite bind_p_isdir, Hdir. reflexivity.
Qed.

Lemma rm_directory_needs_flag_witness :
  run host0 "rm src f" (Some "/w") fs_work
  = Ret ("", "rm: cannot remove '" +:+ "src" +:+ "': Is a directory" +:+ nl,
         Some "/w", 1%Z) fs_work.
Proof.
  apply (rm_directory_needs_flag host0 "rm src f" "/w" "src" ["f"] fs_work);
    reflexivity.
Defined.

(** X8: [rmdir] removes empty directories only: on one that has entries the
    answer is exit code 1 with "Directory not empty", and nothing is
    removed. *)
Theorem rmdir_not_empty (h : Host) (raw cwd a : string) (rest : list string)
    (fs : node) (m : gmap string node) :
  shlex_split (strip raw) = inr ("rmdir" :: a :: rest) ->
  stat h fs (_path_resolve a cwd) = Some (Dir m) ->
  m <> ∅ ->
  run h raw (Some cwd) fs
  = Ret ("", "rmdir: failed to remove '" +:+ a +:+ "': Directory not empty" +:+ nl,
         Some cwd, 1%Z) fs.
Proof.
  intros Htok Hstat Hne. rewrite (run_tokens _ _ _ _ _ _ Htok).
  change (dispatch h "rmdir" (a :: rest) cwd) with (rmdir_loop h (a :: rest) cwd).
  unfold try_except. cbn [rmdir_loop].
  rewrite bind_p_exists. unfold path_exists. rewrite Hstat. cbn [negb].
  rewrite bind_p_isdir. unfold path_isdir. rewrite Hstat. cbn [negb is_dir_node].
  unfold bind at 1, try_except, bind at 1, rmdir.
  unfold stat in Hstat. destruct (resolve h fs (_path_resolve a cwd)); [discriminate|].
  rewrite Hstat.
  assert (Hm : is_empty_map m = false).
  { unfold is_empty_map. destruct (map_to_list m) eqn:E; [|reflexivity].
    apply map_to_list_empty_iff in E. contradiction. }
  rewrite Hm. reflexivity.
Qed.

Lemma rmdir_not_empty_witness :
  run host0 "rmdir src" (Some "/w") fs_work
  = Ret ("", "rmdir: failed to remove '" +:+ "src" +:+ "': Directory not empty" +:+ nl,
         Some "/w", 1%Z) fs_work.
Proof.
  apply (rmdir_not_empty host0 "rmdir src" "/w" "src" [] fs_work src_entries).
  - reflexivity.
  - reflexivity.
  - intros E. apply (f_equal (fun m => m !! "a.txt")) in E. vm_compute in E. discriminate.
Defined.

(** X9: [cp] without "-r" leaves directories out: when the first source is
    one, the answer is exit code 1 and nothing is copied. *)
Theorem cp_directory_needs_flag (h : Host) (raw cwd : string)
    (args : list string) (fs : node) :
  shlex_split (strip raw) = inr ("cp" :: args) ->
  existsb (fun a => String.eqb a "-r") args = false ->
  2 <= length args ->
  let s := _path_resolve (hd "" args) cwd in
  let dest := _path_resolve (List.last args "") cwd in
  path_isdir h fs s = true ->
  (length args = 2 \/ path_isdir h fs dest = true) ->
  run h raw (Some cwd) fs
  = Ret ("", "cp: -r not specified; omitting directory '" +:+ s +:+ "'" +:+ nl,
         Some cwd, 1%Z) fs.
Proof.
  intros Htok Hflag Hlen s dest Hs Hdest.
  rewrite (run_tokens _ _ _ _ _ _ Htok).
  change (dispatch h "cp" args cwd) with (_cp h args cwd). unfold _cp.
  assert (Hfiles : List.filter (fun a => negb (String.eqb a "-r")) args = args).
  { clear -Hflag. induction args as [|x l IH]; [reflexivity|].
    cbn [existsb] in Hflag. apply orb_false_elim in Hflag as [Hx Hl].
    cbn [List.filter]. rewrite Hx. cbn. now rewrite IH. }
  rewrite Hfiles, Hflag.
  destruct args as [|a [|b rest]]; cbn [length] in Hlen; try lia.
  replace (length (a :: b :: rest) <? 2) with false
    by (symmetry; apply Nat.ltb_ge; cbn; lia).
  cbv iota. unfold try_except. rewrite bind_p_isdir. fold dest.
  assert (Hguard : (1 <? length (map (fun a0 => _path_resolve a0 cwd)
                                    (removelast (a :: b :: rest))))
                   && negb (path_isdir h fs dest) = false).
  { destruct Hdest as [Hl | ->]; [|now rewrite andb_false_r].
    destruct rest; [reflexivity | cbn in Hl; lia]. }
  rewrite Hguard.
  change (removelast (a :: b :: rest)) with (a :: removelast (b :: rest)).
  cbn [map cp_loop andb]. subst s. cbn [hd] in Hs |- *.
  rewrite bind_p_exists, (stat_dir_exists _ _ _ Hs). cbn [negb].
  rewrite bind_p_isdir, Hs. reflexivity.
Qed.

Lemma cp_directory_needs_flag_witness :
  run host0 "cp src new" (Some "/w") fs_work
  = Ret ("", "cp: -r not specified; omitting directory '" +:+ "/w/src" +:+ "'" +:+ nl,
         Some "/w", 1%Z) fs_work.
Proof.
  apply (cp_directory_needs_flag host0 "cp src new" "/w" ["src"; "new"] fs_work);
    try reflexivity.
  now left.
Defined.

(** [mv] of a source that does not exist answers with exit code 1 and the
    resolved path of the source in its message; nothing is moved. *)
Lemma mv_missing_source (h : Host) (raw cwd a b : string) (fs : node) :
  shlex_split (strip raw) = inr ["mv"; a; b] ->
  path_exists h fs (_path_resolve a cwd) = false ->
  run h raw (Some cwd) fs
  = Ret ("", "mv: cannot stat '" +:+ _path_resolve a cwd
             +:+ "': No such file or directory" +:+ nl, Some cwd, 1%Z) fs.
Proof.
  intros Htok Hmiss. rewrite (run_tokens _ _ _ _ _ _ Htok).
  change (dispatch h "mv" [a; b] cwd) with (_mv h [a; b] cwd).
  unfold _mv, try_except. cbn [length Nat.ltb Nat.leb removelast map List.last].
  rewrite bind_p_isdir. cbn [andb mv_loop].
  rewrite bind_p_exists, Hmiss. reflexivity.
Qed.

Lemma mv_missing_source_witness :
  run host0 "mv nothing f" (Some "/w") fs_work
  = Ret ("", "mv: cannot stat '" +:+ "/w/nothing"
             +:+ "': No such file or directory" +:+ nl, Some "/w", 1%Z) fs_work.
Proof.
  apply (mv_missing_source host0 "mv nothing f" "/w" "nothing" "f" fs_work);
    reflexivity.
Defined.

(** ** Reading files: cat, head and tail *)

Lemma cat_loop_files h cwd fs : forall args contents acc,
  Forall2 (fun a c => stat h fs (_path_resolve a cwd) = Some (File c)) args contents ->
  cat_loop h args cwd acc fs
  = Ret (String.concat nl (acc ++ map universal_newlines contents), "", Some cwd, 0%Z) fs.
Proof.
  intros args contents acc H. revert acc.
  induction H as [|a c args contents Ha _ IH]; intros acc.
  - cbn [cat_loop map]. now rewrite app_nil_r.
  - cbn [cat_loop map]. rewrite bind_p_exists. unfold path_exists. rewrite Ha. cbn [negb].
    rewrite bind_p_isdir. unfold path_isdir. rewrite Ha. cbn [is_dir_node].
    unfold bind at 1. rewrite (read_text_file _ _ _ _ Ha).
    rewrite IH, <- app_assoc. reflexivity.
Qed.

Lemma cat_loop_stops h cwd fs a rest : forall pre contents acc,
  Forall2 (fun a c => stat h fs (_path_resolve a cwd) = Some (File c)) pre contents ->
  path_isfile h fs (_path_resolve a cwd) = false ->
  cat_loop h (pre ++ a :: rest) cwd acc fs
  = Ret ("", "cat: " +:+ a +:+ ": "
             +:+ (if path_exists h fs (_path_resolve a cwd)
                  then "Is a directory" else "No such file or directory") +:+ nl,
         Some cwd, 1%Z) fs.
Proof.
  intros pre contents acc H Hnf. revert acc.
  induction H as [|b c pre contents Hb _ IH]; intros acc.
  - cbn [app cat_loop]. rewrite bind_p_exists.
    unfold path_isfile, path_exists in *.
    destruct (stat h fs (_path_resolve a cwd)) as [[d|m]|] eqn:E;
      [discriminate| |reflexivity].
    cbn [negb]. rewrite bind_p_isdir. unfold path_isdir. rewrite E. reflexivity.
  - cbn [app cat_loop]. rewrite bind_p_exists. unfold path_exists at 1. rewrite Hb.
    cbn [negb]. rewrite bind_p_isdir. unfold path_isdir. rewrite Hb. cbn [is_dir_node].
    unfold bind at 1. rewrite (read_text_file _ _ _ _ Hb). apply IH.
Qed.

(** X10: [cat] of regular files prints their texts (line ends translated as
    text mode does) joined by one newline each, and adds no newline at the
    end. *)
Theorem cat_concatenates (h : Host) (raw cwd : string) (args contents : list string)
    (fs : node) :
  shlex_split (strip raw) = inr ("cat" :: args) ->
  args <> [] ->
  Forall2 (fun a c => stat h fs (_path_resolve a cwd) = Some (File c)) args contents ->
  run h raw (Some cwd) fs
  = Ret (String.concat nl (map universal_newlines contents), "", Some cwd, 0%Z) fs.
Proof.
  intros Htok Hne Hall. rewrite (run_tokens _ _ _ _ _ _ Htok).
  change (dispatch h "cat" args cwd) with (_cat h args cwd).
  unfold try_except, _cat. destruct args as [|a args]; [congruence|].
  now rewrite (cat_loop_files _ _ _ _ _ [] Hall).
Qed.

Lemma cat_concatenates_witness :
  run host0 "cat f f" (Some "/w") fs_work
  = Ret (String.concat nl (map universal_newlines ["data"; "data"]),
         "", Some "/w", 0%Z) fs_work.
Proof.
  apply (cat_concatenates host0 "cat f f" "/w" ["f"; "f"]
           ["data"; "data"] fs_work).
  - reflexivity.
  - discriminate.
  - repeat constructor.
Defined.

(** X11: [cat] answers only when every operand is a regular file: at the first
    one that is missing or a directory it gives exit code 1 and an empty
    stdout, so the texts of the files before it are not printed. *)
Theorem cat_stops_at_first_failure (h : Host) (raw cwd a : string)
    (pre rest contents : list string) (fs : node) :
  shlex_split (strip raw) = inr ("cat" :: pre ++ a :: rest) ->
  Forall2 (fun a c => stat h fs (_path_resolve a cwd) = Some (File c)) pre contents ->
  path_isfile h fs (_path_resolve a cwd) = false ->
  run h raw (Some cwd) fs
  = Ret ("", "cat: " +:+ a +:+ ": "
             +:+ (if path_exists h fs (_path_resolve a cwd)
                  then "Is a directory" else "No such file or directory") +:+ nl,
         Some cwd, 1%Z) fs.
Proof.
  intros Htok Hall Hnf. rewrite (run_tokens _ _ _ _ _ _ Htok).
  change (dispatch h "cat" (pre ++ a :: rest) cwd) with (_cat h (pre ++ a :: rest) cwd).
  replace (_cat h (pre ++ a :: rest) cwd) with (cat_loop h (pre ++ a :: rest) cwd [])
    by now destruct pre.
  unfold try_except. now rewrite (cat_loop_stops _ _ _ _ _ _ _ [] Hall Hnf).
Qed.

Lemma cat_stops_at_first_failure_witness :
  run host0 "cat f src f" (Some "/w") fs_work
  = Ret ("", "cat: " +:+ "src" +:+ ": " +:+ "Is a directory" +:+ nl,
         Some "/w", 1%Z) fs_work.
Proof.
  apply (cat_stops_at_first_failure host0 "cat f src f" "/w" "src" ["f"] ["f"]
           ["data"] fs_work).
  - reflexivity.
  - repeat constructor.
  - reflexivity.
Defined.

Lemma concat_empty_cons x l : String.concat "" (x :: l) = x +:+ String.concat "" l.
Proof. destruct l; cbn [String.concat]; [now rewrite str_app_nil_r | reflexivity]. Qed.

Lemma concat_empty_app l1 l2 :
  String.concat "" (l1 ++ l2) = String.concat "" l1 +:+ String.concat "" l2.
Proof.
  induction l1 as [|x l1 IH]; [reflexivity|].
  cbn [app]. now rewrite !concat_empty_cons, IH, str_app_assoc.
Qed.

Lemma concat_take_drop n l :
  String.concat "" (take n l) +:+ String.concat "" (drop n l) = String.concat "" l.
Proof. now rewrite <- concat_empty_app, take_drop. Qed.

Lemma split_lines_cons c s :
  split_lines (String c s)
  = if Ascii.eqb c (ascii_of_nat 10) then nl :: split_lines s
    else match split_lines s with
         | [] => [String c EmptyString]
         | l :: ls => match s with
                      | EmptyString => [String c EmptyString]
                      | _ => String c l :: ls
                      end
         end.
Proof. reflexivity. Qed.

Lemma count_nl_cons c s :
  count_nl (String c s) = (if Ascii.eqb c (ascii_of_nat 10) then 1 else 0) + count_nl s.
Proof. reflexivity. Qed.

Lemma count_nl_app a b : count_nl (a +:+ b) = count_nl a + count_nl b.
Proof.
  induction a as [|c a IH]; [reflexivity|].
  change (String c a +:+ b) with (String c (a +:+ b)).
  rewrite !count_nl_cons, IH. lia.
Qed.

Lemma full_line_cons c l :
  Ascii.eqb c (ascii_of_nat 10) = false -> full_line l -> full_line (String c l).
Proof.
  intros Hc (b & -> & Hb). exists (String c b). split; [reflexivity|].
  rewrite count_nl_cons, Hc, Hb. reflexivity.
Qed.

Lemma full_line_count l : full_line l -> count_nl l = 1.
Proof. intros (b & -> & Hb). rewrite count_nl_app, Hb. reflexivity. Qed.

(** The lines of a text, put together again, are the text. *)
Lemma split_lines_concat s : String.concat "" (split_lines s) = s.
Proof.
  induction s as [|c s IH]; [reflexivity|].
  rewrite split_lines_cons. destruct (Ascii.eqb_spec c (ascii_of_nat 10)) as [->|Hc].
  - rewrite concat_empty_cons, IH. reflexivity.
  - destruct (split_lines s) as [|l ls] eqn:E.
    + destruct s as [|d s]; [reflexivity|]. cbn in IH. discriminate.
    + destruct s as [|d s]; [discriminate|].
      rewrite concat_empty_cons in *. now rewrite <- IH.
Qed.

Lemma split_lines_ok s : lines_ok (split_lines s).
Proof.
  induction s as [|c s IH]; [exact I|].
  rewrite split_lines_cons. destruct (Ascii.eqb c (ascii_of_nat 10)) eqn:Hc.
  - assert (Hnl : full_line nl) by (now exists "").
    cbn [lines_ok]. destruct (split_lines s); [|now split].
    split; [discriminate | now right].
  - destruct (split_lines s) as [|l ls] eqn:E.
    + cbn. rewrite Hc. split; [discriminate | now left].
    + destruct s as [|d s]; [discriminate|].
      cbn [lines_ok] in *. destruct ls as [|l' ls].
      * destruct IH as [_ [H0|Hf]]; split; try discriminate.
        -- left. now rewrite count_nl_cons, Hc, H0.
        -- right. now apply full_line_cons.
      * destruct IH as [Hf Hok]. split; [now apply full_line_cons | exact Hok].
Qed.

Lemma lines_ok_tail l ls : lines_ok (l :: ls) -> lines_ok ls.
Proof. destruct ls as [|l' ls]; [constructor|]. now intros [_ H]. Qed.

Lemma lines_ok_head l ls : ls <> [] -> lines_ok (l :: ls) -> full_line l.
Proof. destruct ls as [|l' ls]; [congruence|]. now intros _ [H _]. Qed.

Lemma lines_ok_app l1 l2 :
  lines_ok (l1 ++ l2) -> l2 <> [] -> Forall full_line l1 /\ lines_ok l2.
Proof.
  intros H Hne. induction l1 as [|x l1 IH]; [now split|].
  cbn [app] in H. destruct (IH (lines_ok_tail _ _ H)) as [Hf Hok].
  split; [|exact Hok]. constructor; [|exact Hf].
  apply (lines_ok_head x (l1 ++ l2)); [|exact H].
  destruct l1; [exact Hne | discriminate].
Qed.

Lemma lines_len_le ls : lines_ok ls -> length ls <= count_nl (String.concat "" ls) + 1.
Proof.
  induction ls as [|l ls IH]; intros H; [cbn; lia|].
  destruct ls as [|l' ls]; [cbn; lia|].
  pose proof (lines_ok_head l (l' :: ls) ltac:(discriminate) H) as Hf.
  specialize (IH (lines_ok_tail _ _ H)).
  rewrite concat_empty_cons, count_nl_app, (full_line_count _ Hf).
  cbn [length] in *. lia.
Qed.

Lemma lines_count_le ls : lines_ok ls -> count_nl (String.concat "" ls) <= length ls.
Proof.
  induction ls as [|l ls IH]; intros H; [cbn; lia|].
  specialize (IH (lines_ok_tail _ _ H)).
  rewrite concat_empty_cons, count_nl_app. cbn [length].
  assert (count_nl l <= 1); [|lia].
  destruct ls as [|l' ls].
  - destruct H as [_ [->|Hf]]; [lia | now rewrite (full_line_count _ Hf)].
  - destruct H as [Hf _]. now rewrite (full_line_count _ Hf).
Qed.

(** The first [n] lines of a text with [n] newlines or more hold [n] of
    them and end with one. *)
Lemma lines_take_full : forall ls n,
  lines_ok ls -> 1 <= n -> n <= count_nl (String.concat "" ls) ->
  count_nl (String.concat "" (take n ls)) = n
  /\ exists b, String.concat "" (take n ls) = b +:+ nl.
Proof.
  induction ls as [|l ls IH]; intros n Hok H1 Hn; [cbn in Hn; lia|].
  destruct n as [|n]; [lia|]. cbn [take].
  rewrite concat_empty_cons in *. rewrite count_nl_app in *.
  destruct ls as [|l' ls].
  - rewrite take_nil. cbn [String.concat] in *. rewrite str_app_nil_r.
    change (count_nl "") with 0 in *.
    destruct Hok as [_ [H0|Hf]]; [lia|].
    rewrite (full_line_count _ Hf) in *.
    split; [lia|]. destruct Hf as (b & -> & _). now exists b.
  - pose proof (lines_ok_head l (l' :: ls) ltac:(discriminate) Hok) as Hf.
    rewrite (full_line_count _ Hf) in *.
    destruct n as [|n].
    + rewrite take_0. cbn [String.concat]. rewrite str_app_nil_r.
      split; [reflexivity|]. destruct Hf as (b & -> & _). now exists b.
    + destruct (IH (S n) (lines_ok_tail _ _ Hok)) as (Hc & b & Hb); [lia..|].
      rewrite Hc. split; [lia|]. rewrite Hb. exists (l +:+ b).
      now rewrite str_app_assoc.
Qed.

Lemma full_lines_end ls :
  Forall full_line ls -> ls <> [] -> exists b, String.concat "" ls = b +:+ nl.
Proof.
  induction 1 as [|l ls Hl Hls IH]; intros Hne; [congruence|].
  rewrite concat_empty_cons. destruct ls as [|l' ls].
  - cbn [String.concat]. rewrite str_app_nil_r. destruct Hl as (b & -> & _). now exists b.
  - destruct IH as [b Hb]; [discriminate|]. rewrite Hb. exists (l +:+ b).
    now rewrite str_app_assoc.
Qed.

Lemma split_full_line b x :
  count_nl b = 0 -> split_lines (b +:+ nl +:+ x) = (b +:+ nl) :: split_lines x.
Proof.
  induction b as [|c b IH]; intros Hb; [reflexivity|].
  rewrite count_nl_cons in Hb.
  destruct (Ascii.eqb c (ascii_of_nat 10)) eqn:Hc; [lia|].
  change (String c b +:+ nl +:+ x) with (String c (b +:+ nl +:+ x)).
  rewrite split_lines_cons, Hc, IH by lia.
  destruct b; reflexivity.
Qed.

Lemma split_last_line l : l <> "" -> count_nl l = 0 -> split_lines l = [l].
Proof.
  induction l as [|c l IH]; intros Hne H0; [congruence|].
  rewrite count_nl_cons in H0.
  destruct (Ascii.eqb c (ascii_of_nat 10)) eqn:Hc; [lia|].
  rewrite split_lines_cons, Hc. destruct l as [|d l]; [reflexivity|].
  rewrite IH by (discriminate || lia). reflexivity.
Qed.

(** Lines of the shape [readlines] gives are what [readlines] gives back
    for the text they make. *)
Lemma split_lines_of_lines ls : lines_ok ls -> split_lines (String.concat "" ls) = ls.
Proof.
  induction ls as [|l ls IH]; intros Hok; [reflexivity|].
  specialize (IH (lines_ok_tail _ _ Hok)). rewrite concat_empty_cons.
  destruct ls as [|l' ls].
  - cbn [String.concat]. rewrite str_app_nil_r.
    destruct Hok as [Hne [H0|(b & -> & Hb)]]; [now apply split_last_line|].
    rewrite <- (str_app_nil_r (b +:+ nl)) at 1. rewrite str_app_assoc.
    now rewrite split_full_line.
  - destruct Hok as [(b & -> & Hb) _].
    rewrite str_app_assoc, split_full_line by exact Hb. now rewrite IH.
Qed.

Lemma head_or_tail_file h name slice a rest cwd fs c :
  stat h fs (_path_resolve a cwd) = Some (File c) ->
  head_or_tail h name slice (a :: rest) cwd fs
  = Ret (String.concat "" (slice (split_lines (universal_newlines c))),
         "", Some cwd, 0%Z) fs.
Proof.
  intros Hc. unfold head_or_tail.
  rewrite bind_p_exists. unfold path_exists. rewrite Hc. cbn [negb].
  rewrite bind_p_isdir. unfold path_isdir. rewrite Hc. cbn [is_dir_node].
  unfold bind. now rewrite (read_text_file _ _ _ _ Hc).
Qed.

(** X12: [head] prints the text of its first operand up to and including the
    tenth newline, and all of it when there are fewer than ten; further
    operands are not looked at. *)
Theorem head_first_ten_lines (h : Host) (raw cwd a : string) (rest : list string)
    (fs : node) (c : string) :
  shlex_split (strip raw) = inr ("head" :: a :: rest) ->
  stat h fs (_path_resolve a cwd) = Some (File c) ->
  let text := universal_newlines c in
  exists out after,
    run h raw (Some cwd) fs = Ret (out, "", Some cwd, 0%Z) fs
    /\ text = out +:+ after
    /\ (count_nl text < 10 -> out = text)
    /\ (10 <= count_nl text -> count_nl out = 10 /\ exists b, out = b +:+ nl).
Proof.
  intros Htok Hc text. rewrite (run_tokens _ _ _ _ _ _ Htok).
  change (dispatch h "head" (a :: rest) cwd) with (_head h (a :: rest) cwd).
  unfold try_except, _head. rewrite (head_or_tail_file _ _ _ _ _ _ _ _ Hc).
  fold text. pose proof (split_lines_ok text) as Hok.
  pose proof (split_lines_concat text) as Hcat.
  exists (String.concat "" (take 10 (split_lines text))),
         (String.concat "" (drop 10 (split_lines text))).
  split; [reflexivity|]. split; [now rewrite concat_take_drop|]. split.
  - intros Hlt. pose proof (lines_len_le _ Hok) as Hlen. rewrite Hcat in Hlen.
    rewrite take_ge by lia. exact Hcat.
  - intros Hge. apply lines_take_full; [exact Hok | lia | now rewrite Hcat].
Qed.

Lemma head_first_ten_lines_witness :
  let text := universal_newlines "data" in
  exists out after,
    run host0 "head f" (Some "/w") fs_work = Ret (out, "", Some "/w", 0%Z) fs_work
    /\ text = out +:+ after
    /\ (count_nl text < 10 -> out = text)
    /\ (10 <= count_nl text -> count_nl out = 10 /\ exists b, out = b +:+ nl).
Proof.
  apply (head_first_ten_lines host0 "head f" "/w" "f" [] fs_work "data"); reflexivity.
Defined.

(** X13: [tail] prints the last ten lines of its first operand.  What it
    prints is a suffix of the text: all of it when the text has ten lines
    or fewer (so whenever it has fewer than ten newlines), and when the
    text has more than ten lines, exactly ten lines, the part cut off
    ending with a newline.  The lines of a text are as many as its
    newlines, and one more when text follows the last newline. *)
Theorem tail_last_ten_lines (h : Host) (raw cwd a : string) (rest : list string)
    (fs : node) (c : string) :
  shlex_split (strip raw) = inr ("tail" :: a :: rest) ->
  stat h fs (_path_resolve a cwd) = Some (File c) ->
  let text := universal_newlines c in
  let lines := split_lines text in
  exists before out,
    run h raw (Some cwd) fs = Ret (out, "", Some cwd, 0%Z) fs
    /\ text = before +:+ out
    /\ (length lines <= 10 -> before = "" /\ out = text)
    /\ (10 < length lines ->
        (exists b, before = b +:+ nl) /\ length (split_lines out) = 10)
    /\ (count_nl text < 10 -> out = text)
    /\ count_nl text <= length lines <= count_nl text + 1.
Proof.
  intros Htok Hc text lines. rewrite (run_tokens _ _ _ _ _ _ Htok).
  change (dispatch h "tail" (a :: rest) cwd) with (_tail h (a :: rest) cwd).
  unfold try_except, _tail. rewrite (head_or_tail_file _ _ _ _ _ _ _ _ Hc).
  fold text. fold lines. pose proof (split_lines_ok text) as Hok.
  pose proof (split_lines_concat text) as Hcat. fold lines in Hok, Hcat.
  pose proof (lines_len_le _ Hok) as Hlen. pose proof (lines_count_le _ Hok) as Hcnt.
  rewrite Hcat in Hlen, Hcnt.
  set (k := length lines - 10).
  exists (String.concat "" (take k lines)), (String.concat "" (drop k lines)).
  split; [reflexivity|]. split; [now rewrite concat_take_drop|].
  split; [|split; [|split; [|lia]]].
  - intros Hle. replace k with 0 by (unfold k; lia).
    now rewrite take_0, drop_0.
  - intros Hgt.
    assert (Hdrop : drop k lines <> []).
    { intros E. apply (f_equal length) in E. rewrite length_drop in E.
      cbn in E. unfold k in *. lia. }
    assert (Htake : take k lines <> []).
    { intros E. apply (f_equal length) in E. rewrite length_take in E.
      cbn in E. unfold k in *. lia. }
    rewrite <- (take_drop k lines) in Hok.
    destruct (lines_ok_app _ _ Hok Hdrop) as [Hfull Hrest]. split.
    + now apply full_lines_end.
    + rewrite split_lines_of_lines by exact Hrest. rewrite length_drop. unfold k. lia.
  - intros Hlt. replace k with 0 by (unfold k; lia). now rewrite drop_0.
Qed.

Lemma tail_last_ten_lines_witness :
  let text := universal_newlines twelve_lines in
  let lines := split_lines text in
  exists before out,
    run host0 "tail long" (Some "/w") fs_lines = Ret (out, "", Some "/w", 0%Z) fs_lines
    /\ text = before +:+ out
    /\ (length lines <= 10 -> before = "" /\ out = text)
    /\ (10 < length lines ->
        (exists b, before = b +:+ nl) /\ length (split_lines out) = 10)
    /\ (count_nl text < 10 -> out = text)
    /\ count_nl text <= length lines <= count_nl text + 1.
Proof.
  apply (tail_last_ten_lines host0 "tail long" "/w" "long" [] fs_lines twelve_lines);
    reflexivity.
Defined.

(** ** Listing a directory *)

Lemma ascii_compare_refl a : Ascii.compare a a = Eq.
Proof. unfold Ascii.compare. apply N.compare_refl. Qed.

Lemma ascii_compare_lt_trans a b c :
  Ascii.compare a b = Lt -> Ascii.compare b c = Lt -> Ascii.compare a c = Lt.
Proof. unfold Ascii.compare. rewrite !N.compare_lt_iff. lia. Qed.

Lemma str_compare_lt_trans : forall a b c,
  String.compare a b = Lt -> String.compare b c = Lt -> String.compare a c = Lt.
Proof.
  induction a as [|x a IH]; intros [|y b] [|z c]; cbn [String.compare];
    try discriminate; auto.
  destruct (Ascii.compare x y) eqn:E1; try discriminate;
    destruct (Ascii.compare y z) eqn:E2; try discriminate; intros H1 H2.
  - apply Ascii.compare_eq_iff in E1, E2. subst. rewrite ascii_compare_refl. eauto.
  - apply Ascii.compare_eq_iff in E1. subst. now rewrite E2.
  - apply Ascii.compare_eq_iff in E2. subst. now rewrite E1.
  - now rewrite (ascii_compare_lt_trans _ _ _ E1 E2).
Qed.

Lemma str_le_trans a b c : str_le a b -> str_le b c -> str_le a c.
Proof.
  unfold str_le, String.leb.
  destruct (String.compare a b) eqn:E1; try discriminate;
    destruct (String.compare b c) eqn:E2; try discriminate; intros _ _.
  - apply String.compare_eq_iff in E1. subst. now rewrite E2.
  - apply String.compare_eq_iff in E1. subst. now rewrite E2.
  - apply String.compare_eq_iff in E2. subst. now rewrite E1.
  - now rewrite (str_compare_lt_trans _ _ _ E1 E2).
Qed.

Lemma sorted_strs_spec l :
  StronglySorted str_le (sorted_strs l) /\ sorted_strs l ≡ₚ l.
Proof.
  split; [|apply merge_sort_Permutation].
  apply StronglySorted_merge_sort.
  - intros a b c. apply str_le_trans.
  - intros a b. apply String.leb_total.
Qed.

Lemma map_fst_fmap {A B} (l : list (A * B)) : map fst l = l.*1.
Proof. induction l as [|x l IH]; [reflexivity|]. cbn. now rewrite IH. Qed.

(** X14: [ls] of a directory, without "-l", prints one line: the names of the
    entries, each once, in ascending order of their code points, with two
    spaces between them; for an empty directory the line is empty. *)
Theorem ls_sorted_names (h : Host) (raw cwd target : string) (args : list string)
    (fs : node) (m : gmap string node) :
  shlex_split (strip raw) = inr ("ls" :: args) ->
  ls_target args cwd = (target, false) ->
  stat h fs target = Some (Dir m) ->
  exists names,
    run h raw (Some cwd) fs = Ret (String.concat "  " names +:+ nl, "", Some cwd, 0%Z) fs
    /\ StronglySorted str_le names
    /\ NoDup names
    /\ forall n, n ∈ names <-> is_Some (m !! n).
Proof.
  intros Htok Htarget Hstat. rewrite (run_tokens _ _ _ _ _ _ Htok).
  change (dispatch h "ls" args cwd) with (_ls h args cwd).
  unfold try_except, _ls. rewrite Htarget.
  rewrite bind_p_exists. unfold path_exists. rewrite Hstat. cbn [negb].
  rewrite bind_p_isfile. unfold path_isfile. rewrite Hstat. cbn [is_file_node].
  unfold bind, listdir. unfold stat in Hstat.
  destruct (resolve h fs target) as [e|q]; [discriminate|]. rewrite Hstat.
  destruct (sorted_strs_spec (map fst (map_to_list m))) as [Hsorted Hperm].
  exists (sorted_strs (map fst (map_to_list m))).
  split; [reflexivity|]. split; [exact Hsorted|].
  rewrite map_fst_fmap in Hperm. split.
  - rewrite Hperm. apply NoDup_fst_map_to_list.
  - intros n. rewrite Hperm, list_elem_of_fmap. split.
    + intros ([k v] & -> & Hin). apply elem_of_map_to_list in Hin. now exists v.
    + intros [v Hv]. exists (n, v). split; [reflexivity|]. now apply elem_of_map_to_list.
Qed.

Lemma ls_sorted_names_witness :
  exists names,
    run host0 "ls src" (Some "/w") fs_work
    = Ret (String.concat "  " names +:+ nl, "", Some "/w", 0%Z) fs_work
    /\ StronglySorted str_le names
    /\ NoDup names
    /\ forall n, n ∈ names <-> is_Some (src_entries !! n).
Proof.
  apply (ls_sorted_names host0 "ls src" "/w" "/w/src" ["src"] fs_work src_entries);
    reflexivity.
Defined.

(** X15: [ls] of a regular file prints the last component of its resolved path
    and nothing else, also with "-l": no size is shown. *)
Theorem ls_regular_file (h : Host) (raw cwd target c : string) (args : list string)
    (long_format : bool) (fs : node) :
  shlex_split (strip raw) = inr ("ls" :: args) ->
  ls_target args cwd = (target, long_format) ->
  isabs target = true -> normpath target = target ->
  stat h fs target = Some (File c) ->
  run h raw (Some cwd) fs
  = Ret (List.last (path_names target) "" +:+ nl, "", Some cwd, 0%Z) fs
  /\ path_names target <> [].
Proof.
  intros Htok Htarget Habs Hnorm Hstat. rewrite (run_tokens _ _ _ _ _ _ Htok).
  change (dispatch h "ls" args cwd) with (_ls h args cwd).
  unfold try_except, _ls. rewrite Htarget.
  rewrite bind_p_exists. unfold path_exists. rewrite Hstat. cbn [negb].
  rewrite bind_p_isfile. unfold path_isfile. rewrite Hstat. cbn [is_file_node].
  destruct (stat_abs_normal _ _ _ _ Habs Hnorm Hstat) as (_ & Hget & Hroot & _).
  destruct (basename_abs_normal target Habs Hnorm) as [[Hnil _]|(Hne & _ & ->)].
  - rewrite Hnil in Hget. cbn in Hget. injection Hget as ->. discriminate.
  - split; [reflexivity | exact Hne].
Qed.

Lemma ls_regular_file_witness :
  run host0 "ls -l f" (Some "/w") fs_work
  = Ret (List.last (path_names "/w/f") "" +:+ nl, "", Some "/w", 0%Z) fs_work
  /\ path_names "/w/f" <> [].
Proof.
  apply (ls_regular_file host0 "ls -l f" "/w" "/w/f" "data" ["-l"; "f"] true fs_work);
    reflexivity.
Defined.

(** ** Paths the executor hands to the file system *)

(** What [os.stat] finds at an absolute normal path is the node at its
    names. *)
Lemma stat_abs_normal_eq h fs q :
  isabs q = true -> normpath q = q -> is_dir_node (get fs []) = true ->
  stat h fs q = if has_nul q then None else get fs (path_names q).
Proof.
  intros Habs Hnorm Hroot.
  destruct (stat h fs q) as [x|] eqn:E.
  - destruct (stat_abs_normal _ _ _ _ Habs Hnorm E) as (_ & Hget & _ & ->). now rewrite Hget.
  - destruct (has_nul q) eqn:Hnul; [reflexivity|].
    destruct (get fs (path_names q)) as [x|] eqn:Hget; [|reflexivity].
    rewrite (stat_abs_normal_get _ _ _ _ Habs Hnorm Hnul Hroot Hget) in E. discriminate.
Qed.

Lemma stat_root_dir h fs q x :
  isabs q = true -> normpath q = q -> stat h fs q = Some x ->
  is_dir_node (get fs []) = true.
Proof. intros Habs Hnorm E. now destruct (stat_abs_normal _ _ _ _ Habs Hnorm E) as (_ & _ & H & _). Qed.

(** A change of the tree that keeps the root a directory and the nodes
    apart from [P] is not seen at the absolute normal paths apart from
    [P]. *)
Lemma stat_frame h fs fs' P :
  is_dir_node (get fs []) = true -> is_dir_node (get fs' []) = true ->
  (forall Q, diverge P Q -> get fs' Q = get fs Q) ->
  forall q, isabs q = true -> normpath q = q -> diverge P (path_names q) ->
            stat h fs' q = stat h fs q.
Proof.
  intros Hroot Hroot' Hframe q Habs Hnorm Hdiv.
  rewrite !stat_abs_normal_eq by assumption. now rewrite Hframe.
Qed.

Lemma get_dir_cons m c r :
  get (Dir m) (c :: r) = match m !! c with Some t' => get t' r | None => None end.
Proof. reflexivity. Qed.

Lemma del_dir_one m c : del (Dir m) [c] = Dir (delete c m).
Proof. reflexivity. Qed.

Lemma del_dir_cons m c c' p :
  del (Dir m) (c :: c' :: p) = Dir (alter (fun t' => del t' (c' :: p)) c m).
Proof. reflexivity. Qed.

Lemma del_file d p : del (File d) p = File d.
Proof. now destruct p as [|c [|c' p]]. Qed.

Lemma get_del_same t p : p <> [] -> get (del t p) p = None.
Proof.
  revert t. induction p as [|c p IH]; intros t Hne; [congruence|].
  destruct t as [d|m]; [now rewrite del_file|].
  destruct p as [|c' p].
  - now rewrite del_dir_one, get_dir_cons, lookup_delete_eq.
  - rewrite del_dir_cons, get_dir_cons, lookup_alter_eq.
    destruct (m !! c) as [t'|]; cbn [fmap option_fmap option_map];
      [now apply IH | reflexivity].
Qed.

Lemma get_del_below t p k : p <> [] -> get (del t p) (p ++ k) = None.
Proof. intros Hne. now rewrite get_app, get_del_same. Qed.

Lemma get_del_diverge t p q : diverge p q -> get (del t p) q = get t q.
Proof.
  revert t q. induction p as [|a p IH]; intros t [|b q]; cbn [diverge]; try contradiction.
  destruct t as [d|m]; [now rewrite del_file|].
  destruct (decide (a = b)) as [->|Hne]; intros H.
  - destruct p as [|c' p]; [destruct q; contradiction|].
    rewrite del_dir_cons, !get_dir_cons, lookup_alter_eq.
    destruct (m !! b) as [t'|]; cbn [fmap option_fmap option_map];
      [now apply IH | reflexivity].
  - destruct p as [|c' p].
    + now rewrite del_dir_one, !get_dir_cons, lookup_delete_ne.
    + now rewrite del_dir_cons, !get_dir_cons, lookup_alter_ne.
Qed.

Lemma del_root_dir t p :
  p <> [] -> is_dir_node (get t []) = true -> is_dir_node (get (del t p) []) = true.
Proof. destruct p as [|c [|c' p]]; [congruence| |]; now destruct t. Qed.

Lemma clear_prefix t r k : clear t (r ++ k) = true -> clear t r = true.
Proof.
  revert t. induction r as [|c r IH]; intros t; [reflexivity|]. cbn [app clear].
  destruct t as [|m]; [discriminate|]. destruct (m !! c); [apply IH | reflexivity].
Qed.

(** ** Making directories *)

Lemma mkdirs_walk_existing name names : forall cur fresh fs x,
  Forall (fun c => plain c = true) names ->
  names <> [] ->
  is_dir_node (get fs cur) = true ->
  get fs (cur ++ names) = Some x ->
  mkdirs_walk name cur fresh names fs = Ret (cur ++ names, false) fs.
Proof.
  induction names as [|c names IH]; intros cur fresh fs x Hp Hne Hcur Hx; [congruence|].
  inversion Hp as [|? ? Hc Hp']; subst.
  destruct (plain_step c Hc) as [Hd Hdd].
  rewrite mkdirs_walk_cons, Hd, Hdd.
  destruct (get fs cur) as [[|m]|] eqn:Ecur; try discriminate.
  replace (cur ++ c :: names) with ((cur ++ [c]) ++ names) in *
    by now rewrite <- app_assoc.
  destruct names as [|c' names'].
  - rewrite app_nil_r in *. now rewrite Hx.
  - destruct (get_prefix_some _ _ _ _ Hx) as [y Hy]. rewrite Hy.
    apply (IH _ _ _ x); try assumption; [discriminate|].
    eapply get_app_dir; [|exact Hx]. discriminate.
Qed.

(** [os.makedirs(p, exist_ok=False)] on an absolute normal path that
    exists: FileExistsError, and nothing is changed. *)
Lemma makedirs_existing h fs p x :
  isabs p = true -> normpath p = p ->
  stat h fs p = Some x ->
  makedirs h false p fs = Raise (OSError EEXIST p) fs.
Proof.
  intros Habs Hnorm Hx.
  destruct (stat_abs_normal _ _ _ _ Habs Hnorm Hx) as (_ & Hget & Hroot & Hnul).
  destruct (abs_normal_shape p Habs Hnorm) as (ini & Hini & Hp & _ & Hs).
  assert (Hemp : is_empty p = false) by (destruct p; [discriminate | reflexivity]).
  unfold makedirs. rewrite Hemp, Hnul. unfold start_of. rewrite Habs, Hs.
  unfold bind at 1. rewrite mkdirs_walk_empties by exact Hroot.
  destruct (path_names p) as [|c names] eqn:En.
  - cbn [tail_comps]. rewrite mkdirs_walk_cons. cbn [String.eqb orb].
    destruct (get fs []) as [[|m]|] eqn:E0; try discriminate.
    cbn [mkdirs_walk]. unfold bind, read_fs. rewrite E0. reflexivity.
  - cbn [tail_comps].
    rewrite (mkdirs_walk_existing p (c :: names) [] false fs x);
      try assumption; try discriminate.
    cbn [app]. unfold bind, read_fs. rewrite Hget. now destruct x.
Qed.

(** [os.makedirs(p, exist_ok=False)] on an absolute normal path that does
    not exist, with no regular file on the way: the directory is made,
    with the directories that lead to it. *)
Lemma makedirs_missing h fs p :
  isabs p = true -> normpath p = p -> has_nul p = false ->
  is_dir_node (get fs []) = true ->
  clear fs (path_names p) = true ->
  get fs (path_names p) = None ->
  makedirs h false p fs = Ret (path_names p) (put fs (path_names p) (Dir ∅)).
Proof.
  intros Habs Hnorm Hnul Hroot Hclear Hmiss.
  destruct (abs_normal_shape p Habs Hnorm) as (ini & Hini & Hp & _ & Hs).
  assert (Hemp : is_empty p = false) by (destruct p; [discriminate | reflexivity]).
  unfold makedirs. rewrite Hemp, Hnul. unfold start_of. rewrite Habs, Hs.
  unfold bind at 1. rewrite mkdirs_walk_empties by exact Hroot.
  destruct (path_names p) as [|c names] eqn:En; [discriminate|]. cbn [tail_comps].
  rewrite (mkdirs_walk_names p (c :: names) [] false fs);
    try assumption; [reflexivity | discriminate].
Qed.

Lemma stat_missing_get h fs p :
  isabs p = true -> normpath p = p -> has_nul p = false ->
  is_dir_node (get fs []) = true ->
  path_exists h fs p = false -> get fs (path_names p) = None.
Proof.
  intros Habs Hnorm Hnul Hroot. unfold path_exists.
  rewrite stat_abs_normal_eq, Hnul by assumption.
  now destruct (get fs (path_names p)).
Qed.

Lemma mkdir_loop_existing h a rest cwd fs :
  isabs cwd = true ->
  path_exists h fs (_path_resolve a cwd) = true ->
  mkdir_loop h (a :: rest) cwd fs
  = Ret ("", "mkdir: cannot create directory '" +:+ a +:+ "': File exists" +:+ nl,
         Some cwd, 1%Z) fs.
Proof.
  intros Hcwd Hex. destruct (path_resolve_abs_normal a cwd Hcwd) as [Habs Hnorm].
  unfold path_exists in Hex.
  destruct (stat h fs (_path_resolve a cwd)) as [x|] eqn:Hx; [|discriminate].
  cbn [mkdir_loop]. unfold bind at 1, try_except, bind at 1.
  rewrite (makedirs_existing _ _ _ _ Habs Hnorm Hx). reflexivity.
Qed.

Lemma mkdir_loop_creates h a cwd fs :
  isabs cwd = true ->
  has_nul (_path_resolve a cwd) = false ->
  is_dir_node (get fs []) = true ->
  clear fs (path_names (_path_resolve a cwd)) = true ->
  path_exists h fs (_path_resolve a cwd) = false ->
  mkdir_loop h [a] cwd fs
  = Ret ("", "", Some cwd, 0%Z) (put fs (path_names (_path_resolve a cwd)) (Dir ∅)).
Proof.
  intros Hcwd Hnul Hroot Hclear Hmiss.
  destruct (path_resolve_abs_normal a cwd Hcwd) as [Habs Hnorm].
  pose proof (stat_missing_get _ _ _ Habs Hnorm Hnul Hroot Hmiss) as Hget.
  cbn [mkdir_loop]. unfold bind at 1, try_except, bind at 1.
  rewrite (makedirs_missing _ _ _ Habs Hnorm Hnul Hroot Hclear Hget). reflexivity.
Qed.

(** X16: with an absolute working directory and a root that is a
    directory, [mkdir] of a path that does not exist, holds no NUL
    character and has no regular file on the way makes the directory, and
    the directories leading to it that are missing: the new directory is
    empty, and what lies apart from it is as before. *)
Theorem mkdir_creates (h : Host) (raw cwd a : string) (fs : node) :
  shlex_split (strip raw) = inr ["mkdir"; a] ->
  isabs cwd = true ->
  let p := _path_resolve a cwd in
  has_nul p = false ->
  is_dir_node (get fs []) = true ->
  clear fs (path_names p) = true ->
  path_exists h fs p = false ->
  exists fs',
    run h raw (Some cwd) fs = Ret ("", "", Some cwd, 0%Z) fs'
    /\ stat h fs' p = Some (Dir ∅)
    /\ forall q, isabs q = true -> normpath q = q ->
                 diverge (path_names p) (path_names q) ->
                 stat h fs' q = stat h fs q.
Proof.
  intros Htok Hcwd p Hnul Hroot Hclear Hmiss.
  destruct (path_resolve_abs_normal a cwd Hcwd) as [Habs Hnorm]. fold p in Habs, Hnorm.
  pose proof (stat_missing_get _ _ _ Habs Hnorm Hnul Hroot Hmiss) as Hget.
  assert (Hne : path_names p <> []).
  { intros E. rewrite E in Hget. discriminate. }
  exists (put fs (path_names p) (Dir ∅)).
  assert (Hroot' : is_dir_node (get (put fs (path_names p) (Dir ∅)) []) = true)
    by now apply put_root_dir.
  split; [|split].
  - rewrite (run_tokens _ _ _ _ _ _ Htok).
    change (dispatch h "mkdir" [a] cwd) with (mkdir_loop h [a] cwd).
    unfold try_except. now rewrite mkdir_loop_creates.
  - apply stat_abs_normal_get; try assumption. now apply get_put_same.
  - apply stat_frame; try assumption. intros Q HQ. now apply get_put_diverge.
Qed.

Lemma mkdir_creates_witness :
  exists fs',
    run host0 "mkdir new/sub" (Some "/w") fs_work = Ret ("", "", Some "/w", 0%Z) fs'
    /\ stat host0 fs' "/w/new/sub" = Some (Dir ∅)
    /\ forall q, isabs q = true -> normpath q = q ->
                 diverge (path_names "/w/new/sub") (path_names q) ->
                 stat host0 fs' q = stat host0 fs_work q.
Proof.
  apply (mkdir_creates host0 "mkdir new/sub" "/w" "new/sub" fs_work); reflexivity.
Defined.

(** X17: [mkdir] of a path that exists, be it a file or a directory, answers
    "File exists" with exit code 1; nothing is made, and the operands
    after it are not looked at. *)
Theorem mkdir_existing (h : Host) (raw cwd a : string) (rest : list string)
    (fs : node) :
  shlex_split (strip raw) = inr ("mkdir" :: a :: rest) ->
  isabs cwd = true ->
  path_exists h fs (_path_resolve a cwd) = true ->
  run h raw (Some cwd) fs
  = Ret ("", "mkdir: cannot create directory '" +:+ a +:+ "': File exists" +:+ nl,
         Some cwd, 1%Z) fs.
Proof.
  intros Htok Hcwd Hex. rewrite (run_tokens _ _ _ _ _ _ Htok).
  change (dispatch h "mkdir" (a :: rest) cwd) with (mkdir_loop h (a :: rest) cwd).
  unfold try_except. now rewrite mkdir_loop_existing.
Qed.

Lemma mkdir_existing_witness :
  run host0 "mkdir f new" (Some "/w") fs_work
  = Ret ("", "mkdir: cannot create directory '" +:+ "f" +:+ "': File exists" +:+ nl,
         Some "/w", 1%Z) fs_work.
Proof.
  apply (mkdir_existing host0 "mkdir f new" "/w" "f" ["new"] fs_work); reflexivity.
Defined.

(** [mkdir] is not idempotent: the second of two equal [mkdir] commands
    answers "File exists" and leaves what the first one made. *)
Lemma mkdir_twice (h : Host) (raw cwd a : string) (fs : node) :
  shlex_split (strip raw) = inr ["mkdir"; a] ->
  isabs cwd = true ->
  let p := _path_resolve a cwd in
  has_nul p = false ->
  is_dir_node (get fs []) = true ->
  clear fs (path_names p) = true ->
  path_exists h fs p = false ->
  exists fs',
    run h raw (Some cwd) fs = Ret ("", "", Some cwd, 0%Z) fs'
    /\ run h raw (Some cwd) fs'
       = Ret ("", "mkdir: cannot create directory '" +:+ a +:+ "': File exists" +:+ nl,
              Some cwd, 1%Z) fs'.
Proof.
  intros Htok Hcwd p Hnul Hroot Hclear Hmiss.
  destruct (path_resolve_abs_normal a cwd Hcwd) as [Habs Hnorm]. fold p in Habs, Hnorm.
  pose proof (stat_missing_get _ _ _ Habs Hnorm Hnul Hroot Hmiss) as Hget.
  assert (Hne : path_names p <> []).
  { intros E. rewrite E in Hget. discriminate. }
  exists (put fs (path_names p) (Dir ∅)).
  rewrite !(run_tokens _ _ _ _ _ _ Htok).
  change (dispatch h "mkdir" [a] cwd) with (mkdir_loop h [a] cwd).
  unfold try_except. rewrite mkdir_loop_creates by assumption. split; [reflexivity|].
  rewrite mkdir_loop_existing; [reflexivity | exact Hcwd |].
  unfold path_exists. fold p.
  rewrite (stat_abs_normal_get h _ p (Dir ∅)); try assumption; [reflexivity| |].
  - now apply put_root_dir.
  - now apply get_put_same.
Qed.

Lemma mkdir_twice_witness :
  exists fs',
    run host0 "mkdir new" (Some "/w") fs_work = Ret ("", "", Some "/w", 0%Z) fs'
    /\ run host0 "mkdir new" (Some "/w") fs'
       = Ret ("", "mkdir: cannot create directory '" +:+ "new" +:+ "': File exists" +:+ nl,
              Some "/w", 1%Z) fs'.
Proof.
  apply (mkdir_twice host0 "mkdir new" "/w" "new" fs_work); reflexivity.
Defined.

(** ** Removing files and directories *)

(** What is left when the node at the names of [p] is taken out of the
    tree: nothing at [p] and below, and all that lies apart from [p]. *)
Lemma del_outcome h fs p :
  isabs p = true -> normpath p = p ->
  is_dir_node (get fs []) = true -> path_names p <> [] ->
  (forall q, isabs q = true -> normpath q = q ->
             path_names p `prefix_of` path_names q ->
             path_exists h (del fs (path_names p)) q = false)
  /\ (forall q, isabs q = true -> normpath q = q ->
                diverge (path_names p) (path_names q) ->
                stat h (del fs (path_names p)) q = stat h fs q).
Proof.
  intros Habs Hnorm Hroot Hne.
  assert (Hroot' : is_dir_node (get (del fs (path_names p)) []) = true)
    by now apply del_root_dir.
  split.
  - intros q Hq Hqn [k Hk]. unfold path_exists.
    rewrite stat_abs_normal_eq by assumption.
    destruct (has_nul q); [reflexivity|]. now rewrite Hk, get_del_below.
  - apply stat_frame; try assumption. intros Q HQ. now apply get_del_diverge.
Qed.

(** X18: [rm] of one path that exists, a regular file or, with a recursive
    flag among the arguments, a directory: the path and all below it are
    gone, and what lies apart from it is as before. *)
Theorem rm_removes (h : Host) (raw cwd a : string) (args : list string) (fs : node) :
  shlex_split (strip raw) = inr ("rm" :: args) ->
  List.filter (fun x => negb (is_rm_flag x)) args = [a] ->
  isabs cwd = true ->
  let p := _path_resolve a cwd in
  path_exists h fs p = true ->
  path_names p <> [] ->
  (path_isdir h fs p = true -> existsb is_rm_flag args = true) ->
  exists fs',
    run h raw (Some cwd) fs = Ret ("", "", Some cwd, 0%Z) fs'
    /\ (forall q, isabs q = true -> normpath q = q ->
                  path_names p `prefix_of` path_names q ->
                  path_exists h fs' q = false)
    /\ (forall q, isabs q = true -> normpath q = q ->
                  diverge (path_names p) (path_names q) ->
                  stat h fs' q = stat h fs q).
Proof.
  intros Htok Hfiles Hcwd p Hex Hne Hflag.
  destruct (path_resolve_abs_normal a cwd Hcwd) as [Habs Hnorm]. fold p in Habs, Hnorm.
  unfold path_exists in Hex. destruct (stat h fs p) as [t|] eqn:Ht; [|discriminate].
  destruct (stat_abs_normal _ _ _ _ Habs Hnorm Ht) as (Hres & Hget & Hroot & _).
  exists (del fs (path_names p)). split; [|now apply del_outcome].
  rewrite (run_tokens _ _ _ _ _ _ Htok).
  change (dispatch h "rm" args cwd) with (_rm h args cwd).
  unfold try_except, _rm. rewrite Hfiles.
  destruct args as [|x args]; [discriminate|].
  cbn [rm_loop]. fold p. rewrite bind_p_exists. unfold path_exists. rewrite Ht. cbn [negb].
  rewrite bind_p_isdir. unfold path_isdir in *. rewrite Ht in *.
  destruct t as [d|m]; cbn [is_dir_node andb negb] in *.
  - unfold bind, remove. rewrite Hres, Hget. reflexivity.
  - rewrite (Hflag eq_refl). cbn [negb]. unfold bind, rmtree. rewrite Hres, Hget.
    destruct (path_names p); [congruence | reflexivity].
Qed.

Lemma rm_removes_witness :
  exists fs',
    run host0 "rm -r src" (Some "/w") fs_work = Ret ("", "", Some "/w", 0%Z) fs'
    /\ (forall q, isabs q = true -> normpath q = q ->
                  path_names "/w/src" `prefix_of` path_names q ->
                  path_exists host0 fs' q = false)
    /\ (forall q, isabs q = true -> normpath q = q ->
                  diverge (path_names "/w/src") (path_names q) ->
                  stat host0 fs' q = stat host0 fs_work q).
Proof.
  apply (rm_removes host0 "rm -r src" "/w" "src" ["-r"; "src"] fs_work);
    try reflexivity.
  vm_compute. discriminate.
Defined.

(** X19: [rmdir] of an empty directory takes it away and nothing else. *)
Theorem rmdir_removes (h : Host) (raw cwd a : string) (fs : node) :
  shlex_split (strip raw) = inr ["rmdir"; a] ->
  isabs cwd = true ->
  let p := _path_resolve a cwd in
  stat h fs p = Some (Dir ∅) ->
  path_names p <> [] ->
  exists fs',
    run h raw (Some cwd) fs = Ret ("", "", Some cwd, 0%Z) fs'
    /\ path_exists h fs' p = false
    /\ (forall q, isabs q = true -> normpath q = q ->
                  diverge (path_names p) (path_names q) ->
                  stat h fs' q = stat h fs q).
Proof.
  intros Htok Hcwd p Ht Hne.
  destruct (path_resolve_abs_normal a cwd Hcwd) as [Habs Hnorm]. fold p in Habs, Hnorm.
  destruct (stat_abs_normal _ _ _ _ Habs Hnorm Ht) as (Hres & Hget & Hroot & _).
  destruct (del_outcome h fs p Habs Hnorm Hroot Hne) as [Hgone Hframe].
  exists (del fs (path_names p)). split; [|split; [|exact Hframe]].
  - rewrite (run_tokens _ _ _ _ _ _ Htok).
    change (dispatch h "rmdir" [a] cwd) with (rmdir_loop h [a] cwd).
    unfold try_except. cbn [rmdir_loop]. fold p.
    rewrite bind_p_exists. unfold path_exists. rewrite Ht. cbn [negb].
    rewrite bind_p_isdir. unfold path_isdir. rewrite Ht. cbn [negb is_dir_node].
    unfold bind at 1, try_except, bind at 1, rmdir. rewrite Hres, Hget.
    change (is_empty_map ∅) with true. cbn [negb].
    destruct (path_names p); [congruence | reflexivity].
  - apply Hgone; [assumption..|]. reflexivity.
Qed.

Lemma rmdir_removes_witness :
  exists fs',
    run host0 "rmdir /home/u" (Some "/w") fs_work = Ret ("", "", Some "/w", 0%Z) fs'
    /\ path_exists host0 fs' "/home/u" = false
    /\ (forall q, isabs q = true -> normpath q = q ->
                  diverge (path_names "/home/u") (path_names q) ->
                  stat host0 fs' q = stat host0 fs_work q).
Proof.
  apply (rmdir_removes host0 "rmdir /home/u" "/w" "/home/u" fs_work);
    try reflexivity.
  vm_compute. discriminate.
Defined.

(** ** Writing one file *)

Lemma resolve_abs_normal h fs p q :
  isabs p = true -> normpath p = p ->
  resolve h fs p = inr q ->
  q = path_names p /\ is_dir_node (get fs []) = true /\ has_nul p = false.
Proof.
  intros Habs Hnorm. destruct (abs_normal_shape p Habs Hnorm) as (ini & Hini & Hp & _ & Hs).
  unfold resolve, start_of. rewrite Habs, Hs.
  destruct (is_empty p); [discriminate|]. destruct (has_nul p); [discriminate|].
  destruct (walk fs [] _) as [k|q'] eqn:Ew; [discriminate|]. intros [= <-].
  assert (Hroot : is_dir_node (get fs []) = true).
  { destruct Hini as [-> | ->]; cbn [repeat app] in Ew;
      exact (walk_starts_in_dir _ _ _ _ _ Ew). }
  rewrite walk_empties in Ew by exact Hroot.
  split; [|now split]. now apply walk_tail_inr in Ew.
Qed.

Lemma file_below_missing t p k d : get t p = Some (File d) -> k <> [] -> get t (p ++ k) = None.
Proof. intros H Hk. rewrite get_app, H. now destruct k. Qed.

(** A regular file and another path that can be written lie apart. *)
Lemma file_apart fs S D d :
  get fs S = Some (File d) -> clear fs D = true ->
  is_dir_node (get fs D) = false -> S <> D -> diverge D S.
Proof.
  intros HS Hclear HD Hne.
  destruct (diverge_or_prefix D S) as [H|[[k ->]|[k ->]]]; [exact H| |].
  - destruct k as [|c k]; [now rewrite app_nil_r in Hne|].
    now rewrite (get_app_dir fs D (c :: k) _ ltac:(discriminate) HS) in HD.
  - destruct k as [|c k]; [now rewrite app_nil_r in Hne|].
    rewrite (clear_app _ _ _ _ HS) in Hclear. discriminate.
Qed.

(** Opening an absolute normal path for writing when that can be done:
    the file holds the data (after what it held, in append mode), and
    what lies apart from it is as before. *)
Lemma write_outcome h fs p data (append : bool) :
  isabs p = true -> normpath p = p ->
  can_write h fs p = true ->
  exists old : string,
    let fs' := put fs (path_names p) (File (if append then old +:+ data else data)) in
    write_raw h append p data fs = Ret tt fs'
    /\ stat h fs' p = Some (File (if append then old +:+ data else data))
    /\ (stat h fs p = None -> old = "")
    /\ (forall o, stat h fs p = Some (File o) -> old = o)
    /\ is_dir_node (get fs' []) = true
    /\ clear fs (path_names p) = true
    /\ is_dir_node (get fs (path_names p)) = false
    /\ (forall q, isabs q = true -> normpath q = q ->
                  diverge (path_names p) (path_names q) ->
                  stat h fs' q = stat h fs q).
Proof.
  intros Habs Hnorm Hw. unfold can_write in Hw.
  destruct (resolve h fs p) as [e|P] eqn:Hres; [discriminate|].
  destruct (resolve_abs_normal _ _ _ _ Habs Hnorm Hres) as (-> & Hroot & Hnul).
  apply negb_true_iff in Hw.
  assert (Hres' := Hres). unfold resolve in Hres'.
  destruct (is_empty p); [discriminate|]. rewrite Hnul in Hres'.
  destruct (walk fs (start_of h p) (split_slash p)) as [k|q] eqn:Ew; [discriminate|].
  injection Hres' as ->.
  destruct (walk_target _ _ _ _ (split_slash_nonempty p) Ew Hw) as (p0 & c & HP & Hp0).
  assert (Hclear : clear fs (path_names p) = true) by (rewrite HP; now apply clear_parent).
  assert (Hne : path_names p <> []) by (rewrite HP; now destruct p0).
  exists (match get fs (path_names p) with Some (File o) => o | _ => "" end).
  cbv zeta.
  set (new := if append then _ else data).
  assert (Hroot' : is_dir_node (get (put fs (path_names p) (File new)) []) = true)
    by now apply put_root_dir.
  split; [|split; [|split; [|split; [|split; [|split; [|split]]]]]];
    try assumption.
  - unfold write_raw. rewrite Hres. subst new.
    destruct (get fs (path_names p)) as [[o|m]|]; try discriminate; now destruct append.
  - apply stat_abs_normal_get; try assumption. now apply get_put_same.
  - unfold stat. rewrite Hres. now intros ->.
  - unfold stat. rewrite Hres. now intros o ->.
  - apply stat_frame; try assumption. intros Q HQ. now apply get_put_diverge.
Qed.

Lemma stat_file_can_write h fs p d : stat h fs p = Some (File d) -> can_write h fs p = true.
Proof.
  unfold stat, can_write. destruct (resolve h fs p); [discriminate|]. now intros ->.
Qed.

(** X20: An [echo] redirection changes the one file it names: with ">" or ">>"
    as the operator in use and a file that can be written, what lies apart
    from that file is as before. *)
Theorem echo_redirect_frame (h : Host) (raw cwd tgt op : string)
    (pre post : list string) (fs : node) :
  shlex_split (strip raw) = inr ("echo" :: pre ++ op :: tgt :: post) ->
  (op = ">" /\ mem_str ">" pre = false
   \/ op = ">>" /\ mem_str ">" pre = false /\ mem_str ">>" pre = false
      /\ mem_str ">" post = false /\ tgt <> ">") ->
  isabs cwd = true ->
  let file := _path_resolve tgt cwd in
  can_write h fs file = true ->
  exists fs',
    run h raw (Some cwd) fs = Ret ("", "", Some cwd, 0%Z) fs'
    /\ forall q, isabs q = true -> normpath q = q ->
                 diverge (path_names file) (path_names q) ->
                 stat h fs' q = stat h fs q.
Proof.
  intros Htok Hop Hcwd file Hw.
  destruct (path_resolve_abs_normal tgt cwd Hcwd) as [Habs Hnorm]. fold file in Habs, Hnorm.
  rewrite (run_tokens _ _ _ _ _ _ Htok).
  change (dispatch h "echo" (pre ++ op :: tgt :: post) cwd)
    with (_echo h (pre ++ op :: tgt :: post) cwd).
  unfold try_except at 1.
  destruct Hop as [[-> Hpre] | (-> & Hgt & Hpre & Hpost & Htgt)].
  - destruct (write_outcome h fs file (String.concat " " pre +:+ nl) false Habs Hnorm Hw)
      as (old & Ew & _ & _ & _ & _ & _ & _ & Hframe).
    eexists. split; [|exact Hframe].
    unfold _echo. rewrite !mem_str_app, !mem_str_here, !orb_true_r.
    rewrite (echo_redirect_target h ">" false pre tgt post cwd fs Hpre).
    unfold redirected. fold file. now rewrite Ew.
  - destruct (write_outcome h fs file (String.concat " " pre +:+ nl) true Habs Hnorm Hw)
      as (old & Ew & _ & _ & _ & _ & _ & _ & Hframe).
    eexists. split; [|exact Hframe].
    unfold _echo.
    assert (Hno : mem_str ">" (pre ++ ">>" :: tgt :: post) = false).
    { rewrite mem_str_app, Hgt. unfold mem_str in *. cbn [existsb orb].
      apply String.eqb_neq in Htgt. rewrite String.eqb_sym in Htgt.
      rewrite Htgt, Hpost. reflexivity. }
    rewrite Hno, !mem_str_app, !mem_str_here, !orb_true_r.
    rewrite (echo_redirect_target h ">>" true pre tgt post cwd fs Hpre).
    unfold redirected. fold file. now rewrite Ew.
Qed.

Lemma echo_redirect_frame_witness :
  exists fs',
    run host0 "echo hi > f" (Some "/w") fs_work = Ret ("", "", Some "/w", 0%Z) fs'
    /\ forall q, isabs q = true -> normpath q = q ->
                 diverge (path_names "/w/f") (path_names q) ->
                 stat host0 fs' q = stat host0 fs_work q.
Proof.
  apply (echo_redirect_frame host0 "echo hi > f" "/w" "f" ">" ["hi"] [] fs_work);
    try reflexivity.
  left. now split.
Defined.

Lemma run_echo_gt h raw cwd tgt pre post fs :
  shlex_split (strip raw) = inr ("echo" :: pre ++ ">" :: tgt :: post) ->
  mem_str ">" pre = false ->
  run h raw (Some cwd) fs = redirected h false pre tgt cwd fs.
Proof.
  intros Htok Hpre. rewrite (run_tokens _ _ _ _ _ _ Htok).
  change (dispatch h "echo" ?l cwd) with (_echo h l cwd).
  unfold _echo. rewrite !mem_str_app, !mem_str_here, !orb_true_r.
  unfold try_except at 1.
  rewrite (echo_redirect_target h ">" false pre tgt post cwd fs Hpre).
  unfold redirected. now destruct (write_raw _ _ _ _ fs).
Qed.

Lemma run_echo_gtgt h raw cwd tgt pre post fs :
  shlex_split (strip raw) = inr ("echo" :: pre ++ ">>" :: tgt :: post) ->
  mem_str ">" pre = false -> mem_str ">>" pre = false ->
  mem_str ">" post = false -> tgt <> ">" ->
  run h raw (Some cwd) fs = redirected h true pre tgt cwd fs.
Proof.
  intros Htok Hgt Hpre Hpost Htgt. rewrite (run_tokens _ _ _ _ _ _ Htok).
  change (dispatch h "echo" ?l cwd) with (_echo h l cwd).
  assert (Hno : mem_str ">" (pre ++ ">>" :: tgt :: post) = false).
  { rewrite mem_str_app, Hgt. unfold mem_str in *. cbn [existsb orb].
    apply String.eqb_neq in Htgt. rewrite String.eqb_sym in Htgt.
    rewrite Htgt, Hpost. reflexivity. }
  unfold _echo. rewrite Hno, !mem_str_app, !mem_str_here, !orb_true_r.
  unfold try_except at 1.
  rewrite (echo_redirect_target h ">>" true pre tgt post cwd fs Hpre).
  unfold redirected. now destruct (write_raw _ _ _ _ fs).
Qed.

(** X21: Two redirections in a row: after [echo words > file] and then
    [echo more >> file] the file holds the first line followed by the
    second, whatever it held before. *)
Theorem echo_write_then_append (h : Host) (raw1 raw2 cwd tgt : string)
    (pre1 pre2 : list string) (fs : node) :
  shlex_split (strip raw1) = inr ("echo" :: pre1 ++ [">"; tgt]) ->
  shlex_split (strip raw2) = inr ("echo" :: pre2 ++ [">>"; tgt]) ->
  mem_str ">" pre1 = false ->
  mem_str ">" pre2 = false -> mem_str ">>" pre2 = false -> tgt <> ">" ->
  let file := _path_resolve tgt cwd in
  can_write h fs file = true ->
  exists fs1 fs2,
    run h raw1 (Some cwd) fs = Ret ("", "", Some cwd, 0%Z) fs1
    /\ run h raw2 (Some cwd) fs1 = Ret ("", "", Some cwd, 0%Z) fs2
    /\ stat h fs2 file
       = Some (File ((String.concat " " pre1 +:+ nl) +:+ (String.concat " " pre2 +:+ nl))).
Proof.
  intros Htok1 Htok2 Hpre1 Hgt2 Hpre2 Htgt file Hw.
  destruct (write_then_stat h fs file (String.concat " " pre1 +:+ nl) false Hw)
    as (fs1 & old1 & Ew1 & Es1 & _).
  destruct (write_then_stat h fs1 file (String.concat " " pre2 +:+ nl) true
              (stat_file_can_write _ _ _ _ Es1))
    as (fs2 & old2 & Ew2 & Es2 & _ & Hold).
  exists fs1, fs2. split; [|split].
  - rewrite (run_echo_gt _ _ _ _ _ _ _ Htok1 Hpre1). now apply redirected_written.
  - rewrite (run_echo_gtgt _ _ _ _ _ _ _ Htok2 Hgt2 Hpre2 eq_refl Htgt).
    now apply redirected_written.
  - rewrite Es2. now rewrite (Hold _ Es1).
Qed.

Lemma echo_write_then_append_witness :
  exists fs1 fs2,
    run host0 "echo a b > f" (Some "/w") fs_work = Ret ("", "", Some "/w", 0%Z) fs1
    /\ run host0 "echo c >> f" (Some "/w") fs1 = Ret ("", "", Some "/w", 0%Z) fs2
    /\ stat host0 fs2 (_path_resolve "f" "/w")
       = Some (File ((String.concat " " ["a"; "b"] +:+ nl)
                     +:+ (String.concat " " ["c"] +:+ nl))).
Proof.
  apply (echo_write_then_append host0 "echo a b > f" "echo c >> f" "/w" "f"
           ["a"; "b"] ["c"] fs_work); try reflexivity.
  discriminate.
Defined.

(** ** Copying *)

Lemma can_write_not_dir h fs p : can_write h fs p = true -> path_isdir h fs p = false.
Proof.
  unfold can_write, path_isdir, stat. destruct (resolve h fs p); [discriminate|].
  now intros ->%negb_true_iff.
Qed.

Lemma cp_two_files h a b cwd :
  a <> "-r" -> b <> "-r" ->
  _cp h [a; b] cwd
  = let! d := p_isdir h (_path_resolve b cwd) in
    try_except (cp_loop h false [_path_resolve a cwd] (_path_resolve b cwd) cwd)
      any_Exception
      (fun e => ret ("", "cp error: " +:+ exn_msg e +:+ nl, Some cwd, 1%Z)).
Proof.
  intros Ha%String.eqb_neq Hb%String.eqb_neq. unfold _cp.
  cbn [length Nat.ltb Nat.leb existsb List.filter]. rewrite Ha, Hb.
  reflexivity.
Qed.

(** X22: [cp] of a regular file to a path that is another file or does not
    exist yet in an existing directory: the destination holds the text of
    the source, the source is as it was, and so is what lies apart from
    the destination. *)
Theorem cp_file_copies (h : Host) (raw cwd a b c : string) (fs : node) :
  shlex_split (strip raw) = inr ["cp"; a; b] ->
  a <> "-r" -> b <> "-r" ->
  isabs cwd = true ->
  let s := _path_resolve a cwd in
  let dest := _path_resolve b cwd in
  stat h fs s = Some (File c) ->
  can_write h fs dest = true ->
  path_names s <> path_names dest ->
  exists fs',
    run h raw (Some cwd) fs = Ret ("", "", Some cwd, 0%Z) fs'
    /\ stat h fs' dest = Some (File c)
    /\ stat h fs' s = Some (File c)
    /\ forall q, isabs q = true -> normpath q = q ->
                 diverge (path_names dest) (path_names q) ->
                 stat h fs' q = stat h fs q.
Proof.
  intros Htok Ha Hb Hcwd s dest Hs Hw Hne.
  destruct (path_resolve_abs_normal a cwd Hcwd) as [Hsabs Hsnorm]. fold s in Hsabs, Hsnorm.
  destruct (path_resolve_abs_normal b cwd Hcwd) as [Hdabs Hdnorm].
  fold dest in Hdabs, Hdnorm.
  destruct (stat_abs_normal _ _ _ _ Hsabs Hsnorm Hs) as (Hsres & Hsget & Hroot & _).
  destruct (write_outcome h fs dest c false Hdabs Hdnorm Hw)
    as (old & Ew & Es & _ & _ & _ & Hclear & Hnd & Hframe).
  cbv zeta in *.
  assert (Hdres : resolve h fs dest = inr (path_names dest)).
  { unfold can_write in Hw. destruct (resolve h fs dest) as [e|D] eqn:E; [discriminate|].
    now destruct (resolve_abs_normal _ _ _ _ Hdabs Hdnorm E) as [-> _]. }
  exists (put fs (path_names dest) (File c)).
  split; [|split; [exact Es | split; [|exact Hframe]]].
  - rewrite (run_tokens _ _ _ _ _ _ Htok), dispatch_cp, (cp_two_files _ _ _ _ Ha Hb).
    fold s. fold dest. unfold try_except at 1.
    rewrite bind_p_isdir. unfold try_except. cbn [cp_loop].
    rewrite bind_p_exists. unfold path_exists. rewrite Hs. cbn [negb].
    rewrite bind_p_isdir. unfold path_isdir at 1. rewrite Hs. cbn [is_dir_node].
    rewrite bind_p_isdir, (can_write_not_dir _ _ _ Hw).
    unfold bind at 1, copy2, bind at 1, read_fs.
    rewrite (can_write_not_dir _ _ _ Hw).
    unfold copyfile, bind at 1, read_fs, samefile. rewrite Hsres, Hdres.
    rewrite bool_decide_eq_false_2 by exact Hne. cbn [andb].
    unfold bind at 1, read_raw. rewrite Hsres, Hsget. rewrite Ew. reflexivity.
  - rewrite Hframe; [exact Hs | assumption..|].
    apply (file_apart fs _ _ c); try assumption. 
Qed.

Lemma cp_file_copies_witness :
  exists fs',
    run host0 "cp f g" (Some "/w") fs_work = Ret ("", "", Some "/w", 0%Z) fs'
    /\ stat host0 fs' (_path_resolve "g" "/w") = Some (File "data")
    /\ stat host0 fs' (_path_resolve "f" "/w") = Some (File "data")
    /\ forall q, isabs q = true -> normpath q = q ->
                 diverge (path_names (_path_resolve "g" "/w")) (path_names q) ->
                 stat host0 fs' q = stat host0 fs_work q.
Proof.
  apply (cp_file_copies host0 "cp f g" "/w" "f" "g" "data" fs_work);
    try reflexivity; discriminate.
Defined.

(** X23: [cp] of a regular file onto itself copies nothing: shutil refuses,
    and the answer is exit code 1 with a "cp error:" line that says the
    two are the same file. *)
Theorem cp_onto_itself (h : Host) (raw cwd a c : string) (fs : node) :
  shlex_split (strip raw) = inr ["cp"; a; a] ->
  a <> "-r" ->
  stat h fs (_path_resolve a cwd) = Some (File c) ->
  exists msg,
    run h raw (Some cwd) fs = Ret ("", "cp error: " +:+ msg +:+ nl, Some cwd, 1%Z) fs
    /\ contains "are the same file" msg = true.
Proof.
  intros Htok Ha Hs. set (s := _path_resolve a cwd) in *.
  exists ("'" +:+ s +:+ "' and '" +:+ s +:+ "' are the same file"). split.
  - rewrite (run_tokens _ _ _ _ _ _ Htok), dispatch_cp, (cp_two_files _ _ _ _ Ha Ha).
    fold s. unfold try_except at 1.
    rewrite bind_p_isdir. unfold try_except. cbn [cp_loop].
    rewrite bind_p_exists. unfold path_exists. rewrite Hs. cbn [negb].
    rewrite bind_p_isdir. unfold path_isdir at 1. rewrite Hs. cbn [is_dir_node].
    rewrite bind_p_isdir. unfold path_isdir at 1. rewrite Hs. cbn [is_dir_node].
    unfold bind at 1, copy2, bind at 1, read_fs.
    unfold path_isdir at 1. rewrite Hs. cbn [is_dir_node].
    unfold copyfile, bind at 1, read_fs, samefile.
    unfold stat in Hs. destruct (resolve h fs s) as [e|S]; [discriminate|].
    rewrite bool_decide_eq_true_2 by reflexivity. rewrite Hs. reflexivity.
  - do 4 apply contains_app_r.
    change "' are the same file" with ("' " +:+ ("are the same file" +:+ "")).
    apply contains_app_r, contains_here.
Qed.

Lemma cp_onto_itself_witness :
  exists msg,
    run host0 "cp f f" (Some "/w") fs_work
    = Ret ("", "cp error: " +:+ msg +:+ nl, Some "/w", 1%Z) fs_work
    /\ contains "are the same file" msg = true.
Proof.
  apply (cp_onto_itself host0 "cp f f" "/w" "f" "data" fs_work);
    [reflexivity | discriminate | reflexivity].
Defined.

(** [cp] counts its operands after the "-r" flags are taken out: with two
    or more sources left and a destination that is not an existing
    directory the answer is "cp: target is not a directory", exit code 1,
    and nothing is copied. *)
Lemma cp_many_to_non_directory (h : Host) (raw cwd : string)
    (args : list string) (fs : node) :
  shlex_split (strip raw) = inr ("cp" :: args) ->
  let files := List.filter (fun a => negb (String.eqb a "-r")) args in
  3 <= length files ->
  path_isdir h fs (_path_resolve (List.last files "") cwd) = false ->
  run h raw (Some cwd) fs
  = Ret ("", "cp: target is not a directory" +:+ nl, Some cwd, 1%Z) fs.
Proof.
  intros Htok files Hlen Hdest.
  rewrite (run_tokens _ _ _ _ _ _ Htok), dispatch_cp.
  unfold try_except, _cp. fold files.
  assert (Hargs : 3 <= length args).
  { etransitivity; [exact Hlen|]. apply List.filter_length_le. }
  replace (length args <? 2) with false by (symmetry; apply Nat.ltb_ge; lia).
  replace (length files <? 2) with false by (symmetry; apply Nat.ltb_ge; lia).
  rewrite bind_p_isdir, Hdest. rewrite length_map.
  replace (1 <? length (removelast files)) with true; [reflexivity|].
  symmetry. apply Nat.ltb_lt.
  destruct files as [|x [|y [|z l]]]; cbn [length] in Hlen; try lia.
  cbn [removelast length]. lia.
Qed.

Lemma cp_many_to_non_directory_witness :
  run host0 "cp -r f src f" (Some "/w") fs_work
  = Ret ("", "cp: target is not a directory" +:+ nl, Some "/w", 1%Z) fs_work.
Proof.
  apply (cp_many_to_non_directory host0 "cp -r f src f" "/w"
           ["-r"; "f"; "src"; "f"] fs_work); [reflexivity | cbn; lia | reflexivity].
Defined.

(** ** Moving *)

Lemma bind_read_fs {A B} (f : node -> A) (k : A -> M B) fs :
  bind (read_fs f) k fs = k (f fs) fs.
Proof. reflexivity. Qed.

(** What it takes for an absolute normal path to be open for writing. *)
Lemma can_write_facts h fs p :
  isabs p = true -> normpath p = p -> can_write h fs p = true ->
  resolve h fs p = inr (path_names p)
  /\ is_dir_node (get fs []) = true
  /\ has_nul p = false
  /\ path_names p <> []
  /\ clear fs (path_names p) = true
  /\ is_dir_node (get fs (path_names p)) = false.
Proof.
  intros Habs Hnorm Hw. unfold can_write in Hw.
  destruct (resolve h fs p) as [e|P] eqn:Hres; [discriminate|].
  destruct (resolve_abs_normal _ _ _ _ Habs Hnorm Hres) as (-> & Hroot & Hnul).
  apply negb_true_iff in Hw.
  assert (Hres' := Hres). unfold resolve in Hres'.
  destruct (is_empty p); [discriminate|]. rewrite Hnul in Hres'.
  destruct (walk fs (start_of h p) (split_slash p)) as [k|q] eqn:Ew; [discriminate|].
  injection Hres' as ->.
  destruct (walk_target _ _ _ _ (split_slash_nonempty p) Ew Hw) as (p0 & c & HP & Hp0).
  repeat split; try assumption.
  - rewrite HP. now destruct p0.
  - rewrite HP. now apply clear_parent.
Qed.

Lemma clear_del t p : forall q, clear t q = true -> clear (del t p) q = true.
Proof.
  revert t. induction p as [|c p IH]; intros t q Hq; [now destruct t|].
  destruct t as [d|m]; [now rewrite del_file|].
  destruct q as [|b q]; [reflexivity|]. cbn [clear] in Hq.
  destruct p as [|c' p].
  - rewrite del_dir_one. cbn [clear].
    destruct (decide (c = b)) as [->|Hne].
    + now rewrite lookup_delete_eq.
    + now rewrite lookup_delete_ne.
  - rewrite del_dir_cons. cbn [clear].
    destruct (decide (c = b)) as [->|Hne].
    + rewrite lookup_alter_eq. destruct (m !! b) as [t'|]; cbn; [now apply IH | reflexivity].
    + now rewrite lookup_alter_ne.
Qed.

(** [shutil.move] of an absolute normal path to another one that does
    not exist, in a directory that does: the node is renamed. *)
Lemma move_outcome h fs s dest t :
  isabs s = true -> normpath s = s ->
  isabs dest = true -> normpath dest = dest ->
  stat h fs s = Some t ->
  path_exists h fs dest = false ->
  can_write h fs dest = true ->
  ~ path_names s `prefix_of` path_names dest ->
  let fs' := put (del fs (path_names s)) (path_names dest) t in
  move h s dest fs = Ret tt fs'
  /\ stat h fs' dest = Some t
  /\ path_exists h fs' s = false
  /\ forall q, isabs q = true -> normpath q = q ->
               diverge (path_names s) (path_names q) ->
               diverge (path_names dest) (path_names q) ->
               stat h fs' q = stat h fs q.
Proof.
  intros Hsabs Hsnorm Hdabs Hdnorm Hs Hmiss Hw Hpre.
  destruct (stat_abs_normal _ _ _ _ Hsabs Hsnorm Hs) as (Hsres & Hsget & Hroot & Hsnul).
  destruct (can_write_facts _ _ _ Hdabs Hdnorm Hw)
    as (Hdres & _ & Hdnul & Hdne & Hclear & Hnd).
  set (S := path_names s) in *. set (D := path_names dest) in *.
  assert (Hdget : get fs D = None).
  { unfold path_exists, stat in Hmiss. rewrite Hdres in Hmiss.
    now destruct (get fs D). }
  assert (Hsne : S <> []).
  { intros E. apply Hpre. rewrite E. apply prefix_nil. }
  assert (Hdiv : diverge S D).
  { destruct (diverge_or_prefix S D) as [H|[H|[k Hk]]]; [exact H | contradiction |].
    destruct k as [|c k].
    - rewrite app_nil_r in Hk. rewrite Hk, Hdget in Hsget. discriminate.
    - rewrite Hk in Hsget. destruct (get_prefix_some _ _ _ _ Hsget) as [y Hy].
      rewrite Hdget in Hy. discriminate. }
  intros fs'.
  assert (Hroot' : is_dir_node (get fs' []) = true).
  { apply put_root_dir; [exact Hdne|]. now apply del_root_dir. }
  split; [|split; [|split]].
  - unfold move. rewrite bind_read_fs, (can_write_not_dir _ _ _ Hw).
    rewrite bind_read_fs. cbn [andb]. cbv zeta iota.
    rewrite bind_read_fs.
    unfold try_except, rename. rewrite Hsres, Hdres, Hsget, Hdget.
    rewrite bool_decide_eq_false_2 by (now apply diverge_neq).
    destruct t as [d|m]; [reflexivity|].
    now rewrite bool_decide_eq_false_2 by exact Hpre.
  - apply stat_abs_normal_get; try assumption.
    apply get_put_same. now apply clear_del.
  - unfold path_exists. rewrite stat_abs_normal_eq, Hsnul by assumption.
    fold S. unfold fs'. rewrite get_put_diverge by now apply diverge_sym.
    now rewrite get_del_same.
  - intros q Hq Hqn HSq HDq. rewrite !stat_abs_normal_eq by assumption.
    destruct (has_nul q); [reflexivity|]. unfold fs'.
    now rewrite get_put_diverge, get_del_diverge.
Qed.

Lemma mv_two h a b cwd :
  _mv h [a; b] cwd
  = let! d := p_isdir h (_path_resolve b cwd) in
    try_except (mv_loop h [_path_resolve a cwd] (_path_resolve b cwd) cwd)
      any_Exception
      (fun e => ret ("", "mv error: " +:+ exn_msg e +:+ nl, Some cwd, 1%Z)).
Proof. reflexivity. Qed.

(** X24: [mv] of one source to a path that does not exist, in a directory that
    does: the node of the source, a file or a whole directory, is found
    at the destination, the source is gone, and what lies apart from both
    is as before.  A directory is not moved into itself. *)
Theorem mv_renames (h : Host) (raw cwd a b : string) (fs t : node) :
  shlex_split (strip raw) = inr ["mv"; a; b] ->
  isabs cwd = true ->
  let s := _path_resolve a cwd in
  let dest := _path_resolve b cwd in
  stat h fs s = Some t ->
  path_exists h fs dest = false ->
  can_write h fs dest = true ->
  ~ path_names s `prefix_of` path_names dest ->
  exists fs',
    run h raw (Some cwd) fs = Ret ("", "", Some cwd, 0%Z) fs'
    /\ stat h fs' dest = Some t
    /\ path_exists h fs' s = false
    /\ forall q, isabs q = true -> normpath q = q ->
                 diverge (path_names s) (path_names q) ->
                 diverge (path_names dest) (path_names q) ->
                 stat h fs' q = stat h fs q.
Proof.
  intros Htok Hcwd s dest Hs Hmiss Hw Hpre.
  destruct (path_resolve_abs_normal a cwd Hcwd) as [Hsabs Hsnorm]. fold s in Hsabs, Hsnorm.
  destruct (path_resolve_abs_normal b cwd Hcwd) as [Hdabs Hdnorm].
  fold dest in Hdabs, Hdnorm.
  destruct (move_outcome h fs s dest t Hsabs Hsnorm Hdabs Hdnorm Hs Hmiss Hw Hpre)
    as (Hmove & Hrest).
  eexists. split; [|exact Hrest].
  rewrite (run_tokens _ _ _ _ _ _ Htok), dispatch_mv, mv_two.
  fold s. fold dest. unfold try_except at 1.
  rewrite bind_p_isdir.
  unfold try_except. cbn [mv_loop].
  rewrite bind_p_exists. unfold path_exists at 1. rewrite Hs. cbn [negb].
  rewrite bind_p_isdir, (can_write_not_dir _ _ _ Hw).
  unfold bind. rewrite Hmove. reflexivity.
Qed.

Lemma mv_renames_witness :
  exists fs',
    run host0 "mv src /home/u/moved" (Some "/w") fs_work = Ret ("", "", Some "/w", 0%Z) fs'
    /\ stat host0 fs' (_path_resolve "/home/u/moved" "/w") = Some (Dir src_entries)
    /\ path_exists host0 fs' (_path_resolve "src" "/w") = false
    /\ forall q, isabs q = true -> normpath q = q ->
                 diverge (path_names (_path_resolve "src" "/w")) (path_names q) ->
                 diverge (path_names (_path_resolve "/home/u/moved" "/w")) (path_names q) ->
                 stat host0 fs' q = stat host0 fs_work q.
Proof.
  apply (mv_renames host0 "mv src /home/u/moved" "/w" "src" "/home/u/moved" fs_work
           (Dir src_entries)); try reflexivity.
  vm_compute. intros [k Hk]. discriminate.
Defined.

(** ** The directory of a path, and touch *)

Lemma rstrip_slash_cons c p :
  rstrip_slash (String c p)
  = match rstrip_slash p with
    | EmptyString => if Ascii.eqb c "/" then EmptyString else String c EmptyString
    | r => String c r
    end.
Proof. reflexivity. Qed.

Lemma rstrip_app_slash x : rstrip_slash (x +:+ "/") = rstrip_slash x.
Proof.
  induction x as [|c x IH]; [reflexivity|].
  change (String c x +:+ "/") with (String c (x +:+ "/")).
  now rewrite !rstrip_slash_cons, IH.
Qed.

Lemma rstrip_fixed x : ends_with_slash x = false -> rstrip_slash x = x.
Proof.
  induction x as [|c x IH]; [reflexivity|]. rewrite rstrip_slash_cons.
  destruct x as [|d x].
  - cbn [ends_with_slash rstrip_slash]. now intros ->.
  - intros H. rewrite IH by exact H. reflexivity.
Qed.

Lemma names_end_plain init l :
  Forall (fun c => plain c = true) (init ++ [l]) ->
  init <> [] ->
  forall ini, ends_with_slash (slashes ini +:+ String.concat "/" init) = false
              /\ is_empty (slashes ini +:+ String.concat "/" init) = false.
Proof.
  intros Hp Hne ini. apply Forall_app in Hp as [Hinit _].
  assert (Hbody : is_empty (String.concat "/" init) = false).
  { destruct init as [|c r]; [congruence|]. inversion Hinit; subst.
    now apply body_nonempty, plain_okc. }
  split.
  - rewrite ends_with_slash_app by exact Hbody.
    destruct (concat_last init Hne) as [pre ->].
    pose proof (last_Forall _ init "" Hinit Hne) as Hl. cbv beta in Hl.
    rewrite ends_with_slash_app by now apply plain_nonempty.
    now apply ends_with_slash_plain, okc_noslash, plain_okc.
  - destruct (String.concat "/" init); [discriminate|]. now destruct ini.
Qed.

(** The directory of an absolute normal path other than the root is an
    absolute normal path again, with the last name taken off. *)
Lemma dirname_abs_normal p :
  isabs p = true -> normpath p = p -> path_names p <> [] ->
  isabs (dirname p) = true
  /\ normpath (dirname p) = dirname p
  /\ path_names (dirname p) = removelast (path_names p)
  /\ is_empty (dirname p) = false
  /\ (has_nul p = false -> has_nul (dirname p) = false).
Proof.
  intros Habs Hnorm Hne.
  destruct (abs_normal_shape p Habs Hnorm) as (ini & Hini & Hp & Hq & Hs).
  destruct (exists_last Hne) as (init & l & Hn). rewrite Hn in *.
  assert (Hinit : Forall (fun c => plain c = true) init)
    by now apply Forall_app in Hp as [H _].
  assert (Hd : dirname p = slashes ini +:+ String.concat "/" init).
  { unfold dirname. rewrite Hs.
    destruct init as [|c r].
    - destruct Hini as [-> | ->]; reflexivity.
    - destruct (names_end_plain (c :: r) l Hp ltac:(discriminate) ini) as [Hend Hemp].
      assert (Hrl : removelast (repeat "" ini ++ tail_comps ((c :: r) ++ [l]))
                    = repeat "" ini ++ c :: r).
      { change (tail_comps ((c :: r) ++ [l])) with ((c :: r) ++ [l]).
        now rewrite app_assoc, removelast_snoc. }
      assert (Hcat : String.concat "/" (repeat "" ini ++ c :: r)
                     = slashes ini +:+ String.concat "/" (c :: r)).
      { destruct Hini as [-> | ->]; reflexivity. }
      assert (Hhead : (let head := String.concat "/"
                           (removelast (repeat "" ini ++ tail_comps ((c :: r) ++ [l])))
                         +:+ "/" in
                       if is_empty (rstrip_slash head) then head else rstrip_slash head)
                      = slashes ini +:+ String.concat "/" (c :: r)).
      { cbv zeta. rewrite Hrl, Hcat, rstrip_app_slash, (rstrip_fixed _ Hend), Hemp.
        reflexivity. }
      rewrite <- Hhead.
      destruct Hini as [-> | ->]; cbn [repeat app tail_comps]; reflexivity. }
  rewrite Hd.
  assert (Hemp : is_empty (slashes ini +:+ String.concat "/" init) = false)
    by (destruct Hini as [-> | ->]; reflexivity).
  assert (Hgood : good ini (rev init) = true).
  { apply plain_good; [destruct Hini; lia|]. now apply List.Forall_rev. }
  destruct (normpath_fixed ini init ltac:(tauto) Hgood Hemp) as (Hi1 & Hi2 & Hi3).
  split; [apply slashes_abs; destruct Hini; lia|].
  split; [exact Hi3|]. split; [|split; [exact Hemp|]].
  - unfold path_names. rewrite Hi1, Hi2. now rewrite removelast_snoc.
  - rewrite Hq. unfold has_nul. rewrite !mem_char_app.
    intros [Hsl Hbody]%orb_false_elim. rewrite Hsl. cbn [orb].
    destruct init as [|c r]; [reflexivity|].
    rewrite concat_snoc, !mem_char_app in Hbody by discriminate.
    now apply orb_false_elim in Hbody as [Hb _].
Qed.

Lemma put_get_id t p v : get t p = Some v -> put t p v = t.
Proof.
  revert t. induction p as [|c p IH]; intros t; cbn [get put]; [congruence|].
  destruct t as [d|m]; [discriminate|].
  destruct (m !! c) as [t'|] eqn:E; [|discriminate]. intros H.
  change (default (Dir ∅) (Some t')) with t'.
  rewrite (IH _ H). now rewrite insert_id.
Qed.

(** The system finds an absolute normal path whose directory exists. *)
Lemma resolve_parent h fs p :
  isabs p = true -> normpath p = p -> has_nul p = false ->
  is_dir_node (get fs []) = true ->
  path_names p <> [] ->
  is_dir_node (get fs (removelast (path_names p))) = true ->
  resolve h fs p = inr (path_names p).
Proof.
  intros Habs Hnorm Hnul Hroot Hne Hpar.
  destruct (abs_normal_shape p Habs Hnorm) as (ini & Hini & Hp & _ & Hs).
  destruct (exists_last Hne) as (init & l & Hn). rewrite Hn in *.
  rewrite removelast_snoc in Hpar.
  assert (Hemp : is_empty p = false) by (destruct p; [discriminate | reflexivity]).
  unfold resolve, start_of. rewrite Hemp, Hnul, Habs, Hs.
  rewrite walk_empties by exact Hroot.
  replace (tail_comps (init ++ [l])) with (init ++ [l]) by now destruct init.
  apply Forall_app in Hp as [Hinit Hl]. inversion Hl; subst.
  rewrite walk_app.
  destruct (get fs init) as [[d|m]|] eqn:E; try discriminate.
  rewrite (walk_plain_exists fs init [] (Dir m) Hinit Hroot E). cbn [app].
  rewrite walk_plain_cons; [reflexivity | assumption | now rewrite E].
Qed.

Lemma touch_loop_existing h cwd fs : forall args,
  isabs cwd = true ->
  Forall (fun a => path_isfile h fs (_path_resolve a cwd) = true) args ->
  touch_loop h args cwd fs = Ret ("", "", Some cwd, 0%Z) fs.
Proof.
  intros args Hcwd Hall. induction Hall as [|a args Ha _ IH]; [reflexivity|].
  destruct (path_resolve_abs_normal a cwd Hcwd) as [Habs Hnorm].
  set (p := _path_resolve a cwd) in *.
  unfold path_isfile in Ha. destruct (stat h fs p) as [[c|m]|] eqn:Hs; try discriminate.
  destruct (stat_abs_normal _ _ _ _ Habs Hnorm Hs) as (Hres & Hget & Hroot & Hnul).
  assert (Hne : path_names p <> []).
  { intros E. rewrite E in Hget. cbn in Hget. injection Hget as ->. discriminate. }
  destruct (dirname_abs_normal p Habs Hnorm Hne) as (Hdabs & Hdnorm & Hdn & Hdemp & Hdnul).
  assert (Hpar : path_exists h fs (dirname p) = true).
  { unfold path_exists. rewrite stat_abs_normal_eq, (Hdnul Hnul), Hdn by assumption.
    destruct (exists_last Hne) as (init & l & Hn). rewrite Hn in *.
    rewrite removelast_snoc.
    pose proof (get_parent_dir _ _ _ _ Hget) as Hd.
    now destruct (get fs init). }
  cbn [touch_loop]. fold p. rewrite bind_p_exists, Hpar, andb_false_r.
  unfold bind at 1. unfold ret at 1. unfold bind at 1, write_raw.
  rewrite Hres, Hget, str_app_nil_r, (put_get_id _ _ _ Hget). exact IH.
Qed.

(** X25: [touch] of regular files that exist keeps their texts: the tree of
    files and directories is the same afterwards. *)
Theorem touch_existing_files (h : Host) (raw cwd : string) (args : list string)
    (fs : node) :
  shlex_split (strip raw) = inr ("touch" :: args) ->
  args <> [] ->
  isabs cwd = true ->
  Forall (fun a => path_isfile h fs (_path_resolve a cwd) = true) args ->
  run h raw (Some cwd) fs = Ret ("", "", Some cwd, 0%Z) fs.
Proof.
  intros Htok Hne Hcwd Hall. rewrite (run_tokens _ _ _ _ _ _ Htok).
  change (dispatch h "touch" args cwd) with (_touch h args cwd).
  replace (_touch h args cwd) with (touch_loop h args cwd)
    by (destruct args; [congruence | reflexivity]).
  unfold try_except. now rewrite touch_loop_existing.
Qed.

Lemma touch_existing_files_witness :
  run host0 "touch f /w/f" (Some "/w") fs_work = Ret ("", "", Some "/w", 0%Z) fs_work.
Proof.
  apply (touch_existing_files host0 "touch f /w/f" "/w" ["f"; "/w/f"] fs_work);
    [reflexivity | discriminate | reflexivity | repeat constructor].
Defined.

Lemma makedirs_missing_ok h fs p :
  isabs p = true -> normpath p = p -> has_nul p = false ->
  is_dir_node (get fs []) = true ->
  clear fs (path_names p) = true ->
  get fs (path_names p) = None ->
  makedirs h true p fs = Ret (path_names p) (put fs (path_names p) (Dir ∅)).
Proof.
  intros Habs Hnorm Hnul Hroot Hclear Hmiss.
  destruct (abs_normal_shape p Habs Hnorm) as (ini & Hini & Hp & _ & Hs).
  assert (Hemp : is_empty p = false) by (destruct p; [discriminate | reflexivity]).
  unfold makedirs. rewrite Hemp, Hnul. unfold start_of. rewrite Habs, Hs.
  unfold bind at 1. rewrite mkdirs_walk_empties by exact Hroot.
  destruct (path_names p) as [|c names] eqn:En; [discriminate|]. cbn [tail_comps].
  rewrite (mkdirs_walk_names p (c :: names) [] false fs);
    try assumption; [reflexivity | discriminate].
Qed.

Lemma touch_loop_creates h a cwd fs :
  isabs cwd = true ->
  let p := _path_resolve a cwd in
  has_nul p = false ->
  is_dir_node (get fs []) = true ->
  clear fs (path_names p) = true ->
  get fs (path_names p) = None ->
  touch_loop h [a] cwd fs = Ret ("", "", Some cwd, 0%Z) (put fs (path_names p) (File "")).
Proof.
  intros Hcwd p Hnul Hroot Hclear Hget.
  destruct (path_resolve_abs_normal a cwd Hcwd) as [Habs Hnorm]. fold p in Habs, Hnorm.
  assert (Hne : path_names p <> []).
  { intros E. rewrite E in Hget. discriminate. }
  destruct (dirname_abs_normal p Habs Hnorm Hne) as (Hdabs & Hdnorm & Hdn & Hdemp & Hdnul).
  specialize (Hdnul Hnul).
  assert (Hstat : stat h fs (dirname p) = get fs (removelast (path_names p))).
  { now rewrite stat_abs_normal_eq, Hdnul, Hdn by assumption. }
  cbn [touch_loop]. fold p. rewrite bind_p_exists. unfold path_exists. rewrite Hstat, Hdemp.
  cbn [negb andb].
  destruct (exists_last Hne) as (init & l & Hn).
  rewrite Hn in *. rewrite removelast_snoc in *.
  destruct (get fs init) as [[d|m]|] eqn:E.
  - rewrite (clear_app _ _ _ _ E) in Hclear. discriminate.
  - cbn [negb]. unfold bind at 1. unfold ret at 1. unfold bind at 1, write_raw.
    rewrite (resolve_parent h fs p), Hn, Hget; try assumption; [reflexivity | congruence |].
    rewrite Hn, removelast_snoc, E. reflexivity.
  - cbn [negb]. unfold bind at 1, bind at 1.
    assert (Hinit : init <> []).
    { intros ->. cbn in E. discriminate. }
    rewrite (makedirs_missing_ok h fs (dirname p)), Hdn; try assumption;
      [|rewrite Hdn; now apply clear_prefix in Hclear | now rewrite Hdn].
    unfold ret at 1. unfold bind at 1, write_raw.
    pose proof (clear_prefix _ _ _ Hclear) as Hcl.
    assert (Hg1 : get (put fs init (Dir ∅)) init = Some (Dir ∅)) by now apply get_put_same.
    rewrite (resolve_parent h _ p), Hn; try assumption.
    + rewrite get_app, Hg1. cbn [get]. rewrite lookup_empty.
      rewrite put_put_app, (put_app fs init [l]), E. reflexivity.
    + now apply put_root_dir.
    + congruence.
    + now rewrite Hn, removelast_snoc, Hg1.
Qed.

(** X26: with an absolute working directory and a root that is a
    directory, [touch] of a path that does not exist, holds no NUL
    character and has no regular file on the way makes an empty regular
    file there, and before that the directories leading to it that are
    missing; what lies apart from the path is as before. *)
Theorem touch_creates (h : Host) (raw cwd a : string) (fs : node) :
  shlex_split (strip raw) = inr ["touch"; a] ->
  isabs cwd = true ->
  let p := _path_resolve a cwd in
  has_nul p = false ->
  is_dir_node (get fs []) = true ->
  clear fs (path_names p) = true ->
  path_exists h fs p = false ->
  exists fs',
    run h raw (Some cwd) fs = Ret ("", "", Some cwd, 0%Z) fs'
    /\ stat h fs' p = Some (File "")
    /\ forall q, isabs q = true -> normpath q = q ->
                 diverge (path_names p) (path_names q) ->
                 stat h fs' q = stat h fs q.
Proof.
  intros Htok Hcwd p Hnul Hroot Hclear Hmiss.
  destruct (path_resolve_abs_normal a cwd Hcwd) as [Habs Hnorm]. fold p in Habs, Hnorm.
  pose proof (stat_missing_get _ _ _ Habs Hnorm Hnul Hroot Hmiss) as Hget.
  assert (Hne : path_names p <> []).
  { intros E. rewrite E in Hget. discriminate. }
  exists (put fs (path_names p) (File "")).
  assert (Hroot' : is_dir_node (get (put fs (path_names p) (File "")) []) = true)
    by now apply put_root_dir.
  split; [|split].
  - rewrite (run_tokens _ _ _ _ _ _ Htok).
    change (dispatch h "touch" [a] cwd) with (touch_loop h [a] cwd).
    unfold try_except. now rewrite touch_loop_creates.
  - apply stat_abs_normal_get; try assumption. now apply get_put_same.
  - apply stat_frame; try assumption. intros Q HQ. now apply get_put_diverge.
Qed.

Lemma touch_creates_witness :
  exists fs',
    run host0 "touch new/sub/file" (Some "/w") fs_work = Ret ("", "", Some "/w", 0%Z) fs'
    /\ stat host0 fs' (_path_resolve "new/sub/file" "/w") = Some (File "")
    /\ forall q, isabs q = true -> normpath q = q ->
                 diverge (path_names (_path_resolve "new/sub/file" "/w")) (path_names q) ->
                 stat host0 fs' q = stat host0 fs_work q.
Proof.
  apply (touch_creates host0 "touch new/sub/file" "/w" "new/sub/file" fs_work);
    reflexivity.
Defined.

(** ** Answers without a working directory, through [run] *)

(** X27: An answer of [run] lacks the working directory only when the command
    is cpu, mem or ps and has succeeded: the exit code is then 0, stderr
    is empty and the file system is as it was.  Every other answer names
    a directory. *)
Theorem no_cwd_only_from_monitors (h : Host) (raw cwd out err : string)
    (code : Z) (fs fs' : node) :
  run h raw (Some cwd) fs = Ret (out, err, None, code) fs' ->
  exists cmd args,
    shlex_split (strip raw) = inr (cmd :: args)
    /\ In cmd monitors /\ err = "" /\ code = 0%Z /\ fs' = fs.
Proof.
  unfold run. unfold bind at 1. unfold ret at 1.
  destruct (is_empty (strip raw)); [discriminate|].
  destruct (shlex_split (strip raw)) as [msg|[|cmd args]]; try discriminate.
  intros Hrun. exists cmd, args. split; [reflexivity|].
  unfold try_except in Hrun.
  destruct (dispatch h cmd args cwd fs) as [r fs1|e fs1] eqn:Hd; [|discriminate].
  injection Hrun as -> ->.
  assert (Hplaced : forall m : M Result, placed m -> m fs = Ret (out, err, None, code) fs'
                                         -> False).
  { intros m Hm E. specialize (Hm fs). rewrite E in Hm. congruence. }
  unfold dispatch in Hd.
  repeat match type of Hd with
         | (if String.eqb cmd ?name then _ else _) fs = _ =>
             destruct (String.eqb_spec cmd name) as [->|_]
         end;
    try solve [ exfalso; revert Hd; apply Hplaced;
                first [ apply placed_ls | apply placed_cd | apply placed_mkdir
                      | apply placed_rm | apply placed_rmdir | apply placed_cat
                      | apply placed_touch | apply placed_mv | apply placed_cp
                      | apply placed_echo | apply placed_head_or_tail
                      | solve [placed_auto] ] ].
  - unfold _cpu, bind, lift in Hd. destruct (cpu_probe h); [discriminate|].
    injection Hd as <- <- <- <-. unfold monitors. cbn. tauto.
  - unfold _mem, bind, lift in Hd. destruct (mem_probe h) as [|[[u t] p]]; [discriminate|].
    injection Hd as <- <- <- <-. unfold monitors. cbn. tauto.
  - unfold _ps, bind, lift in Hd. destruct (ps_probe h); [discriminate|].
    injection Hd as <- <- <- <-. unfold monitors. cbn. tauto.
Qed.

Lemma no_cwd_only_from_monitors_witness :
  exists cmd args,
    shlex_split (strip "mem") = inr (cmd :: args)
    /\ In cmd monitors /\ "" = "" /\ 0%Z = 0%Z /\ fs_work = fs_work.
Proof.
  apply (no_cwd_only_from_monitors host0 "mem" "/w"
           ("Memory: " +:+ str_of_Z 1024 +:+ "/" +:+ str_of_Z 4096 +:+ " bytes ("
            +:+ "25.0" +:+ "%)" +:+ nl) "" 0%Z fs_work fs_work).
  reflexivity.
Defined.

(** ** Into an existing directory *)

(** The path a source gets inside a directory: [join d (basename s)] for
    absolute normal paths, neither of them the root. *)
Lemma join_into_abs_normal s d :
  isabs s = true -> normpath s = s -> path_names s <> [] ->
  isabs d = true -> normpath d = d -> path_names d <> [] ->
  let j := join d (basename s) in
  isabs j = true /\ normpath j = j
  /\ path_names j = path_names d ++ [List.last (path_names s) ""]
  /\ (has_nul s = false -> has_nul d = false -> has_nul j = false).
Proof.
  intros Hsa Hsn Hsne Hda Hdn Hdne j.
  destruct (basename_abs_normal s Hsa Hsn) as [[E _]|(_ & Hb & Hbl)]; [congruence|].
  destruct (abs_normal_shape d Hda Hdn) as (ini & Hini & Hp & Hd & _).
  assert (Hjoin := join_abs_normal d ini (basename s) Hp Hdne Hd (or_intror Hb)).
  fold j in Hjoin.
  assert (Hemp : is_empty (slashes ini +:+ String.concat "/" (path_names d ++ [basename s]))
                 = false) by (destruct Hini as [-> | ->]; reflexivity).
  assert (Hgood : good ini (rev (path_names d ++ [basename s])) = true).
  { apply plain_good; [destruct Hini; lia|]. apply List.Forall_rev.
    apply Forall_app. split; [exact Hp | now repeat constructor]. }
  destruct (normpath_fixed ini _ ltac:(tauto) Hgood Hemp) as (Hi1 & Hi2 & Hi3).
  rewrite <- Hjoin in Hi1, Hi2, Hi3.
  split; [now apply join_abs|]. split; [exact Hi3|]. split.
  - unfold path_names. now rewrite Hi1, Hi2, Hbl.
  - intros Hsnul Hdnul. pose proof (basename_mem _ _ Hsnul) as Hbnul.
    unfold j, join. destruct (String.prefix "/" (basename s)); [exact Hbnul|].
    unfold has_nul in *.
    destruct (_ || _); rewrite !mem_char_app, Hdnul, Hbnul; reflexivity.
Qed.

(** A path inside an existing directory that is not itself a directory
    can be written. *)
Lemma can_write_inside h fs j :
  isabs j = true -> normpath j = j -> has_nul j = false ->
  is_dir_node (get fs []) = true -> path_names j <> [] ->
  is_dir_node (get fs (removelast (path_names j))) = true ->
  path_isdir h fs j = false ->
  can_write h fs j = true.
Proof.
  intros Habs Hnorm Hnul Hroot Hne Hpar Hnd.
  pose proof (resolve_parent h fs j Habs Hnorm Hnul Hroot Hne Hpar) as Hres.
  unfold can_write. unfold path_isdir, stat in Hnd. rewrite Hres in *. now rewrite Hnd.
Qed.

(** X28: with an absolute working directory, [mv] of one existing source
    into an existing directory other than the root, which is neither the
    source itself nor inside it and has no entry of the source's name:
    the node of the source is found under that name in the directory, the
    source is gone, and what lies apart from both is as before. *)
Theorem mv_into_directory (h : Host) (raw cwd a b : string) (fs t : node) :
  shlex_split (strip raw) = inr ["mv"; a; b] ->
  isabs cwd = true ->
  let s := _path_resolve a cwd in
  let dest := _path_resolve b cwd in
  let target := join dest (basename s) in
  stat h fs s = Some t ->
  path_isdir h fs dest = true ->
  path_names dest <> [] ->
  path_exists h fs target = false ->
  ~ path_names s `prefix_of` path_names dest ->
  exists fs',
    run h raw (Some cwd) fs = Ret ("", "", Some cwd, 0%Z) fs'
    /\ stat h fs' target = Some t
    /\ path_names target = path_names dest ++ [List.last (path_names s) ""]
    /\ path_exists h fs' s = false
    /\ forall q, isabs q = true -> normpath q = q ->
                 diverge (path_names s) (path_names q) ->
                 diverge (path_names target) (path_names q) ->
                 stat h fs' q = stat h fs q.
Proof.
  intros Htok Hcwd s dest target Hs Hdir Hdne Hmiss Hpre.
  destruct (path_resolve_abs_normal a cwd Hcwd) as [Hsabs Hsnorm]. fold s in Hsabs, Hsnorm.
  destruct (path_resolve_abs_normal b cwd Hcwd) as [Hdabs Hdnorm].
  fold dest in Hdabs, Hdnorm.
  destruct (stat_abs_normal _ _ _ _ Hsabs Hsnorm Hs) as (Hsres & Hsget & Hroot & Hsnul).
  unfold path_isdir in Hdir.
  destruct (stat h fs dest) as [[|m]|] eqn:Hd; try discriminate.
  destruct (stat_abs_normal _ _ _ _ Hdabs Hdnorm Hd) as (_ & Hdget & _ & Hdnul).
  assert (Hsne : path_names s <> []).
  { intros E. apply Hpre. rewrite E. apply prefix_nil. }
  destruct (join_into_abs_normal s dest Hsabs Hsnorm Hsne Hdabs Hdnorm Hdne)
    as (Hjabs & Hjnorm & Hjn & Hjnul). fold target in Hjabs, Hjnorm, Hjn, Hjnul.
  specialize (Hjnul Hsnul Hdnul).
  assert (Hjmiss : get fs (path_names target) = None)
    by now apply (stat_missing_get h).
  assert (Hnd : path_isdir h fs target = false).
  { unfold path_isdir, path_exists in *. now destruct (stat h fs target). }
  assert (Hw : can_write h fs target = true).
  { apply can_write_inside; try assumption.
    - rewrite Hjn. now destruct (path_names dest).
    - now rewrite Hjn, removelast_snoc, Hdget. }
  assert (Hpre' : ~ path_names s `prefix_of` path_names target).
  { rewrite Hjn. intros [k Hk]. destruct k as [|x k _] using rev_ind.
    - rewrite app_nil_r in Hk. rewrite Hjn, Hk, Hsget in Hjmiss. discriminate.
    - rewrite app_assoc in Hk. apply app_inj_tail in Hk as [Hk _].
      apply Hpre. now exists k. }
  destruct (move_outcome h fs s target t Hsabs Hsnorm Hjabs Hjnorm Hs Hmiss Hw Hpre')
    as (Hmove & Hst & Hgone & Hframe).
  eexists. split; [|split; [exact Hst | split; [exact Hjn | split; [exact Hgone | exact Hframe]]]].
  rewrite (run_tokens _ _ _ _ _ _ Htok), dispatch_mv, mv_two.
  fold s. fold dest. unfold try_except at 1.
  rewrite bind_p_isdir.
  unfold try_except. cbn [mv_loop].
  rewrite bind_p_exists. unfold path_exists at 1. rewrite Hs. cbn [negb].
  rewrite bind_p_isdir. unfold path_isdir at 1. rewrite Hd. cbn [is_dir_node].
  fold target. unfold bind. rewrite Hmove. reflexivity.
Qed.

Lemma mv_into_directory_witness :
  let s := _path_resolve "f" "/w" in
  let dest := _path_resolve "src" "/w" in
  let target := join dest (basename s) in
  exists fs',
    run host0 "mv f src" (Some "/w") fs_work = Ret ("", "", Some "/w", 0%Z) fs'
    /\ stat host0 fs' target = Some (File "data")
    /\ path_names target = path_names dest ++ [List.last (path_names s) ""]
    /\ path_exists host0 fs' s = false
    /\ forall q, isabs q = true -> normpath q = q ->
                 diverge (path_names s) (path_names q) ->
                 diverge (path_names target) (path_names q) ->
                 stat host0 fs' q = stat host0 fs_work q.
Proof.
  apply (mv_into_directory host0 "mv f src" "/w" "f" "src" fs_work (File "data"));
    try reflexivity.
  - vm_compute. discriminate.
  - vm_compute. intros [k Hk]. discriminate.
Defined.

(** [shutil.copy2] of a regular file to another absolute normal path that
    can be written. *)
Lemma copy2_outcome h fs s j c :
  isabs s = true -> normpath s = s ->
  isabs j = true -> normpath j = j ->
  stat h fs s = Some (File c) ->
  can_write h fs j = true ->
  path_names s <> path_names j ->
  let fs' := put fs (path_names j) (File c) in
  copy2 h s j fs = Ret tt fs'
  /\ stat h fs' j = Some (File c)
  /\ stat h fs' s = Some (File c)
  /\ forall q, isabs q = true -> normpath q = q ->
               diverge (path_names j) (path_names q) ->
               stat h fs' q = stat h fs q.
Proof.
  intros Hsabs Hsnorm Hjabs Hjnorm Hs Hw Hne.
  destruct (stat_abs_normal _ _ _ _ Hsabs Hsnorm Hs) as (Hsres & Hsget & Hroot & _).
  destruct (write_outcome h fs j c false Hjabs Hjnorm Hw)
    as (old & Ew & Es & _ & _ & _ & Hclear & Hnd & Hframe).
  cbv zeta in *.
  destruct (can_write_facts _ _ _ Hjabs Hjnorm Hw) as (Hjres & _).
  split; [|split; [exact Es | split; [|exact Hframe]]].
  - unfold copy2. rewrite bind_read_fs, (can_write_not_dir _ _ _ Hw).
    unfold copyfile. rewrite bind_read_fs. unfold samefile. rewrite Hsres, Hjres.
    rewrite bool_decide_eq_false_2 by exact Hne. cbn [andb].
    unfold bind at 1, read_raw. rewrite Hsres, Hsget. exact Ew.
  - rewrite Hframe; [exact Hs | assumption..|].
    now apply (file_apart fs _ _ c).
Qed.

(** X29: with an absolute working directory, [cp] of a regular file into
    an existing directory other than the root, where the entry of the
    source's name is no directory and is not the source itself: the
    directory gets an entry of that name with the text of the source, in
    place of a regular file of that name if there is one; the source and
    what lies apart from the new entry are as before. *)
Theorem cp_into_directory (h : Host) (raw cwd a b c : string) (fs : node) :
  shlex_split (strip raw) = inr ["cp"; a; b] ->
  a <> "-r" -> b <> "-r" ->
  isabs cwd = true ->
  let s := _path_resolve a cwd in
  let dest := _path_resolve b cwd in
  let target := join dest (basename s) in
  stat h fs s = Some (File c) ->
  path_isdir h fs dest = true ->
  path_names dest <> [] ->
  path_isdir h fs target = false ->
  path_names s <> path_names target ->
  exists fs',
    run h raw (Some cwd) fs = Ret ("", "", Some cwd, 0%Z) fs'
    /\ stat h fs' target = Some (File c)
    /\ path_names target = path_names dest ++ [List.last (path_names s) ""]
    /\ stat h fs' s = Some (File c)
    /\ forall q, isabs q = true -> normpath q = q ->
                 diverge (path_names target) (path_names q) ->
                 stat h fs' q = stat h fs q.
Proof.
  intros Htok Ha Hb Hcwd s dest target Hs Hdir Hdne Hnd Hne.
  destruct (path_resolve_abs_normal a cwd Hcwd) as [Hsabs Hsnorm]. fold s in Hsabs, Hsnorm.
  destruct (path_resolve_abs_normal b cwd Hcwd) as [Hdabs Hdnorm].
  fold dest in Hdabs, Hdnorm.
  destruct (stat_abs_normal _ _ _ _ Hsabs Hsnorm Hs) as (Hsres & Hsget & Hroot & Hsnul).
  unfold path_isdir in Hdir.
  destruct (stat h fs dest) as [[|m]|] eqn:Hd; try discriminate.
  destruct (stat_abs_normal _ _ _ _ Hdabs Hdnorm Hd) as (_ & Hdget & _ & Hdnul).
  assert (Hsne : path_names s <> []).
  { intros E. rewrite E in Hsget. cbn in Hsget. injection Hsget as ->. discriminate. }
  destruct (join_into_abs_normal s dest Hsabs Hsnorm Hsne Hdabs Hdnorm Hdne)
    as (Hjabs & Hjnorm & Hjn & Hjnul). fold target in Hjabs, Hjnorm, Hjn, Hjnul.
  specialize (Hjnul Hsnul Hdnul).
  assert (Hw : can_write h fs target = true).
  { apply can_write_inside; try assumption.
    - rewrite Hjn. now destruct (path_names dest).
    - now rewrite Hjn, removelast_snoc, Hdget. }
  destruct (copy2_outcome h fs s target c Hsabs Hsnorm Hjabs Hjnorm Hs Hw Hne)
    as (Hcopy & Hst & Hsrc & Hframe).
  eexists. split; [|split; [exact Hst | split; [exact Hjn | split; [exact Hsrc | exact Hframe]]]].
  rewrite (run_tokens _ _ _ _ _ _ Htok), dispatch_cp, (cp_two_files _ _ _ _ Ha Hb).
  fold s. fold dest. unfold try_except at 1.
  rewrite bind_p_isdir. unfold try_except. cbn [cp_loop].
  rewrite bind_p_exists. unfold path_exists. rewrite Hs. cbn [negb].
  rewrite bind_p_isdir. unfold path_isdir at 1. rewrite Hs. cbn [is_dir_node].
  rewrite bind_p_isdir. unfold path_isdir at 1. rewrite Hd. cbn [is_dir_node].
  fold target. unfold bind. rewrite Hcopy. reflexivity.
Qed.

Lemma cp_into_directory_witness :
  let s := _path_resolve "f" "/w" in
  let dest := _path_resolve "src" "/w" in
  let target := join dest (basename s) in
  exists fs',
    run host0 "cp f src" (Some "/w") fs_work = Ret ("", "", Some "/w", 0%Z) fs'
    /\ stat host0 fs' target = Some (File "data")
    /\ path_names target = path_names dest ++ [List.last (path_names s) ""]
    /\ stat host0 fs' s = Some (File "data")
    /\ forall q, isabs q = true -> normpath q = q ->
                 diverge (path_names target) (path_names q) ->
                 stat host0 fs' q = stat host0 fs_work q.
Proof.
  apply (cp_into_directory host0 "cp f src" "/w" "f" "src" "data" fs_work);
    try reflexivity; discriminate.
Defined.

(** ** The command line and the resolver *)

Lemma rstrip_all_space s : all_space s = true -> rstrip s = "".
Proof.
  induction s as [|c s IH]; [reflexivity|]. cbn [all_space rstrip].
  intros [Hc Hs]%andb_prop. now rewrite (IH Hs), Hc.
Qed.

Lemma rstrip_app_space x pad : all_space pad = true -> rstrip (x +:+ pad) = rstrip x.
Proof.
  intros Hp. induction x as [|c x IH]; [now apply rstrip_all_space|].
  change (String c x +:+ pad) with (String c (x +:+ pad)).
  cbn [rstrip]. now rewrite IH.
Qed.

Lemma lstrip_app_space pad x : all_space pad = true -> lstrip (pad +:+ x) = lstrip x.
Proof.
  induction pad as [|c pad IH]; [reflexivity|]. cbn [all_space].
  intros [Hc Hs]%andb_prop.
  change (String c pad +:+ x) with (String c (pad +:+ x)).
  cbn [lstrip]. rewrite Hc. now apply IH.
Qed.

Lemma strip_app_space x pad : all_space pad = true -> strip (x +:+ pad) = strip x.
Proof.
  intros Hp. unfold strip. induction x as [|c x IH].
  - cbn. now rewrite (lstrip_all_space _ Hp).
  - change (String c x +:+ pad) with (String c (x +:+ pad)).
    cbn [lstrip]. destruct (is_space c); [exact IH|].
    change (String c (x +:+ pad)) with (String c x +:+ pad).
    now apply rstrip_app_space.
Qed.

(** X30: White space around a command line does not count: the line padded on
    both sides is answered as the line itself, whatever it is and whatever
    the working directory given. *)
Theorem run_ignores_padding (h : Host) (raw before after : string)
    (cwd : option string) (fs : node) :
  all_space before = true -> all_space after = true ->
  run h (before +:+ raw +:+ after) cwd fs = run h raw cwd fs.
Proof.
  intros Hb Ha.
  assert (E : strip (before +:+ raw +:+ after) = strip raw).
  { rewrite <- str_app_assoc, (strip_app_space _ _ Ha).
    unfold strip. now rewrite lstrip_app_space. }
  unfold run. now rewrite E.
Qed.

Lemma run_ignores_padding_witness :
  run host0 ("  " +:+ "ls src" +:+ " " +:+ nl) (Some "/w") fs_work
  = run host0 "ls src" (Some "/w") fs_work.
Proof.
  apply (run_ignores_padding host0 "ls src" "  " (" " +:+ nl) (Some "/w") fs_work);
    reflexivity.
Defined.

(** Resolving is idempotent: a resolved path is absolute and in normal
    form, so resolving it again, against any working directory, gives it
    back. *)
Lemma path_resolve_idempotent (p cwd cwd' : string) :
  isabs cwd = true ->
  _path_resolve (_path_resolve p cwd) cwd' = _path_resolve p cwd.
Proof.
  intros Hcwd. destruct (path_resolve_abs_normal p cwd Hcwd) as [Habs Hnorm].
  unfold _path_resolve at 1. now rewrite Habs.
Qed.

Lemma path_resolve_idempotent_witness :
  _path_resolve (_path_resolve "a/../b/./c" "/w") "/elsewhere"
  = _path_resolve "a/../b/./c" "/w".
Proof. apply (path_resolve_idempotent "a/../b/./c" "/w" "/elsewhere"). reflexivity. Defined.
